(** * Ragged arrays over one flat content buffer

    A shallow embedding of [awkward/array/jagged.py]: the [JaggedArray]
    class (starts, stops, content and the three cached representations
    offsets, counts and parents), its validation, relayout ([_tojagged]),
    broadcasting, jagged indexing, the per-row reductions, [argcross], and
    the constructors and the validity rule of [ByteJaggedArray].

    Conventions of the embedding.
    - Index arrays (starts, stops, offsets, counts, parents) are
      one-dimensional arrays of INDEXTYPE (int64): [list Z], with the
      wrap-around of 64-bit arithmetic written out ([np.wrap64]).  With one
      dimension and an integer dtype the rank and dtype guards of
      [_validstartsstops] cannot fire; the guard on lengths is kept.
    - Numeric content is a one-dimensional [np.ndarray]: a dtype tag and the
      items as integers.  Floating-point items are not represented.
    - A Python exception is a value of [exn]; a method of an object is a
      state transformer on the record of its attributes, and the state
      survives a raised exception, as the attributes of a Python object do.
    - A cache attribute holding Python's None is [None].
    - Object identity is not part of the values: where [_tojagged] tests
      [starts is self._starts], the argument says whether it is the view's
      own array ([Own]) or another one ([Other]).
    - numpy is modelled as its documentation has it for one-dimensional
      arrays: an index array is checked against the bounds and a negative
      index counts from the end; a boolean index must have the length of
      the array; operands of different lengths broadcast only when one has
      length 1; [reduceat] rejects an index equal to the length;
      sorting is stable.
    - [awkward.util] is not among the sources: its helpers are modelled
      from the description of the four index representations, or taken as
      parameters where that description is silent. *)

From Stdlib Require Import ZArith List Lia Bool.
From Stdlib Require String.
Import ListNotations.
Local Open Scope Z_scope.

(** ** Exceptions, results, and the monad of methods *)

Inductive exn : Type :=
| ValueError | IndexError | TypeError | NameError | AttributeError
| NotImplementedError | RecursionError.

Definition exn_eqb (a b : exn) : bool :=
  match a, b with
  | ValueError, ValueError | IndexError, IndexError | TypeError, TypeError
  | NameError, NameError | AttributeError, AttributeError
  | NotImplementedError, NotImplementedError
  | RecursionError, RecursionError => true
  | _, _ => false
  end.

Inductive result (A : Type) : Type :=
| Ok (a : A)
| Raise (e : exn).
Arguments Ok {A} a.
Arguments Raise {A} e.

Definition rbind {A B} (r : result A) (k : A -> result B) : result B :=
  match r with
  | Ok a => k a
  | Raise e => Raise e
  end.

Declare Scope result_scope.
Delimit Scope result_scope with result.
Notation "'let*' x ':=' r 'in' k" := (rbind r (fun x => k))
  (at level 61, x pattern, r at next level, right associativity) : result_scope.
Local Open Scope result_scope.

(** A method of an object with attribute record [S]. *)
Definition M (S A : Type) : Type := S -> result A * S.

Definition ret {S A} (a : A) : M S A := fun s => (Ok a, s).

Definition bind {S A B} (m : M S A) (k : A -> M S B) : M S B :=
  fun s =>
    match m s with
    | (Ok a, s') => k a s'
    | (Raise e, s') => (Raise e, s')
    end.

Definition raise {S A} (e : exn) : M S A := fun s => (Raise e, s).

Definition lift {S A} (r : result A) : M S A := fun s => (r, s).

Definition get {S} : M S S := fun s => (Ok s, s).

Definition modify {S} (f : S -> S) : M S unit := fun s => (Ok tt, f s).

(** [try: m except e: h]. *)
Definition try_except {S A} (m : M S A) (e : exn) (h : M S A) : M S A :=
  fun s =>
    match m s with
    | (Raise e', s') => if exn_eqb e e' then h s' else (Raise e', s')
    | ok => ok
    end.

(** A method call on another object [obj] (a local variable of the
    caller): the call returns its value and the object as it left it. *)
Definition call {S T A} (obj : T) (m : M T A) : M S (A * T) :=
  fun s =>
    match m obj with
    | (Ok a, obj') => (Ok (a, obj'), s)
    | (Raise e, _) => (Raise e, s)
    end.

Declare Scope method_scope.
Delimit Scope method_scope with method.
Notation "x <- m ;; k" := (bind m (fun x => k))
  (at level 100, m at next level, right associativity) : method_scope.
Notation "' p <- m ;; k" := (bind m (fun x => match x with p => k end))
  (at level 100, p pattern, m at next level, right associativity) : method_scope.
Notation "m ;; k" := (bind m (fun _ => k))
  (at level 100, right associativity) : method_scope.

(** ** The part of numpy the module uses *)

Module np.

Definition wrap64 (z : Z) : Z := (z + 2 ^ 63) mod 2 ^ 64 - 2 ^ 63.

Inductive dtype : Type := int64 | uint64 | uint8 | bool_.

Definition dtype_eqb (a b : dtype) : bool :=
  match a, b with
  | int64, int64 | uint64, uint64 | uint8, uint8 | bool_, bool_ => true
  | _, _ => false
  end.

(** Storing the integer [z] in an item of dtype [dt]. *)
Definition wrap (dt : dtype) (z : Z) : Z :=
  match dt with
  | int64 => wrap64 z
  | uint64 => z mod 2 ^ 64
  | uint8 => z mod 2 ^ 8
  | bool_ => if z =? 0 then 0 else 1
  end.

(** [issubclass(dt.type, numpy.integer)]: bool_ is not an integer type. *)
Definition is_integer (dt : dtype) : bool :=
  match dt with
  | bool_ => false
  | _ => true
  end.

(** [numpy.iinfo(dt).min] and [.max]; iinfo rejects bool_. *)
Definition iinfo_min (dt : dtype) : result Z :=
  match dt with
  | int64 => Ok (- 2 ^ 63)
  | uint64 | uint8 => Ok 0
  | bool_ => Raise ValueError
  end.

Definition iinfo_max (dt : dtype) : result Z :=
  match dt with
  | int64 => Ok (2 ^ 63 - 1)
  | uint64 => Ok (2 ^ 64 - 1)
  | uint8 => Ok 255
  | bool_ => Raise ValueError
  end.

Record ndarray : Type := array { dtype_of : dtype; data : list Z }.

(** The right-hand side of an assignment, or an operand: a scalar or a
    one-dimensional array. *)
Inductive operand (A : Type) : Type :=
| Scalar (x : A)
| Values (l : list A).
Arguments Scalar {A} x.
Arguments Values {A} l.

Definition len {A} (a : list A) : Z := Z.of_nat (length a).

Definition zeros (n : Z) : list Z := repeat 0 (Z.to_nat n).
Definition ones (n : Z) : list Z := repeat 1 (Z.to_nat n).
Definition full (n : Z) (v : Z) : list Z := repeat v (Z.to_nat n).
Definition arange (n : Z) : list Z := map Z.of_nat (seq 0 (Z.to_nat n)).

Fixpoint eqb_list (a b : list Z) : bool :=
  match a, b with
  | [], [] => true
  | x :: a', y :: b' => (x =? y) && eqb_list a' b'
  | _, _ => false
  end.

(** [numpy.array_equal]: same shape and same items. *)
Definition array_equal (a b : list Z) : bool := eqb_list a b.

Definition any (m : list bool) : bool := existsb (fun b => b) m.
Definition all (m : list bool) : bool := forallb (fun b => b) m.

(** An elementwise binary operation with numpy's broadcasting rule for
    one dimension: equal lengths, or one side of length 1. *)
Definition broadcast2 {A B} (f : A -> A -> B) (a b : list A) : result (list B) :=
  if (length a =? length b)%nat then Ok (map (fun p => f (fst p) (snd p)) (combine a b))
  else match a, b with
       | [x], _ => Ok (map (f x) b)
       | _, [y] => Ok (map (fun x => f x y) a)
       | _, _ => Raise ValueError
       end.

Definition add := broadcast2 (fun x y => wrap64 (x + y)).
Definition sub := broadcast2 (fun x y => wrap64 (x - y)).
Definition mul := broadcast2 (fun x y => wrap64 (x * y)).
(** Integer floor division; numpy gives 0 for a zero divisor. *)
Definition floordiv := broadcast2 (fun x y => wrap64 (x / y)).
(** The in-place [a += b]: [b] must broadcast to the shape of [a]. *)
Definition iadd (a b : list Z) : result (list Z) :=
  if (length a =? length b)%nat || (length b =? 1)%nat then add a b
  else Raise ValueError.
Definition lt := broadcast2 Z.ltb.
Definition gt := broadcast2 Z.gtb.
Definition ne := broadcast2 (fun x y => negb (x =? y)).
Definition eq := broadcast2 Z.eqb.

(** [a[1:]] and [a[:-1]]. *)
Definition from1 {A} (a : list A) : list A := tl a.
Definition upto_last {A} (a : list A) : list A := removelast a.

(** Bounds of the slice [a[start:stop]] of a sequence of length [n]:
    a negative bound counts from the end, and both are clipped. *)
Definition slice_bound (n i : Z) : Z :=
  if i <? 0 then Z.max 0 (i + n) else Z.min i n.

Definition slice {A} (a : list A) (start stop : Z) : list A :=
  let lo := slice_bound (len a) start in
  let hi := slice_bound (len a) stop in
  firstn (Z.to_nat (hi - lo)) (skipn (Z.to_nat lo) a).

(** An integer index: a negative one counts from the end, once. *)
Definition norm_index (n : nat) (i : Z) : result nat :=
  let i' := if i <? 0 then i + Z.of_nat n else i in
  if (0 <=? i') && (i' <? Z.of_nat n) then Ok (Z.to_nat i') else Raise IndexError.

(** [a[i]]. *)
Definition item {A} (a : list A) (i : Z) : result A :=
  let* k := norm_index (length a) i in
  match nth_error a k with
  | Some x => Ok x
  | None => Raise IndexError
  end.

Fixpoint norm_indexes (n : nat) (idx : list Z) : result (list nat) :=
  match idx with
  | [] => Ok []
  | i :: rest =>
      let* k := norm_index n i in
      let* ks := norm_indexes n rest in
      Ok (k :: ks)
  end.

(** [a[idx]] for an integer array [idx]. *)
Fixpoint take {A} (a : list A) (idx : list Z) : result (list A) :=
  match idx with
  | [] => Ok []
  | i :: rest =>
      let* x := item a i in
      let* xs := take a rest in
      Ok (x :: xs)
  end.

Fixpoint select {A} (mask : list bool) (a : list A) : list A :=
  match mask, a with
  | true :: m, x :: a' => x :: select m a'
  | false :: m, _ :: a' => select m a'
  | _, _ => []
  end.

(** [a[mask]] for a boolean array [mask]: the lengths must agree. *)
Definition compress {A} (a : list A) (mask : list bool) : result (list A) :=
  if (length mask =? length a)%nat then Ok (select mask a) else Raise IndexError.

Definition count_true (mask : list bool) : nat := length (filter (fun b => b) mask).

(** The values an assignment to [n] places receives from its right-hand
    side: a scalar or a single value is repeated, an array must have
    exactly [n] items. *)
Definition spread {A} (n : nat) (rhs : operand A) : result (list A) :=
  match rhs with
  | Scalar x => Ok (repeat x n)
  | Values [x] => Ok (repeat x n)
  | Values l => if (length l =? n)%nat then Ok l else Raise ValueError
  end.

Fixpoint place {A} (mask : list bool) (a vals : list A) : list A :=
  match mask, a with
  | true :: m, x :: a' =>
      match vals with
      | v :: vs => v :: place m a' vs
      | [] => x :: place m a' []
      end
  | false :: m, x :: a' => x :: place m a' vals
  | _, _ => a
  end.

(** [a[mask] = rhs]. *)
Definition setitem_mask {A} (a : list A) (mask : list bool) (rhs : operand A)
  : result (list A) :=
  if (length mask =? length a)%nat then
    let* vals := spread (count_true mask) rhs in
    Ok (place mask a vals)
  else Raise IndexError.

Fixpoint update {A} (a : list A) (k : nat) (v : A) : list A :=
  match a, k with
  | [], _ => []
  | _ :: a', O => v :: a'
  | x :: a', S k' => x :: update a' k' v
  end.

Fixpoint put {A} (a : list A) (ks : list nat) (vals : list A) : list A :=
  match ks, vals with
  | k :: ks', v :: vs => put (update a k v) ks' vs
  | _, _ => a
  end.

(** [a[idx] = rhs] for an integer array [idx]; on a repeated index the
    last value stays. *)
Definition setitem_take {A} (a : list A) (idx : list Z) (rhs : operand A)
  : result (list A) :=
  let* vals := spread (length idx) rhs in
  let* ks := norm_indexes (length a) idx in
  Ok (put a ks vals).

(** [a[start:stop] = rhs]. *)
Definition setitem_slice {A} (a : list A) (start stop : Z) (rhs : operand A)
  : result (list A) :=
  let lo := slice_bound (len a) start in
  let hi := slice_bound (len a) stop in
  let n := Z.to_nat (hi - lo) in
  let* vals := spread n rhs in
  Ok (firstn (Z.to_nat lo) a ++ vals ++ skipn (Z.to_nat lo + n) a).

Definition reduce (f : Z -> Z -> Z) (a : list Z) : result Z :=
  match a with
  | [] => Raise ValueError
  | x :: rest => Ok (fold_left f rest x)
  end.

(** [a.max()], [a.min()]: no identity, an empty array is an error. *)
Definition max (a : list Z) : result Z := reduce Z.max a.
Definition min (a : list Z) : result Z := reduce Z.min a.

(** [a.prod()]: the empty product is 1. *)
Definition prod (f : Z -> Z -> Z) (a : list Z) : Z := fold_left f a 1.

Fixpoint first_index (v : Z) (a : list Z) (i : Z) : Z :=
  match a with
  | [] => i
  | x :: rest => if x =? v then i else first_index v rest (i + 1)
  end.

(** [numpy.argmin(a)], [numpy.argmax(a)]: the first position of the
    optimum; an empty array is an error. *)
Definition argmin (a : list Z) : result Z :=
  let* v := min a in Ok (first_index v a 0).
Definition argmax (a : list Z) : result Z :=
  let* v := max a in Ok (first_index v a 0).

(** The dtype in which [add] and [multiply] reduce: small integers and
    booleans are widened to the platform integer. *)
Definition reduce_dtype (dt : dtype) : dtype :=
  match dt with
  | bool_ => int64
  | uint8 => uint64
  | other => other
  end.

Fixpoint accumulate (f : Z -> Z -> Z) (acc : Z) (a : list Z) : list Z :=
  match a with
  | [] => []
  | x :: rest => let acc' := f acc x in acc' :: accumulate f acc' rest
  end.

(** [numpy.cumsum] within int64. *)
Definition cumsum (a : list Z) : list Z :=
  accumulate (fun x y => wrap64 (x + y)) 0 a.

Fixpoint reduceat_from (f : Z -> Z -> Z) (a : list Z) (idx : list Z) : result (list Z) :=
  match idx with
  | [] => Ok []
  | i :: rest =>
      let* x :=
        match rest with
        | j :: _ => if i <? j then reduce f (slice a i j) else item a i
        | [] => reduce f (slice a i (len a))
        end in
      let* xs := reduceat_from f a rest in
      Ok (x :: xs)
  end.

(** [ufunc.reduceat(a, idx)]: every index must lie in [0, len(a)); item i
    reduces [a[idx[i]:idx[i+1]]], or is [a[idx[i]]] when
    [idx[i] >= idx[i+1]]; the last item reduces [a[idx[-1]:]]. *)
Definition reduceat (f : Z -> Z -> Z) (a : list Z) (idx : list Z) : result (list Z) :=
  if forallb (fun i => (0 <=? i) && (i <? len a)) idx
  then reduceat_from f a idx
  else Raise IndexError.

Fixpoint insert_sorted (x : Z * Z) (l : list (Z * Z)) : list (Z * Z) :=
  match l with
  | [] => [x]
  | y :: l' => if fst y <=? fst x then y :: insert_sorted x l' else x :: y :: l'
  end.

(** [a.argsort(kind="mergesort")]: positions in increasing order of their
    item, equal items in increasing order of position. *)
Definition argsort (a : list Z) : list Z :=
  map snd (fold_left (fun acc x => insert_sorted x acc) (combine a (arange (len a))) []).

End np.

(** ** Helpers of [awkward.util] *)

Module util.

(** [a[start:stop] = v] for a scalar [v] never fails. *)
Definition fill_slice (a : list Z) (start stop v : Z) : list Z :=
  let lo := np.slice_bound (np.len a) start in
  let hi := np.slice_bound (np.len a) stop in
  let n := Z.to_nat (hi - lo) in
  firstn (Z.to_nat lo) a ++ repeat v n ++ skipn (Z.to_nat lo + n) a.

(** For each row [i], in index order, [parents[starts[i]:stops[i]] = i]. *)
Fixpoint fill_rows (parents : list Z) (i : Z) (starts stops : list Z) : list Z :=
  match starts, stops with
  | s :: starts', t :: stops' =>
      fill_rows (fill_slice parents s t i) (i + 1) starts' stops'
  | _, _ => parents
  end.

(** Modelled from the spec: [awkward.util.counts2offsets] is not under
    src/.  "counts -> offsets: prefix sum with leading 0." *)
Definition counts2offsets (counts : list Z) : list Z := 0 :: np.cumsum counts.

(** Modelled from the spec: [awkward.util.offsets2parents] is not under
    src/.  "offsets -> parents: for each row i, set
    parents[offsets[i]:offsets[i+1]] = i (always contiguous, so every
    position is assigned)."  The helper sees the offsets only, so the array
    extends to the last offset; a position below the first offset belongs
    to no row and holds -1. *)
Definition offsets2parents (offsets : list Z) : list Z :=
  fill_rows (np.full (last offsets 0) (-1)) 0 (np.upto_last offsets) (np.from1 offsets).

(** Modelled from the spec: [awkward.util.startsstops2parents] is not
    under src/.  "starts/stops -> parents (general case): initialize all
    parents to -1; for each row i in index order, set
    parents[starts[i]:stops[i]] = i - later rows overwrite earlier ones on
    overlap."  The helper sees starts and stops only, so the array extends
    to the largest stop (it is empty without rows). *)
Definition startsstops2parents (starts stops : list Z) : list Z :=
  fill_rows (np.full (fold_right Z.max 0 stops) (-1)) 0 starts stops.

End util.

(** ** The class [JaggedArray] *)

Record JaggedArray (C : Type) : Type := Build_JaggedArray {
  _starts : list Z;
  _stops : list Z;
  _content : C;
  _offsets : option (list Z);
  _counts : option (list Z);
  _parents : option (list Z);
  _isvalid : bool
}.
Arguments Build_JaggedArray {C}.
Arguments _starts {C}.
Arguments _stops {C}.
Arguments _content {C}.
Arguments _offsets {C}.
Arguments _counts {C}.
Arguments _parents {C}.
Arguments _isvalid {C}.

Definition exec {S A} (m : M S A) (s : S) : result S :=
  match m s with
  | (Ok _, s') => Ok s'
  | (Raise e, _) => Raise e
  end.

Definition value_of {S A} (m : M S A) (s : S) : result A := fst (m s).

Local Open Scope method_scope.

Section Class.
Context {C : Type}.

(** [awkward.util.offsetsaliased(starts, stops)] is not under src/ and
    tests memory identity, which the items of the two arrays do not
    determine: it is a parameter, answering with the shared base array
    when starts and stops are its two views [base[:-1]] and [base[1:]]. *)
Variable offsetsaliased : list Z -> list Z -> option (list Z).

(** [awkward.util.parents2startsstops] is not under src/; the one place
    that calls it below is never reached. *)
Variable parents2startsstops : list Z -> list Z * list Z.

Local Abbreviation J := (JaggedArray C).

Definition negative_any (value : list Z) : bool := existsb (fun x => x <? 0) value.

(** [__init__]: the three setters in turn, on a fresh object. *)
Definition __init__ (starts stops : list Z) (content : C) : result J :=
  if negative_any starts then Raise ValueError
  else if negative_any stops then Raise ValueError
  else Ok {| _starts := starts; _stops := stops; _content := content;
             _offsets := None; _counts := None; _parents := None;
             _isvalid := false |}.

(** *** Setters *)

Definition set_starts (value : list Z) : M J unit :=
  if negative_any value then raise ValueError
  else modify (fun self =>
    {| _starts := value; _stops := _stops self; _content := _content self;
       _offsets := None; _counts := None; _parents := None;
       _isvalid := false |}).

Definition set_stops (value : list Z) : M J unit :=
  if negative_any value then raise ValueError
  else modify (fun self =>
    {| _starts := _starts self; _stops := value; _content := _content self;
       _offsets := None; _counts := None; _parents := None;
       _isvalid := false |}).

Definition set_content (value : C) : M J unit :=
  modify (fun self =>
    {| _starts := _starts self; _stops := _stops self; _content := value;
       _offsets := _offsets self; _counts := _counts self;
       _parents := _parents self; _isvalid := false |}).

Definition set_offsets (value : list Z) : M J unit :=
  if negative_any value then raise ValueError
  else modify (fun self =>
    {| _starts := np.upto_last value; _stops := np.from1 value;
       _content := _content self;
       _offsets := Some value; _counts := None; _parents := None;
       _isvalid := false |}).

Definition set_counts (value : list Z) : M J unit :=
  if negative_any value then raise ValueError
  else
    let offsets := util.counts2offsets value in
    modify (fun self =>
      {| _starts := np.upto_last offsets; _stops := np.from1 offsets;
         _content := _content self;
         _offsets := Some offsets; _counts := Some value; _parents := None;
         _isvalid := false |}).

(** The setter of parents compares [len(value)] with [len(content)], and
    no name [content] is bound there (nor in the module): evaluating it
    raises NameError, and the assignments below it never run.  They leave
    [_isvalid] as it is. *)
Definition set_parents (value : list Z) : M J unit :=
  len_content <- raise (A := Z) NameError ;;
  if negb (np.len value =? len_content) then raise ValueError
  else
    let '(starts, stops) := parents2startsstops value in
    modify (fun self =>
      {| _starts := starts; _stops := stops; _content := _content self;
         _offsets := None; _counts := None; _parents := Some value;
         _isvalid := _isvalid self |}).

(** *** Validation *)

Definition _validstartsstops (starts stops : list Z) : result unit :=
  if (length stops <? length starts)%nat then Raise ValueError else Ok tt.

Definition mark_valid (self : J) : J :=
  {| _starts := _starts self; _stops := _stops self; _content := _content self;
     _offsets := _offsets self; _counts := _counts self;
     _parents := _parents self; _isvalid := true |}.

Definition _valid : M J unit :=
  self <- get ;;
  if _isvalid self then ret tt
  else
    lift (_validstartsstops (_starts self) (_stops self)) ;;
    modify mark_valid.

(** *** Cached representations *)

Definition cache_offsets (v : list Z) (self : J) : J :=
  {| _starts := _starts self; _stops := _stops self; _content := _content self;
     _offsets := Some v; _counts := _counts self;
     _parents := _parents self; _isvalid := _isvalid self |}.

Definition cache_counts (v : list Z) (self : J) : J :=
  {| _starts := _starts self; _stops := _stops self; _content := _content self;
     _offsets := _offsets self; _counts := Some v;
     _parents := _parents self; _isvalid := _isvalid self |}.

Definition cache_parents (v : list Z) (self : J) : J :=
  {| _starts := _starts self; _stops := _stops self; _content := _content self;
     _offsets := _offsets self; _counts := _counts self;
     _parents := Some v; _isvalid := _isvalid self |}.

(** The getters call [self._valid()], which a subclass overrides: the
    method in force is the argument [valid]. *)
Section Dispatch.
Variable valid : M J unit.

Definition offsets_by : M J (list Z) :=
  self <- get ;;
  match _offsets self with
  | Some v => ret v
  | None =>
      valid ;;
      self <- get ;;
      match offsetsaliased (_starts self) (_stops self) with
      | Some base => modify (cache_offsets base) ;; ret base
      | None =>
          if np.array_equal (np.from1 (_starts self)) (np.upto_last (_stops self))
          then
            final <- lift (np.item (_stops self) (-1)) ;;
            let v := _starts self ++ [final] in
            modify (cache_offsets v) ;; ret v
          else raise ValueError
      end
  end.

Definition counts_by : M J (list Z) :=
  self <- get ;;
  match _counts self with
  | Some v => ret v
  | None =>
      valid ;;
      self <- get ;;
      v <- lift (np.sub (_stops self) (_starts self)) ;;
      modify (cache_counts v) ;; ret v
  end.

Definition parents_by : M J (list Z) :=
  self <- get ;;
  match _parents self with
  | Some v => ret v
  | None =>
      valid ;;
      v <- try_except
             (offsets <- offsets_by ;; ret (util.offsets2parents offsets))
             ValueError
             (self <- get ;;
              ret (util.startsstops2parents (_starts self) (_stops self))) ;;
      modify (cache_parents v) ;; ret v
  end.
End Dispatch.

Definition offsets : M J (list Z) := offsets_by _valid.
Definition counts : M J (list Z) := counts_by _valid.
Definition parents : M J (list Z) := parents_by _valid.

(** *** Copy, length, iteration *)

Definition copy (self : J) (starts stops : option (list Z)) (content : option C)
  : result J :=
  let* out := match starts with
              | Some v => exec (set_starts v) self
              | None => Ok self
              end in
  let* out := match stops with
              | Some v => exec (set_stops v) out
              | None => Ok out
              end in
  match content with
  | Some v => exec (set_content v) out
  | None => Ok out
  end.

Definition __len__ : M J Z :=
  _valid ;;
  self <- get ;;
  ret (np.len (_starts self)).

(** [fromoffsets]. *)
Definition fromoffsets (offsets : list Z) (content : C) : result J :=
  if negative_any offsets then Raise ValueError
  else
    let* out := __init__ (np.upto_last offsets) (np.from1 offsets) content in
    Ok (cache_offsets offsets out).

(** [fromcounts]. *)
Definition fromcounts (counts : list Z) (content : C) : result J :=
  if negative_any counts then Raise ValueError
  else
    let offsets := util.counts2offsets counts in
    let* out := __init__ (np.upto_last offsets) (np.from1 offsets) content in
    Ok (cache_counts counts (cache_offsets offsets out)).

End Class.

(** ** Methods over numeric content *)

Section Numeric.
Variable offsetsaliased : list Z -> list Z -> option (list Z).

(** [numpy.empty] leaves the new array uninitialised: position [k] holds
    whatever [uninitialised k] is. *)
Variable uninitialised : nat -> Z.

Local Abbreviation J := (JaggedArray np.ndarray).
Local Abbreviation offsets := (offsets offsetsaliased).
Local Abbreviation parents := (parents_by offsetsaliased _valid).

Definition empty (n : Z) : list Z := map uninitialised (seq 0 (Z.to_nat n)).

Definition is_some {A} (o : option A) : bool :=
  match o with
  | Some _ => true
  | None => false
  end.

Definition nonnegative (a : list Z) : list bool := map (fun x => 0 <=? x) a.

(** [fromiter]: running offsets while the rows are flattened. *)
Definition fromiter (dt : np.dtype) (iterable : list (list Z)) : result J :=
  let '(offsets, content) :=
    fold_left (fun '(offsets, content) x =>
                 (offsets ++ [last offsets 0 + np.len x], content ++ x))
              iterable ([0], []) in
  fromoffsets offsets (np.array dt content).

(** The loop of [__iter__]: [for i, start in enumerate(starts)] yields
    [content[start:stops[i]]]. *)
Fixpoint yield_rows (content stops : list Z) (i : Z) (starts : list Z)
  : result (list (list Z)) :=
  match starts with
  | [] => Ok []
  | start :: rest =>
      let* stop := np.item stops i in
      let* more := yield_rows content stops (i + 1) rest in
      Ok (np.slice content start stop :: more)
  end.

(** [__iter__], run to its end: the list of the rows. *)
Definition __iter__ : M J (list (list Z)) :=
  _valid ;;
  self <- get ;;
  let stops := _stops self in
  let content := np.data (_content self) in
  lift (yield_rows content stops 0 (_starts self)).

(** [shape]: validation, then the shape of starts (here its length). *)
Definition shape : M J Z :=
  _valid ;;
  self <- get ;;
  ret (np.len (_starts self)).

(** [_broadcast(data)], [data] a scalar or a flat array of dtype [dt]. *)
Definition _broadcast (dt : np.dtype) (data : np.operand Z) : M J J :=
  p <- parents ;;
  let good := nonnegative p in
  p <- parents ;;
  let content := empty (np.len p) in
  content <-
    match data with
    | np.Scalar x => lift (np.setitem_mask content good (np.Scalar x))
    | np.Values d =>
        p <- parents ;;
        rows <- lift (np.compress p good) ;;
        vals <- lift (np.take d rows) ;;
        lift (np.setitem_mask content good (np.Values vals))
    end ;;
  self <- get ;;
  out <- lift (copy self None None (Some (np.array dt content))) ;;
  p <- parents ;;
  ret (cache_parents p out).

(** The body of the loop of [__array_ufunc__] over its flat operands, for
    one operand [data] of dtype [dt]: [jaggedarray] is the first jagged
    operand, whose starts and stops fix the common layout. *)
Definition ufunc_operand (jaggedarray : J) (dt : np.dtype) (data : np.operand Z)
  : M J J :=
  let starts := _starts jaggedarray in
  let stops := _stops jaggedarray in
  ' (p, jaggedarray) <- call jaggedarray parents ;;
  let good := nonnegative p in
  let content := empty (np.len p) in
  content <-
    match data with
    | np.Scalar x => lift (np.setitem_mask content good (np.Scalar x))
    | np.Values d =>
        if negb (np.len starts =? np.len d) then raise ValueError
        else
          rows <- lift (np.compress p good) ;;
          vals <- lift (np.take d rows) ;;
          lift (np.setitem_mask content good (np.Values vals))
    end ;;
  self <- get ;;
  lift (copy self (Some starts) (Some stops) (Some (np.array dt content))).

(** An index array handed to [_tojagged]: the very array the view holds
    in that position ([starts is self._starts]), or some other array. *)
Inductive target : Type :=
| Own
| Other (a : list Z).

Definition is_own (t : target) : bool :=
  match t with
  | Own => true
  | Other _ => false
  end.

Definition target_value (own : list Z) (t : target) : list Z :=
  match t with
  | Own => own
  | Other a => a
  end.

Definition with_data (content : list Z) (self : J) : J :=
  {| _starts := _starts self; _stops := _stops self;
     _content := np.array (np.dtype_of (_content self)) content;
     _offsets := _offsets self; _counts := _counts self;
     _parents := _parents self; _isvalid := _isvalid self |}.

Definition contiguous (starts stops : list Z) : bool :=
  is_some (offsetsaliased starts stops)
  || np.array_equal (np.from1 starts) (np.upto_last stops).

Definition increasing (starts : list Z) : result bool :=
  let* m := np.lt (np.upto_last starts) (np.from1 starts) in
  Ok (np.all m).

(** [_tojagged(starts, stops, copy)]. *)
Definition _tojagged (starts stops : option target) (copy_ : bool) : M J J :=
  self <- get ;;
  ' (starts, stops) <-
    match starts, stops with
    | None, None =>
        if copy_ then ret (Other (_starts self), Other (_stops self))
        else ret (Own, Own)
    | Some starts, None =>
        let sv := target_value (_starts self) starts in
        n <- __len__ ;;
        if negb (n =? np.len sv) then raise IndexError
        else
          c <- counts ;;
          tv <- lift (np.add sv c) ;;
          crossing <- lift (np.gt (np.upto_last tv) (np.from1 sv)) ;;
          if np.any crossing then raise IndexError
          else ret (starts, Other tv)
    | None, Some stops =>
        let tv := target_value (_stops self) stops in
        n <- __len__ ;;
        if negb (n =? np.len tv) then raise IndexError
        else
          c <- counts ;;
          sv <- lift (np.sub tv c) ;;
          crossing <- lift (np.gt (np.upto_last tv) (np.from1 sv)) ;;
          if np.any crossing then raise IndexError
          else ret (Other sv, stops)
    | Some starts, Some stops =>
        let sv := target_value (_starts self) starts in
        let tv := target_value (_stops self) stops in
        d <- lift (np.sub tv sv) ;;
        c <- counts ;;
        if negb (np.array_equal d c) then raise IndexError
        else ret (starts, stops)
    end ;;
  self <- get ;;
  let sv := target_value (_starts self) starts in
  let tv := target_value (_stops self) stops in
  lift (_validstartsstops sv tv) ;;
  if negb copy_ && is_own starts && is_own stops then ret self
  else if (is_own starts || np.array_equal sv (_starts self))
          && (is_own stops || np.array_equal tv (_stops self))
  then lift (copy self (Some sv) (Some tv) (Some (_content self)))
  else
    size <- lift (np.max tv) ;;
    out <- lift (copy self (Some sv) (Some tv)
                   (Some (np.array (np.dtype_of (_content self)) (np.zeros size)))) ;;
    self <- get ;;
    let mine := np.data (_content self) in
    content <-
      (if contiguous (_starts self) (_stops self) then
         first <- lift (np.item (_starts self) 0) ;;
         final <- lift (np.item (_stops self) (-1)) ;;
         ret (np.slice mine first (np.wrap64 (final + 1)))
       else
         inc <- lift (increasing (_starts self)) ;;
         if inc then
           p <- parents ;;
           q <- parents ;;
           places <- lift (np.compress p (nonnegative q)) ;;
           lift (np.take mine places)
         else
           p <- parents ;;
           q <- parents ;;
           places <- lift (np.compress (np.argsort p) (nonnegative q)) ;;
           lift (np.take mine places)) ;;
    let theirs := np.data (_content out) in
    if contiguous sv tv then
      first <- lift (np.item sv 0) ;;
      final <- lift (np.item tv (-1)) ;;
      filled <- lift (np.setitem_slice theirs first (np.wrap64 (final + 1))
                        (np.Values content)) ;;
      ret (with_data filled out)
    else
      inc <- lift (increasing sv) ;;
      if inc then
        ' (p, out) <- call out parents ;;
        ' (q, out) <- call out parents ;;
        places <- lift (np.compress p (nonnegative q)) ;;
        filled <- lift (np.setitem_take theirs places (np.Values content)) ;;
        ret (with_data filled out)
      else
        ' (p, out) <- call out parents ;;
        ' (q, out) <- call out parents ;;
        places <- lift (np.compress (np.argsort p) (nonnegative q)) ;;
        filled <- lift (np.setitem_take theirs places (np.Values content)) ;;
        ret (with_data filled out).

(** *** Reductions *)

Definition _canuseoffset : M J bool :=
  _valid ;;
  self <- get ;;
  ret (contiguous (_starts self) (_stops self)).

(** The contiguous path shared by sum, prod, min and max:
    [ufunc.reduceat(content[starts[0]:stops[-1]], offsets[:-1])], then
    the items of the empty rows overwritten with [identity]. *)
Definition reduce_offsets (f : Z -> Z -> Z) (identity : result Z) : M J (list Z) :=
  self <- get ;;
  first <- lift (np.item (_starts self) 0) ;;
  final <- lift (np.item (_stops self) (-1)) ;;
  o <- offsets ;;
  out <- lift (np.reduceat f (np.slice (np.data (_content self)) first final)
                 (np.upto_last o)) ;;
  v <- lift identity ;;
  o1 <- offsets ;;
  o2 <- offsets ;;
  isempty <- lift (np.eq (np.from1 o1) (np.upto_last o2)) ;;
  lift (np.setitem_mask out isempty (np.Scalar v)).

(** [sum].  On the general path the prefix sums are subtracted, and numpy
    has no subtraction for booleans: TypeError. *)
Definition sum : M J np.ndarray :=
  fast <- _canuseoffset ;;
  self <- get ;;
  if fast then
    let dt := np.reduce_dtype (np.dtype_of (_content self)) in
    out <- reduce_offsets (fun x y => np.wrap dt (x + y)) (Ok 0) ;;
    ret (np.array dt out)
  else
    let dt := np.dtype_of (_content self) in
    let contentsum :=
      0 :: np.accumulate (fun x y => np.wrap dt (x + y)) 0 (np.data (_content self)) in
    nonempty <- lift (np.ne (_starts self) (_stops self)) ;;
    n <- shape ;;
    let out := np.zeros n in
    self <- get ;;
    hi <- lift (np.compress (_stops self) nonempty) ;;
    above <- lift (np.take contentsum hi) ;;
    lo <- lift (np.compress (_starts self) nonempty) ;;
    below <- lift (np.take contentsum lo) ;;
    diff <- lift (if np.is_integer dt
                  then np.broadcast2 (fun x y => np.wrap dt (x - y)) above below
                  else Raise TypeError) ;;
    out <- lift (np.setitem_mask out nonempty (np.Values diff)) ;;
    ret (np.array dt out).

(** The loop of the general paths: row [i] of a non-empty range sets
    [flatout[i]] from its slice of the content. *)
Fixpoint each_row (step : Z -> list Z -> result Z) (content stops : list Z)
    (i : Z) (starts : list Z) (flatout : list Z) : result (list Z) :=
  match starts with
  | [] => Ok flatout
  | flatstart :: rest =>
      let* flatstop := np.item stops i in
      let* flatout :=
        if negb (flatstart =? flatstop) then
          let* old := np.item flatout i in
          let* new := step old (np.slice content flatstart flatstop) in
          np.setitem_take flatout [i] (np.Scalar new)
        else Ok flatout in
      each_row step content stops (i + 1) rest flatout
  end.

Definition prod : M J np.ndarray :=
  fast <- _canuseoffset ;;
  self <- get ;;
  if fast then
    let dt := np.reduce_dtype (np.dtype_of (_content self)) in
    out <- reduce_offsets (fun x y => np.wrap dt (x * y)) (Ok 1) ;;
    ret (np.array dt out)
  else
    let dt := np.dtype_of (_content self) in
    let wide := np.reduce_dtype dt in
    n <- shape ;;
    let out := np.ones n in
    self <- get ;;
    out <- lift (each_row
                   (fun old row =>
                      Ok (np.wrap dt (old * np.prod (fun x y => np.wrap wide (x * y)) row)))
                   (np.data (_content self)) (_stops self) 0 (_starts self) out) ;;
    ret (np.array dt out).

(** [_minmax_offset(ismin)]; the content is never floating here, so the
    identity comes from [numpy.iinfo]. *)
Definition _minmax_offset (ismin : bool) : M J np.ndarray :=
  self <- get ;;
  let dt := np.dtype_of (_content self) in
  out <- (if ismin then reduce_offsets Z.min (np.iinfo_max dt)
          else reduce_offsets Z.max (np.iinfo_min dt)) ;;
  ret (np.array dt out).

(** What a reduction returns: a flat array, or (for the arg-reductions) a
    jagged array of row-local positions. *)
Inductive reduced : Type :=
| Flat (a : np.ndarray)
| Jagged (j : J).

(** The rows of an arg-reduction: row [i] starts at [i] and holds one
    item when the source row is not empty. *)
Definition arg_layout (flatstarts flatstops : list Z) : result (list Z * list Z) :=
  let newstarts := np.arange (np.len flatstarts) in
  let newstops := newstarts in
  let* nonempty := np.ne flatstarts flatstops in
  let* picked := np.compress newstops nonempty in
  let* bumped := np.iadd picked [1] in
  let* newstops := np.setitem_mask newstops nonempty (np.Values bumped) in
  Ok (newstarts, newstops).

Definition _minmax_general (isarg ismin : bool) : M J reduced :=
  self <- get ;;
  let dt := np.dtype_of (_content self) in
  let n := np.len (_starts self) in
  out <-
    (if isarg then ret (empty n)
     else if np.is_integer dt then
       v <- lift (if ismin then np.iinfo_max dt else np.iinfo_min dt) ;;
       ret (np.full n v)
     else raise TypeError) ;;
  let optimum :=
    match isarg, ismin with
    | true, true => np.argmin
    | true, false => np.argmax
    | false, true => np.min
    | false, false => np.max
    end in
  flatout <- lift (each_row (fun _ row => optimum row)
                     (np.data (_content self)) (_stops self) 0 (_starts self) out) ;;
  if isarg then
    ' (newstarts, newstops) <- lift (arg_layout (_starts self) (_stops self)) ;;
    j <- lift (copy self (Some newstarts) (Some newstops)
                 (Some (np.array np.int64 flatout))) ;;
    ret (Jagged j)
  else ret (Flat (np.array dt flatout)).

Definition min : M J reduced :=
  fast <- _canuseoffset ;;
  if fast then (a <- _minmax_offset true ;; ret (Flat a))
  else _minmax_general false true.

Definition max : M J reduced :=
  fast <- _canuseoffset ;;
  if fast then (a <- _minmax_offset false ;; ret (Flat a))
  else _minmax_general false false.

(** [_argminmax(ismin)].  The shift [ceil(content.max()) + 1] is a float
    stored into an int64 array, and the shifted content is compared in
    int64 (numpy would promote uint64 content to floating point, which is
    not represented).  The definition is the code where float64 is exact
    (a maximum below 2^53 in magnitude) and where the order of the sort
    does not depend on how ties are broken: [argsort()] is called with
    numpy's default kind, which is not stable, and [np.argsort] here is. *)
Definition _argminmax (ismin : bool) : M J J :=
  _valid ;;
  self <- get ;;
  let flatstarts := _starts self in
  let flatstops := _stops self in
  let content := np.data (_content self) in
  let shift := np.zeros (np.len content) in
  top <- lift (np.max content) ;;
  shift <- lift (np.setitem_take shift flatstarts (np.Scalar (np.wrap64 (top + 1)))) ;;
  let shift := np.cumsum shift in
  shifted <- lift (np.add content shift) ;;
  let sortedindex := np.argsort shifted in
  flatout <-
    (if ismin then
       at_start <- lift (np.take sortedindex flatstarts) ;;
       lift (np.sub at_start flatstarts)
     else
       before_stop <- lift (np.sub flatstops [1]) ;;
       at_stop <- lift (np.take sortedindex before_stop) ;;
       lift (np.sub at_stop flatstarts)) ;;
  ' (newstarts, newstops) <- lift (arg_layout flatstarts flatstops) ;;
  lift (copy self (Some newstarts) (Some newstops) (Some (np.array np.int64 flatout))).

Definition argmin : M J J := _argminmax true.
Definition argmax : M J J := _argminmax false.

(** *** Jagged indexing: [self[head]] for a jagged [head] *)

(** The branch of [__getitem__] taken when the head of the key is a
    JaggedArray.  The in-place addition of the int64 counts to the
    indexes is a casting error of numpy unless the indexes are int64. *)
Definition __getitem__ (head : J) : M J J :=
  _valid ;;
  if np.is_integer (np.dtype_of (_content head)) then
    ' (hshape, head) <- call head shape ;;
    self <- get ;;
    if negb (hshape =? np.len (_starts self)) then raise ValueError
    else
      ' (hcounts, head) <- call head counts ;;
      let headoffsets := util.counts2offsets hcounts in
      ' (head, _) <- call head (_tojagged (Some (Other (np.upto_last headoffsets)))
                                           (Some (Other (np.from1 headoffsets))) false) ;;
      mycounts <- counts ;;
      ' (bc, head) <- call head (_broadcast np.int64 (np.Values mycounts)) ;;
      let counts := np.data (_content bc) in
      let indexes := np.data (_content head) in
      let negatives := map (fun x => x <? 0) indexes in
      lhs <- lift (np.compress indexes negatives) ;;
      rhs <- lift (np.compress counts negatives) ;;
      shifted <-
        (if np.dtype_eqb (np.dtype_of (_content head)) np.int64
         then lift (np.iadd lhs rhs) else raise TypeError) ;;
      indexes <- lift (np.setitem_mask indexes negatives (np.Values shifted)) ;;
      inside <- lift (np.broadcast2 (fun i c => (0 <=? i) && (i <? c)) indexes counts) ;;
      if negb (np.all inside) then raise IndexError
      else
        self <- get ;;
        ' (bs, head) <- call head (_broadcast np.int64 (np.Values (_starts self))) ;;
        indexes <- lift (np.iadd indexes (np.data (_content bs))) ;;
        self <- get ;;
        picked <- lift (np.take (np.data (_content self)) indexes) ;;
        lift (copy self (Some (_starts head)) (Some (_stops head))
                (Some (np.array (np.dtype_of (_content self)) picked)))
  else
    ' (hshape, head) <- call head shape ;;
    if np.dtype_eqb (np.dtype_of (_content head)) np.bool_ then
      thyself <-
        try_except
          (offsets ;; get)
          ValueError
          (mycounts <- counts ;;
           let offsets := util.counts2offsets mycounts in
           _tojagged (Some (Other (np.upto_last offsets)))
                     (Some (Other (np.from1 offsets))) false) ;;
      ' (head, _) <- call head (_tojagged (Some (Other (_starts thyself)))
                                           (Some (Other (_stops thyself))) false) ;;
      inthead <- lift (copy head None None
                         (Some (np.array np.uint8 (np.data (_content head))))) ;;
      ' (intheadsum, _) <- call inthead sum ;;
      let offsets := util.counts2offsets (np.data intheadsum) in
      kept <- lift (np.compress (np.data (_content thyself))
                      (map (fun x => negb (x =? 0)) (np.data (_content head)))) ;;
      self <- get ;;
      lift (copy self (Some (np.upto_last offsets)) (Some (np.from1 offsets))
              (Some (np.array (np.dtype_of (_content self)) kept)))
    else raise NotImplementedError.

End Numeric.

(** ** [argcross] *)

(** What [awkward.array.table.Table(length, left, right)] holds: the length
    and the two positional columns. *)
Record Table : Type := Build_Table {
  _length : Z;
  left_column : list Z;
  right_column : list Z
}.

Section Cross.
Context {C D : Type}.
Variable uninitialised : nat -> Z.

(** [self.argcross(other)], [other] a JaggedArray: the new array, and
    [other] with the caches the call filled in. *)
Definition argcross (other : JaggedArray D)
  : M (JaggedArray C) (JaggedArray Table * JaggedArray D) :=
  _valid ;;
  n <- __len__ ;;
  ' (m, other) <- call other __len__ ;;
  if negb (n =? m) then raise ValueError
  else
    mine <- counts ;;
    ' (theirs, other) <- call other counts ;;
    sizes <- lift (np.mul mine theirs) ;;
    let offsets := util.counts2offsets sizes in
    total <- lift (np.item offsets (-1)) ;;
    let indexes := np.arange total in
    let parents := util.offsets2parents offsets in
    let left := empty uninitialised (np.len indexes) in
    let right := empty uninitialised (np.len indexes) in
    self <- get ;;
    row <- lift (np.take parents indexes) ;;
    row_start <- lift (np.take (_starts self) row) ;;
    row_offset <- lift (np.take offsets row) ;;
    local <- lift (np.sub indexes row_offset) ;;
    ' (theirs, other) <- call other counts ;;
    width <- lift (np.take theirs row) ;;
    quotient <- lift (np.floordiv local width) ;;
    lvalues <- lift (np.add row_start quotient) ;;
    left <- lift (np.setitem_take left indexes (np.Values lvalues)) ;;
    other_start <- lift (np.take (_starts other) row) ;;
    along <- lift (np.add other_start local) ;;
    whole <- lift (np.mul width quotient) ;;
    rvalues <- lift (np.sub along whole) ;;
    right <- lift (np.setitem_take right indexes (np.Values rvalues)) ;;
    out <- lift (fromoffsets offsets
                   {| _length := total; left_column := left; right_column := right |}) ;;
    ret (cache_parents parents out, other).

End Cross.

(** ** The class [ByteJaggedArray] *)

(** A ByteJaggedArray is a JaggedArray over bytes with one more attribute,
    the dtype of the items; of that dtype only the item size is used. *)
Record ByteJaggedArray : Type := Build_ByteJaggedArray {
  jagged : JaggedArray np.ndarray;
  _subdtype_itemsize : Z
}.

Section Bytes.

(** A method inherited from JaggedArray, run on a ByteJaggedArray. *)
Definition inherited {A} (m : M (JaggedArray np.ndarray) A) : M ByteJaggedArray A :=
  fun self =>
    let '(r, j) := m (jagged self) in
    (r, {| jagged := j; _subdtype_itemsize := _subdtype_itemsize self |}).

(** [_divitemsize(x)] on an int64 array. *)
Definition _divitemsize (itemsize : Z) (x : list Z) : list Z :=
  if itemsize =? 1 then x
  else if itemsize =? 2 then map (fun v => Z.shiftr v 1) x
  else if itemsize =? 4 then map (fun v => Z.shiftr v 2) x
  else if itemsize =? 8 then map (fun v => Z.shiftr v 3) x
  else map (fun v => np.wrap64 (v / itemsize)) x.

(** [ByteJaggedArray._valid].  The inherited getter of counts calls
    [self._valid()] again, which is this method: the recursion is cut by
    [depth], and a call that exhausts it is Python's RecursionError. *)
Fixpoint valid_at (depth : nat) (itemsize : Z) : M (JaggedArray np.ndarray) unit :=
  match depth with
  | O => raise RecursionError
  | S depth' =>
      self <- get ;;
      if _isvalid self then ret tt
      else
        _valid ;;
        c <- counts_by (valid_at depth' itemsize) ;;
        let scaled := map (fun v => np.wrap64 (v * itemsize)) (_divitemsize itemsize c) in
        c' <- counts_by (valid_at depth' itemsize) ;;
        differs <- lift (np.ne scaled c') ;;
        if negb (np.all differs) then raise ValueError
        else modify mark_valid
  end.

Definition recursion_limit : nat := 1000.

Definition Byte_valid : M ByteJaggedArray unit :=
  self <- get ;;
  inherited (valid_at recursion_limit (_subdtype_itemsize self)).

End Bytes.

(** *** Construction *)

(** [numpy.subdtype(value)].  numpy has no attribute [subdtype]
    ([issubdtype] is the nearest name): evaluating the expression raises
    AttributeError, whatever the value. *)
Definition numpy_subdtype (value : Z) : result Z := Raise AttributeError.

(** The setter of [subdtype], on the attributes the object has so far. *)
Definition set_subdtype (value : Z) (j : JaggedArray np.ndarray) : result ByteJaggedArray :=
  let* d := numpy_subdtype value in
  Ok {| jagged := {| _starts := _starts j; _stops := _stops j; _content := _content j;
                     _offsets := _offsets j; _counts := _counts j;
                     _parents := _parents j; _isvalid := false |};
        _subdtype_itemsize := d |}.

(** [ByteJaggedArray.__init__]: the constructor of JaggedArray, then the
    setter of [subdtype].  The content is given as its bytes, and a dtype
    by its item size. *)
Definition Byte__init__ (starts stops content : list Z) (subdtype : Z)
  : result ByteJaggedArray :=
  let* j := __init__ starts stops (np.array np.uint8 content) in
  set_subdtype subdtype j.

Section FromRows.

(** The buffer of an array of the given item size as bytes; it depends on
    the byte order of the machine. *)
Variable tobytes : Z -> list Z -> list Z.

(** [ByteJaggedArray.fromiter], for rows of items of one item size. *)
Definition Byte_fromiter (itemsize : Z) (iterable : list (list Z)) : result ByteJaggedArray :=
  let '(offsets, content) :=
    fold_left (fun '(offsets, content) x =>
                 (offsets ++ [last offsets 0 + np.len x], content ++ x))
              iterable ([0], []) in
  let offsets := map (fun o => np.wrap64 (o * itemsize)) offsets in
  Byte__init__ (np.upto_last offsets) (np.from1 offsets) (tobytes itemsize content) itemsize.

End FromRows.

(** [fromoffsets] and [fromcounts] of ByteJaggedArray (and [fromparents]
    and [fromuniques] alike) are class methods that begin with
    [super(ByteJaggedArray, self)]: a class method binds [cls], and no name
    [self] is bound there, so evaluating it raises NameError and the lines
    below never run ([numpy.array([])] in them stands with an integer
    dtype, floating point not being represented). *)
Definition Byte_fromoffsets (offsets content : list Z) (subdtype : Z)
  : result ByteJaggedArray :=
  let* self := Raise (A := unit) NameError in
  let* tmp := fromoffsets offsets (np.array np.int64 []) in
  Byte__init__ (_starts tmp) (_stops tmp) content subdtype.

Definition Byte_fromcounts (counts content : list Z) (subdtype : Z)
  : result ByteJaggedArray :=
  let* self := Raise (A := unit) NameError in
  let* tmp := fromcounts counts (np.array np.int64 []) in
  Byte__init__ (_starts tmp) (_stops tmp) content subdtype.

(** ** Indexing by an integer, a slice or an array *)

Section Keys.
Local Abbreviation J := (JaggedArray np.ndarray).

(** A key that selects several items of an array: a slice [start:stop]
    (either bound may be left out), an array of integers, or a boolean
    mask.  The integers of a key are int64. *)
Inductive rows_key : Type :=
| Slice (start stop : option Z)
| Indexes (idx : list Z)
| Mask (mask : list bool).

(** One component of the key of [__getitem__]. *)
Inductive key : Type :=
| Index (i : Z)
| Select (k : rows_key).

(** What indexing returns: a jagged array, a flat array or one item. *)
Inductive selection : Type :=
| Rows (j : J)
| Items (a : np.ndarray)
| Item (x : Z).

(** [a[k]] for a one-dimensional array [a]. *)
Definition pick {A} (a : list A) (k : rows_key) : result (list A) :=
  match k with
  | Slice start stop =>
      Ok (np.slice a (match start with Some i => i | None => 0 end)
                     (match stop with Some i => i | None => np.len a end))
  | Indexes idx => np.take a idx
  | Mask mask => np.compress a mask
  end.

(** [a[tail]] for a one-dimensional array [a] and a tuple [tail]: more
    than one component is one index too many. *)
Definition array_getitem (a : np.ndarray) (tail : list key) : result selection :=
  match tail with
  | [] => Ok (Items a)
  | [Index j] => let* x := np.item (np.data a) j in Ok (Item x)
  | [Select k] => let* l := pick (np.data a) k in Ok (Items (np.array (np.dtype_of a) l))
  | _ => Raise IndexError
  end.

(** The loop of [__getitem__] over the tail of the key, and the final
    [node[tail]].  An integer takes one item of every row and leaves a flat
    array, which ends the loop.  The branch of any other component formats
    its message with [original_head], a name that only the integer branch
    binds: the lookup fails with UnboundLocalError, a NameError. *)
Definition getitem_tail (node : J) (tail : list key) : result selection :=
  match tail with
  | [] => let* node := exec _valid node in Ok (Rows node)
  | Index head :: tail =>
      let* counts := np.sub (_stops node) (_starts node) in
      let* head := if head <? 0 then np.add counts [head] else Ok [head] in
      let* inside := np.broadcast2 (fun h c => (0 <=? h) && (h <? c)) head counts in
      if negb (np.all inside) then Raise IndexError
      else
        let* places := np.add (_starts node) head in
        let* items := np.take (np.data (_content node)) places in
        array_getitem (np.array (np.dtype_of (_content node)) items) tail
  | Select _ :: _ => Raise NameError
  end.

(** [self[head, *tail]] for a [head] that is not a JaggedArray. *)
Definition getitem (head : key) (tail : list key) : M J selection :=
  _valid ;;
  self <- get ;;
  match head with
  | Index i =>
      start <- lift (np.item (_starts self) i) ;;
      stop <- lift (np.item (_stops self) i) ;;
      let content := _content self in
      lift (array_getitem
              (np.array (np.dtype_of content) (np.slice (np.data content) start stop))
              tail)
  | Select k =>
      starts <- lift (pick (_starts self) k) ;;
      stops <- lift (pick (_stops self) k) ;;
      node <- lift (copy self (Some starts) (Some stops) None) ;;
      lift (getitem_tail node tail)
  end.

End Keys.

(** ** [flatten] *)

Section Flatten.
Variable offsetsaliased : list Z -> list Z -> option (list Z).

Local Abbreviation J := (JaggedArray np.ndarray).

(** [flatten]. *)
Definition flatten : M J np.ndarray :=
  fast <- _canuseoffset offsetsaliased ;;
  self <- get ;;
  if fast then
    first <- lift (np.item (_starts self) 0) ;;
    final <- lift (np.item (_stops self) (-1)) ;;
    ret (np.array (np.dtype_of (_content self))
           (np.slice (np.data (_content self)) first final))
  else
    c <- counts ;;
    let offsets := util.counts2offsets c in
    out <- _tojagged offsetsaliased (Some (Other (np.upto_last offsets)))
             (Some (Other (np.from1 offsets))) false ;;
    ret (_content out).

End Flatten.

(** ** [aligned] *)

Section Aligned.
Context {C : Type}.

Local Abbreviation J := (JaggedArray C).

(** One side of the comparison of [aligned]: [first._starts] against the
    starts of the next array (or stops against stops), skipped when the two
    are one object.  [relevant] and [mine] are the local variables that
    hold the rows to compare and the items of the first array on them; they
    are computed when first needed. *)
Definition aligned_side (select : J -> list Z) (theirs : target)
    (relevant : option (list bool)) (mine : option (list Z))
  : M J (bool * option (list bool) * option (list Z)) :=
  match theirs with
  | Own => ret (true, relevant, mine)
  | Other theirs =>
      relevant <- match relevant with
                  | Some r => ret r
                  | None => c <- counts ;; lift (np.ne c [0])
                  end ;;
      first <- get ;;
      mine <- match mine with
              | Some v => ret v
              | None => lift (np.compress (select first) relevant)
              end ;;
      picked <- lift (np.compress theirs relevant) ;;
      ret (np.array_equal mine picked, Some relevant, Some mine)
  end.

(** The loop of [aligned] over the arrays after the first, each given by
    its starts and stops. *)
Fixpoint aligned_loop (rest : list (target * target))
    (relevant : option (list bool)) (relevantstarts relevantstops : option (list Z))
  : M J bool :=
  match rest with
  | [] => ret true
  | (starts, stops) :: rest =>
      ' (same, relevant, relevantstarts) <-
        aligned_side _starts starts relevant relevantstarts ;;
      if negb same then ret false
      else
        ' (same, relevant, relevantstops) <-
          aligned_side _stops stops relevant relevantstops ;;
        if negb same then ret false
        else aligned_loop rest relevant relevantstarts relevantstops
  end.

(** [JaggedArray.aligned(first, *rest)], as a method of [first]. *)
Definition aligned (rest : list (target * target)) : M J bool :=
  aligned_loop rest None None None.

End Aligned.

(** ** [cross] *)

Section CrossValues.
Variable uninitialised : nat -> Z.

Local Abbreviation J := (JaggedArray np.ndarray).

(** [self.cross(other)]: the pairs of [argcross], with the items of the
    two contents in place of their positions.  Of the columns of the new
    table only the items are kept.  [argcross] always leaves the offsets it
    built in [_offsets]. *)
Definition cross (other : J) : M J (JaggedArray Table) :=
  ' (argcross, other) <- argcross uninitialised other ;;
  let left := left_column (_content argcross) in
  let right := right_column (_content argcross) in
  self <- get ;;
  lvalues <- lift (np.take (np.data (_content self)) left) ;;
  rvalues <- lift (np.take (np.data (_content other)) right) ;;
  match _offsets argcross with
  | None => raise TypeError
  | Some offsets =>
      out <- lift (fromoffsets offsets
                     {| _length := _length (_content argcross);
                        left_column := lvalues; right_column := rvalues |}) ;;
      ret {| _starts := _starts out; _stops := _stops out; _content := _content out;
             _offsets := _offsets out; _counts := _counts out;
             _parents := _parents argcross; _isvalid := _isvalid out |}
  end.

End CrossValues.

(** ** [__array_ufunc__] *)

(** An operand that is not a jagged array: a number, or a
    one-dimensional numpy array. *)
Inductive plain : Type :=
| Number (x : Z)
| Ndarray (a : np.ndarray).

(** An operand after the first jagged one, which is [self] (numpy calls
    [__array_ufunc__] on the first operand that defines it): a plain one,
    [self] once more, or another jagged array. *)
Inductive operand_after : Type :=
| Plain (p : plain)
| Itself
| Another (j : JaggedArray np.ndarray).

(** An operand after the first loop, and after the third: plain or
    jagged, then a number or jagged. *)
Inductive relaid : Type :=
| StillPlain (p : plain)
| Laid (j : JaggedArray np.ndarray).

Inductive lifted : Type :=
| AsNumber (x : Z)
| AsJagged (j : JaggedArray np.ndarray).

Section Ufunc.
Variable offsetsaliased : list Z -> list Z -> option (list Z).
Variable uninitialised : nat -> Z.

(** The numpy ufunc, called on flat operands; it returns one array (a
    ufunc that returns a tuple, and the methods other than [__call__], are
    not represented). *)
Variable ufunc : list (np.operand Z) -> result np.ndarray.

Local Abbreviation J := (JaggedArray np.ndarray).

(** [for x in inputs], collecting the results. *)
Fixpoint for_each {A B} (f : A -> M J B) (inputs : list A) : M J (list B) :=
  match inputs with
  | [] => ret []
  | x :: rest =>
      y <- f x ;;
      ys <- for_each f rest ;;
      ret (y :: ys)
  end.

(** The first loop on an operand after the first jagged one: a jagged
    operand is laid out on the starts and stops of the first. *)
Definition relayout (starts stops : list Z) (x : operand_after) : M J relaid :=
  match x with
  | Plain p => ret (StillPlain p)
  | Itself =>
      j <- _tojagged offsetsaliased (Some Own) (Some Own) false ;;
      ret (Laid j)
  | Another j =>
      ' (j, _) <- call j (_tojagged offsetsaliased (Some (Other starts))
                                     (Some (Other stops)) false) ;;
      ret (Laid j)
  end.

Definition is_ndarray (p : plain) : bool :=
  match p with
  | Number _ => false
  | Ndarray _ => true
  end.

Definition is_plain_ndarray (x : relaid) : bool :=
  match x with
  | StillPlain p => is_ndarray p
  | Laid _ => false
  end.

(** The third loop on one operand: a numpy array is broadcast to a jagged
    array over the layout of the first jagged operand. *)
Definition lift_plain (p : plain) : M J lifted :=
  match p with
  | Number x => ret (AsNumber x)
  | Ndarray a =>
      jaggedarray <- get ;;
      j <- ufunc_operand offsetsaliased uninitialised jaggedarray
             (np.dtype_of a) (np.Values (np.data a)) ;;
      ret (AsJagged j)
  end.

Definition lift_after (x : relaid) : M J lifted :=
  match x with
  | StillPlain p => lift_plain p
  | Laid j => ret (AsJagged j)
  end.

(** The fourth loop on one operand: of a jagged array the content is
    passed on, restricted to the positions that some row owns when [good]
    was computed. *)
Definition flat_operand (good : option (list bool)) (x : lifted)
  : M J (np.operand Z) :=
  match x with
  | AsNumber x => ret (np.Scalar x)
  | AsJagged j =>
      match good with
      | None => ret (np.Values (np.data (_content j)))
      | Some good =>
          kept <- lift (np.compress (np.data (_content j)) good) ;;
          ret (np.Values kept)
      end
  end.

(** [self.__array_ufunc__(ufunc, "__call__", *before, self, *after)].  The
    parents of the first jagged operand are asked for when the third loop
    meets a numpy array, and only then. *)
Definition __array_ufunc__ (before : list plain) (after : list operand_after) : M J J :=
  _valid ;;
  first <- _tojagged offsetsaliased None None false ;;
  let starts := _starts first in
  let stops := _stops first in
  after <- for_each (relayout starts stops) after ;;
  good <-
    (if existsb is_ndarray before || existsb is_plain_ndarray after then
       p <- parents_by offsetsaliased _valid ;;
       ret (Some (nonnegative p))
     else ret None) ;;
  before <- for_each lift_plain before ;;
  jaggedarray <- get ;;
  after <- for_each lift_after after ;;
  inputs <- for_each (flat_operand good) (before ++ AsJagged jaggedarray :: after) ;;
  result <- lift (ufunc inputs) ;;
  self <- get ;;
  lift (copy self (Some starts) (Some stops) (Some result)).

End Ufunc.

(** ** The type descriptions of [awkward.type] *)

Module awkward_type.
Import String.

(** What [ArrayType.takes] may hold: [numpy.inf] or an integer. *)
Inductive count : Type :=
| Inf
| Count (n : Z).

(** A type description: a numpy dtype (by its name), or an instance of
    one of the three subclasses of [Type].  Descriptions are compared by
    value; the identity of the Python objects, which only the printing
    methods look at, is not represented. *)
#[warnings="-register-all"]
Inductive Type_ : Type :=
| Dtype (name : string)
| ArrayType (takes : count) (to : Type_)
| TableType (fields : list (string * Type_))
| UnionType (possibilities : list Type_).

(** An argument given where a count, a field name or a type is expected. *)
Inductive value : Type :=
| VNone
| VInf
| VInt (n : Z)
| VStr (s : string)
| VDtype (name : string)
| VType (t : Type_).

(** [self | other].  A numpy dtype on the left has no [|] with a Type, and
    Type defines no reflected one: TypeError. *)
Definition __or__ (self other : Type_) : result Type_ :=
  match self with
  | Dtype _ => Raise TypeError
  | _ =>
      Ok (UnionType
            match self, other with
            | UnionType p, UnionType q => p ++ q
            | UnionType p, _ => p ++ [other]
            | _, UnionType q => self :: q
            | _, _ => [self; other]
            end)
  end.

(** The setter of [ArrayType.takes]. *)
Definition set_takes (v : value) : result count :=
  match v with
  | VInf => Ok Inf
  | VInt n => if 0 <=? n then Ok (Count n) else Raise ValueError
  | _ => Raise ValueError
  end.

Section Dtypes.

(** The dtype that numpy knows under a name, if any. *)
Variable dtype_named : string -> option string.

(** [numpy.dtype(v)]: a dtype is itself, [None] is float64, a string has
    to name a dtype, and a number or a Type is refused. *)
Definition numpy_dtype (v : value) : result string :=
  match v with
  | VDtype name => Ok name
  | VNone => Ok "float64"%string
  | VStr s =>
      match dtype_named s with
      | Some name => Ok name
      | None => Raise TypeError
      end
  | VInf | VInt _ | VType _ => Raise TypeError
  end.

(** The setter of [ArrayType.to], which is also what
    [TableType.__setitem__] does with its value. *)
Definition set_to (v : value) : result Type_ :=
  match v with
  | VType t => Ok t
  | _ =>
      let* name := numpy_dtype v in
      Ok (Dtype name)
  end.

(** The constructor of [ArrayType] on its positional arguments. *)
Fixpoint __init__ (args : list value) : result Type_ :=
  match args with
  | [] => Raise ValueError
  | first :: rest =>
      match rest with
      | [] =>
          let* takes := set_takes VNone in
          let* name := numpy_dtype first in
          let* to := set_to (VDtype name) in
          Ok (ArrayType takes to)
      | second :: more =>
          let inner :=
            match more with
            | [] => set_to second
            | _ :: _ => __init__ rest
            end in
          match first with
          | VStr name =>
              let* to := inner in
              Ok (TableType [(name, to)])
          | _ =>
              let* takes := set_takes first in
              let* to := inner in
              Ok (ArrayType takes to)
          end
      end
  end.

End Dtypes.

(** An OrderedDict of fields: [d[key]] and [d[key] = v]; a new key goes
    to the end, a known one keeps its place. *)
Fixpoint getitem (fields : list (string * Type_)) (key : string) : option Type_ :=
  match fields with
  | [] => None
  | (k, v) :: rest => if String.eqb key k then Some v else getitem rest key
  end.

Fixpoint setitem (fields : list (string * Type_)) (key : string) (v : Type_)
  : list (string * Type_) :=
  match fields with
  | [] => [(key, v)]
  | (k, x) :: rest =>
      if String.eqb key k then (k, v) :: rest else (k, x) :: setitem rest key v
  end.

Definition OrderedDict (items : list (string * Type_)) : list (string * Type_) :=
  fold_left (fun d kv => setitem d (fst kv) (snd kv)) items [].

(** [self & other] on the fields of two TableTypes. *)
Definition __and__ (self other : list (string * Type_)) : list (string * Type_) :=
  OrderedDict (self ++ other).

End awkward_type.

(** ** Statements *)

(** The rows of a view as the data model has them:
    [content[starts[i]:stops[i]]] for every [i] below [len(starts)]. *)
Definition rows_of (self : JaggedArray np.ndarray) : list (list Z) :=
  map (fun p => np.slice (np.data (_content self)) (fst p) (snd p))
      (combine (_starts self) (_stops self)).

(** A view as the setters leave it: no negative start or stop, as many
    stops as starts, and a counts cache that, when filled, is
    [stops - starts]. *)
Definition well_formed {C} (self : JaggedArray C) : Prop :=
  negative_any (_starts self) = false
  /\ negative_any (_stops self) = false
  /\ length (_starts self) = length (_stops self)
  /\ (forall c, _counts self = Some c -> np.sub (_stops self) (_starts self) = Ok c).

(** Two views with the same starts, stops and content. *)
Definition same_layout {C} (a b : JaggedArray C) : Prop :=
  _starts a = _starts b /\ _stops a = _stops b /\ _content a = _content b.

(** The three cached representations. *)
Inductive cache : Type := Offsets | Counts | Parents.

Definition cached {C} (c : cache) (self : JaggedArray C) : option (list Z) :=
  match c with
  | Offsets => _offsets self
  | Counts => _counts self
  | Parents => _parents self
  end.

(** The assignment [m] goes through and leaves [self] in a state where
    [P] holds. *)
Definition assigned {C} (m : M (JaggedArray C) unit) (self : JaggedArray C)
    (P : JaggedArray C -> Prop) : Prop :=
  exists self', exec m self = Ok self' /\ P self'.

(** After the assignment [m] the validity flag is cleared and every cache
    outside [supplied] is invalidated. *)
Definition invalidates {C} (m : M (JaggedArray C) unit) (supplied : list cache)
    (self : JaggedArray C) : Prop :=
  assigned m self (fun self' =>
    _isvalid self' = false
    /\ forall c, ~ In c supplied -> cached c self' = None).

(** What the parameter [offsetsaliased] may answer: a base array of which
    starts and stops are the views [base[:-1]] and [base[1:]]. *)
Definition aliasing (offsetsaliased : list Z -> list Z -> option (list Z)) : Prop :=
  forall starts stops base,
    offsetsaliased starts stops = Some base ->
    starts = np.upto_last base /\ stops = np.from1 base /\ base <> [].

(** A method applied to a freshly built object, and the rows of a freshly
    built view. *)
Definition on {S A} (r : result S) (m : M S A) : result A :=
  let* s := r in value_of m s.

Definition tolist (r : result (JaggedArray np.ndarray)) : result (list (list Z)) :=
  on r __iter__.

(** [view[head]] for a freshly built view and a freshly built jagged
    index, as rows. *)
Definition index_rows oa garbage (view head : result (JaggedArray np.ndarray))
  : result (list (list Z)) :=
  let* v := view in
  let* h := head in
  let* out := value_of (__getitem__ oa garbage h) v in
  value_of __iter__ out.

(** The attributes of a ByteJaggedArray over [n] bytes, not yet
    validated.  No constructor returns such an object ([Byte__init__]
    raises for every argument): the record stands for attributes assigned
    one by one to an object allocated without the constructor, and serves
    only to run [Byte_valid]. *)
Definition byte_view (starts stops : list Z) (n : nat) (itemsize : Z) : ByteJaggedArray :=
  {| jagged := {| _starts := starts; _stops := stops;
                  _content := np.array np.uint8 (repeat 0 n);
                  _offsets := None; _counts := None; _parents := None;
                  _isvalid := false |};
     _subdtype_itemsize := itemsize |}.

(** The pairs of positions of two ranges, in row-major order: the
    position in the first range varies slowest. *)
Definition cross_pairs (start1 count1 start2 count2 : Z) : list (Z * Z) :=
  flat_map (fun a => map (fun b => (start1 + a, start2 + b)) (np.arange count2))
           (np.arange count1).

(** The rows of a jagged array of pairs. *)
Definition table_rows (out : JaggedArray Table) : list (list (Z * Z)) :=
  map (fun p => combine (np.slice (left_column (_content out)) (fst p) (snd p))
                        (np.slice (right_column (_content out)) (fst p) (snd p)))
      (combine (_starts out) (_stops out)).

(** Every row is a range [start <= stop] of non-negative int64 bounds. *)
Definition ranges {C} (self : JaggedArray C) : Prop :=
  Forall2 (fun s t => 0 <= s <= t /\ t < 2 ^ 63) (_starts self) (_stops self).

Definition spans (starts stops : list Z) : list Z :=
  map (fun p => snd p - fst p) (combine starts stops).

Definition total (l : list Z) : Z := fold_right Z.add 0 l.

(** The number of pairs of each row of [self.argcross(other)]. *)
Definition pair_counts {C D} (self : JaggedArray C) (other : JaggedArray D) : list Z :=
  map (fun p => fst p * snd p)
      (combine (spans (_starts self) (_stops self))
               (spans (_starts other) (_stops other))).

(** The rows [self.argcross(other)] is to have: for each row number, the
    pairs of the positions of the two rows. *)
Definition row_pairs {C D} (self : JaggedArray C) (other : JaggedArray D)
  : list (list (Z * Z)) :=
  map (fun q => cross_pairs (fst (fst q)) (snd (fst q) - fst (fst q))
                            (fst (snd q)) (snd (snd q) - fst (snd q)))
      (combine (combine (_starts self) (_stops self))
               (combine (_starts other) (_stops other))).

(** Auxiliary functions of the proofs: the starts of consecutive rows of
    the given sizes from [base] on, the row number of every position, and
    every position paired with its row number. *)
Fixpoint starts_from (base : Z) (sizes : list Z) : list Z :=
  match sizes with
  | [] => []
  | z :: rest => base :: starts_from (base + z) rest
  end.

Fixpoint blocks (i : Z) (sizes : list Z) : list Z :=
  match sizes with
  | [] => []
  | z :: rest => repeat i (Z.to_nat z) ++ blocks (i + 1) rest
  end.

Fixpoint positions (base i : Z) (sizes : list Z) : list (Z * Z) :=
  match sizes with
  | [] => []
  | z :: rest =>
      map (fun j => (base + j, i)) (np.arange z) ++ positions (base + z) (i + 1) rest
  end.

(** A view after [_valid] went through. *)
Definition validated {C} (self : JaggedArray C) : JaggedArray C :=
  if _isvalid self then self else mark_valid self.

(** What [_broadcast] is to leave in the content, given the parents [p] of
    the view and the flat value [d]: item [p[j]] of [d] at a position [j]
    owned by a row, and what [numpy.empty] left at a position owned by
    none. *)
Definition broadcast_content (garbage : nat -> Z) (p d : list Z) : list Z :=
  map (fun q => if 0 <=? fst q then nth (Z.to_nat (fst q)) d 0 else snd q)
      (combine p (empty garbage (np.len p))).

(** The item of a row that the integer [j] names: a negative [j] counts
    from the end of the row. *)
Definition row_item (j : Z) (row : list Z) : Z :=
  nth (Z.to_nat (if j <? 0 then j + np.len row else j)) row 0.

(** Whether row [row] has an item that the integer [j] names. *)
Definition in_row (j : Z) (row : list Z) : bool :=
  (- np.len row <=? j) && (j <? np.len row).

(** The items of [content] are values of the dtype [dt]. *)
Definition items_of (dt : np.dtype) (content : list Z) : Prop :=
  Forall (fun x => np.wrap dt x = x) content.

(** The reduction of one row: [identity] for an empty row. *)
Definition reduce_row (f : Z -> Z -> Z) (identity : Z) (row : list Z) : Z :=
  match row with
  | [] => identity
  | x :: rest => fold_left f rest x
  end.

(** [m] is the extreme item of [row] in the order [le]; an empty row has
    the [identity]. *)
Definition extreme (le : Z -> Z -> Prop) (identity : Z) (row : list Z) (m : Z) : Prop :=
  match row with
  | [] => m = identity
  | _ => In m row /\ Forall (fun x => le m x) row
  end.

(** Whether the rows [(start, stop)] of another array agree with those of
    the first on every row that is not empty in the first. *)
Definition agree (starts stops : list Z) (other : list Z * list Z) : bool :=
  forallb (fun q => (fst (fst q) =? snd (fst q))
                    || ((fst (fst q) =? fst (snd q)) && (snd (fst q) =? snd (snd q))))
          (combine (combine starts stops) (combine (fst other) (snd other))).

(** Further arrays, none of them sharing its starts or stops with the
    first. *)
Definition others (rest : list (list Z * list Z)) : list (target * target) :=
  map (fun p => (Other (fst p), Other (snd p))) rest.

(** The rows of the first array that [aligned] compares. *)
Definition relevant_rows (starts stops : list Z) : list bool :=
  map (fun c => negb (c =? 0)) (spans starts stops).

(** The items at a pair of positions. *)
Definition items_at (content1 content2 : list Z) (q : Z * Z) : Z * Z :=
  (nth (Z.to_nat (fst q)) content1 0, nth (Z.to_nat (snd q)) content2 0).

(** What [self.copy(starts=..., stops=..., content=result)] returns. *)
Definition with_content {C} (self : JaggedArray C) (result : C) : JaggedArray C :=
  {| _starts := _starts self; _stops := _stops self; _content := result;
     _offsets := None; _counts := None; _parents := None; _isvalid := false |}.

(** [numpy.add] on int64 operands, for the examples. *)
Definition numpy_add (xs : list (np.operand Z)) : result np.ndarray :=
  match xs with
  | [np.Values a; np.Scalar x] =>
      Ok (np.array np.int64 (map (fun v => np.wrap64 (v + x)) a))
  | [np.Scalar x; np.Values a] =>
      Ok (np.array np.int64 (map (fun v => np.wrap64 (x + v)) a))
  | [np.Values a; np.Values b] =>
      let* c := np.add a b in Ok (np.array np.int64 c)
  | _ => Raise TypeError
  end.

(** A flat array with one item per row, spread over the positions of the
    rows: item [i] repeated as often as row [i] is long. *)
Definition spread_rows (d sizes : list Z) : list Z :=
  concat (map (fun q => repeat (fst q) (Z.to_nat (snd q))) (combine d sizes)).

(** The product of the items of a row. *)
Definition product (l : list Z) : Z := fold_right Z.mul 1 l.

(** A count that the setter of [takes] accepts, as an argument. *)
Definition count_value (c : awkward_type.count) : awkward_type.value :=
  match c with
  | awkward_type.Inf => awkward_type.VInf
  | awkward_type.Count n => awkward_type.VInt n
  end.

Definition count_allowed (c : awkward_type.count) : Prop :=
  match c with
  | awkward_type.Inf => True
  | awkward_type.Count n => 0 <= n
  end.

(** Whether a key is among the keys of a dict. *)
Definition has_key (keys : list String.string) (key : String.string) : bool :=
  existsb (String.eqb key) keys.

(** Inputs of the examples. *)
Definition no_alias : list Z -> list Z -> option (list Z) := fun _ _ => None.

Definition int64s (l : list Z) : np.ndarray := np.array np.int64 l.

Definition view (starts stops : list Z) (content : np.ndarray) : JaggedArray np.ndarray :=
  {| _starts := starts; _stops := stops; _content := content;
     _offsets := None; _counts := None; _parents := None; _isvalid := false |}.

(** ** Facts about the monad and about numpy *)

Ltac run :=
  unfold value_of, exec, bind, ret, get, lift, modify, raise, call, try_except in *;
  cbn [fst snd] in *.

Lemma item_nth {A} (a : list A) (k : nat) (d : A) :
  (k < length a)%nat -> np.item a (Z.of_nat k) = Ok (nth k a d).
Proof.
  intros Hk. unfold np.item, np.norm_index.
  replace (Z.of_nat k <? 0) with false by (symmetry; apply Z.ltb_ge; lia).
  replace (0 <=? Z.of_nat k) with true by (symmetry; apply Z.leb_le; lia).
  replace (Z.of_nat k <? Z.of_nat (length a)) with true
    by (symmetry; apply Z.ltb_lt; lia).
  cbn. rewrite Nat2Z.id.
  destruct (nth_error a k) eqn:E.
  - now rewrite (nth_error_nth _ _ d E).
  - apply nth_error_None in E. lia.
Qed.

Lemma eqb_list_refl (a : list Z) : np.eqb_list a a = true.
Proof. induction a; cbn; [reflexivity | now rewrite Z.eqb_refl]. Qed.

Lemma eqb_list_eq (a b : list Z) : np.eqb_list a b = true -> a = b.
Proof.
  revert b. induction a as [|x a IH]; intros [|y b]; cbn; try discriminate; auto.
  intros H. apply andb_true_iff in H as [H1 H2].
  apply Z.eqb_eq in H1. subst. f_equal. auto.
Qed.

Lemma sub_same_length (a b : list Z) :
  length a = length b -> exists c, np.sub a b = Ok c /\ length c = length a.
Proof.
  intros H. unfold np.sub, np.broadcast2. rewrite H, Nat.eqb_refl.
  eexists; split; [reflexivity|].
  rewrite length_map, length_combine. lia.
Qed.

Lemma nth_combine {A B} (a : list A) (b : list B) (i : nat) (x : A) (y : B) :
  (i < length a)%nat -> (i < length b)%nat ->
  nth i (combine a b) (x, y) = (nth i a x, nth i b y).
Proof.
  revert b i. induction a as [|u a IH]; intros [|v b] [|i]; cbn; intros; try lia; auto.
  apply IH; lia.
Qed.

Lemma yield_rows_combine (content stops : list Z) (starts : list Z) (k : nat) :
  (k + length starts <= length stops)%nat ->
  yield_rows content stops (Z.of_nat k) starts
  = Ok (map (fun p => np.slice content (fst p) (snd p)) (combine starts (skipn k stops))).
Proof.
  revert k. induction starts as [|s starts IH]; intros k Hk; cbn [yield_rows].
  - reflexivity.
  - cbn [length] in Hk.
    rewrite (item_nth stops k 0) by lia. cbn [rbind].
    replace (Z.of_nat k + 1) with (Z.of_nat (S k)) by lia.
    rewrite IH by lia. cbn [rbind].
    destruct (skipn k stops) as [|t rest] eqn:E.
    + apply (f_equal (@length Z)) in E. rewrite length_skipn in E. cbn in E. lia.
    + assert (Hn : nth k stops 0 = t).
      { rewrite <- (firstn_skipn k stops) at 1.
        rewrite app_nth2; rewrite length_firstn; [|lia].
        replace (k - Nat.min k (length stops))%nat with O by lia.
        now rewrite E. }
      assert (Hs : skipn (S k) stops = rest).
      { replace (S k) with (1 + k)%nat by lia.
        rewrite <- skipn_skipn, E. reflexivity. }
      rewrite Hn, Hs. reflexivity.
Qed.

(** ** Validation, length and iteration with fewer starts than stops *)

(** C10.  A view with strictly fewer starts than stops passes validation;
    its length is the number of starts, and iterating it yields exactly
    that many rows, [content[starts[i]:stops[i]]], the surplus stops being
    ignored.  Validation of a view not yet marked valid fails exactly when
    there are more starts than stops, and then with a ValueError. *)
Theorem fewer_starts_than_stops (self : JaggedArray np.ndarray) :
  (length (_starts self) < length (_stops self))%nat ->
  value_of _valid self = Ok tt
  /\ value_of __len__ self = Ok (np.len (_starts self))
  /\ value_of __iter__ self = Ok (rows_of self)
  /\ length (rows_of self) = length (_starts self)
  /\ (forall i, (i < length (_starts self))%nat ->
        nth i (rows_of self) []
        = np.slice (np.data (_content self)) (nth i (_starts self) 0) (nth i (_stops self) 0))
  /\ (forall view : JaggedArray np.ndarray, _isvalid view = false ->
        value_of _valid view
        = if (length (_stops view) <? length (_starts view))%nat
          then Raise ValueError else Ok tt).
Proof.
  intros Hlt.
  assert (Hv : _validstartsstops (_starts self) (_stops self) = Ok tt).
  { unfold _validstartsstops.
    destruct (Nat.ltb_spec (length (_stops self)) (length (_starts self))); [lia | reflexivity]. }
  assert (Hrows : yield_rows (np.data (_content self)) (_stops self) 0 (_starts self)
                  = Ok (rows_of self)).
  { change 0 with (Z.of_nat 0). rewrite yield_rows_combine by (cbn; lia). reflexivity. }
  repeat split.
  - unfold _valid. run. destruct (_isvalid self); [reflexivity|]. now rewrite Hv.
  - unfold __len__, _valid. run. destruct (_isvalid self); [reflexivity|]. now rewrite Hv.
  - unfold __iter__, _valid. run. destruct (_isvalid self); cbn.
    + exact Hrows.
    + rewrite Hv. cbn. exact Hrows.
  - unfold rows_of. rewrite length_map, length_combine. lia.
  - intros i Hi. unfold rows_of.
    set (f := fun p : Z * Z => np.slice (np.data (_content self)) (fst p) (snd p)).
    rewrite (nth_indep _ [] (f (0, 0))) by (rewrite length_map, length_combine; lia).
    rewrite map_nth, nth_combine by lia. reflexivity.
  - intros view Hf. unfold _valid. run. rewrite Hf. unfold _validstartsstops.
    destruct (length (_stops view) <? length (_starts view))%nat; reflexivity.
Qed.

Lemma fewer_starts_than_stops_witness :
  (length [0] < length [1; 2])%nat
  /\ value_of __iter__ (view [0] [1; 2] (int64s [5; 6])) = Ok [[5]].
Proof.
  split; [cbn; lia|].
  apply (fewer_starts_than_stops (view [0] [1; 2] (int64s [5; 6]))). cbn; lia.
Defined.

(** ** Setters *)

(** C4, as the code has it.  Assigning starts or stops clears the validity
    flag and all three caches; assigning offsets clears the flag and the
    caches of counts and parents and keeps the assigned offsets; assigning
    counts clears the flag and the cache of parents and keeps the assigned
    counts with the offsets computed from them; assigning content clears
    the flag and leaves the three caches as they were. *)
Theorem setters_clear_flag_and_caches {C} (self : JaggedArray C)
    (value : list Z) (content : C) :
  negative_any value = false ->
  invalidates (set_starts value) [] self
  /\ invalidates (set_stops value) [] self
  /\ invalidates (set_offsets value) [Offsets] self
  /\ assigned (set_offsets value) self (fun s => _offsets s = Some value)
  /\ invalidates (set_counts value) [Offsets; Counts] self
  /\ assigned (set_counts value) self (fun s =>
       _counts s = Some value /\ _offsets s = Some (util.counts2offsets value))
  /\ assigned (set_content content) self (fun s =>
       _isvalid s = false /\ _content s = content
       /\ forall c, cached c s = cached c self).
Proof.
  intros Hv.
  unfold invalidates, assigned, set_starts, set_stops, set_offsets, set_counts,
    set_content.
  rewrite Hv. run.
  repeat split; eexists; (split; [reflexivity|]); cbn; repeat split; auto;
    intros []; cbn; tauto || reflexivity.
Qed.

Lemma setters_clear_flag_and_caches_witness :
  negative_any [0; 2] = false
  /\ invalidates (set_starts [0; 2])
       [] {| _starts := [0; 1]; _stops := [1; 3]; _content := int64s [4; 5; 6];
             _offsets := Some [0; 1; 3]; _counts := Some [1; 2];
             _parents := Some [0; 1; 1]; _isvalid := true |}.
Proof.
  split; [reflexivity|].
  apply (setters_clear_flag_and_caches _ [0; 2] (int64s [])). reflexivity.
Defined.

(** C4, as the claim is worded, fails for the setter of content: it
    supplies no cache, yet a filled cache of counts outlives it. *)
Lemma content_setter_keeps_caches :
  ~ invalidates (set_content (int64s [7; 8; 9])) []
      {| _starts := [0; 1]; _stops := [1; 3]; _content := int64s [4; 5; 6];
         _offsets := Some [0; 1; 3]; _counts := Some [1; 2];
         _parents := Some [0; 1; 1]; _isvalid := true |}.
Proof.
  intros (s & Hs & _ & Hc).
  unfold set_content in Hs. run. injection Hs as <-.
  specialize (Hc Counts (fun H => H)). discriminate Hc.
Qed.

(** The setter of parents never completes: the name it reads is unbound. *)
Lemma parents_setter_raises {C} (f : list Z -> list Z * list Z)
    (self : JaggedArray C) (value : list Z) :
  set_parents f value self = (Raise NameError, self).
Proof. reflexivity. Qed.

(** ** Relayout to the view's own layout *)

Lemma counts_well_formed {C} (self : JaggedArray C) :
  well_formed self ->
  exists c self',
    counts self = (Ok c, self')
    /\ np.sub (_stops self) (_starts self) = Ok c
    /\ same_layout self self' /\ well_formed self'.
Proof.
  intros (Hs & Ht & Hlen & Hc).
  destruct (sub_same_length (_stops self) (_starts self)) as (c & Hsub & _); [congruence|].
  unfold counts, counts_by. run.
  destruct (_counts self) as [v|] eqn:Ec.
  - exists v, self. rewrite (Hc v eq_refl) in Hsub. injection Hsub as <-.
    repeat split; auto. intros c' Hc'. rewrite Ec in Hc'. auto.
  - unfold _valid. run.
    assert (Hv : _validstartsstops (_starts self) (_stops self) = Ok tt).
    { unfold _validstartsstops. rewrite Hlen, Nat.ltb_irrefl. reflexivity. }
    destruct (_isvalid self); cbn; [|rewrite Hv; cbn]; rewrite Hsub; cbn;
      eexists; eexists; (split; [reflexivity|]);
      repeat split; cbn; auto; intros c' [= <-]; exact Hsub.
Qed.

Lemma iter_rows_of (self : JaggedArray np.ndarray) :
  length (_starts self) = length (_stops self) ->
  value_of __iter__ self = Ok (rows_of self).
Proof.
  intros Hlen.
  assert (Hv : _validstartsstops (_starts self) (_stops self) = Ok tt).
  { unfold _validstartsstops. rewrite Hlen, Nat.ltb_irrefl. reflexivity. }
  assert (Hrows : yield_rows (np.data (_content self)) (_stops self) 0 (_starts self)
                  = Ok (rows_of self)).
  { change 0 with (Z.of_nat 0). rewrite yield_rows_combine by (cbn; lia). reflexivity. }
  unfold __iter__, _valid. run. destruct (_isvalid self); cbn.
  - exact Hrows.
  - rewrite Hv. cbn. exact Hrows.
Qed.

Lemma rows_of_same_layout (a b : JaggedArray np.ndarray) :
  same_layout a b -> rows_of a = rows_of b.
Proof. intros (H1 & H2 & H3). unfold rows_of. now rewrite H1, H2, H3. Qed.

(** C1.  Relayout of a view with as many stops as starts to its own starts
    and stops, whether the two arrays are passed as the very objects the
    view holds or as equal arrays, and whether a copy is asked for or not,
    returns a view with the starts, the stops and the content of the
    original, whose rows are therefore the rows of the original,
    [content[starts[i]:stops[i]]]: the view itself when no copy is asked
    for and both arrays are the view's own, and otherwise a copy with empty
    caches.  Whatever the layout of the view (contiguous, increasing
    starts, overlapping or out of order), the target is recognised as the
    current layout before any of the gather and scatter branches is
    chosen. *)
Theorem tojagged_own_layout (offsetsaliased : list Z -> list Z -> option (list Z))
    (self : JaggedArray np.ndarray) (starts stops : target) (copy_ : bool) :
  well_formed self ->
  target_value (_starts self) starts = _starts self ->
  target_value (_stops self) stops = _stops self ->
  exists out,
    value_of (_tojagged offsetsaliased (Some starts) (Some stops) copy_) self = Ok out
    /\ out = (if negb copy_ && is_own starts && is_own stops
              then snd (counts self)
              else with_content self (_content self))
    /\ same_layout self out
    /\ value_of __iter__ out = Ok (rows_of self).
Proof.
  intros Hwf Hs Ht.
  destruct (counts_well_formed self Hwf) as (c & self' & Hc & Hsub & Hsame & Hwf').
  destruct Hsame as (E1 & E2 & E3).
  destruct Hwf' as (Hn1 & Hn2 & Hlen & _).
  assert (Hv : _validstartsstops (_starts self') (_stops self') = Ok tt).
  { unfold _validstartsstops. rewrite Hlen, Nat.ltb_irrefl. reflexivity. }
  assert (Hfinal : forall out, same_layout self out ->
            same_layout self out /\ value_of __iter__ out = Ok (rows_of self)).
  { intros out Hout. split; [exact Hout|].
    rewrite (rows_of_same_layout _ _ Hout). apply iter_rows_of.
    destruct Hout as (<- & <- & _). congruence. }
  unfold _tojagged. run. rewrite Hs, Ht, Hsub, Hc.
  unfold np.array_equal. rewrite eqb_list_refl. cbn [negb].
  assert (Hs' : target_value (_starts self') starts = _starts self')
    by (destruct starts; cbn in *; congruence).
  assert (Ht' : target_value (_stops self') stops = _stops self')
    by (destruct stops; cbn in *; congruence).
  rewrite Hs', Ht', Hv.
  destruct (negb copy_ && is_own starts && is_own stops).
  - exists self'. split; [reflexivity|]. split; [reflexivity|].
    apply Hfinal. repeat split; auto.
  - rewrite !eqb_list_refl, !orb_true_r. cbn [andb fst].
    unfold copy, set_starts, set_stops, set_content. run.
    rewrite Hn1. cbn. rewrite Hn2. cbn.
    eexists. split; [reflexivity|]. split.
    + unfold with_content. now rewrite E1, E2, E3.
    + apply Hfinal. repeat split; cbn; auto.
Qed.

Lemma tojagged_own_layout_witness :
  well_formed (view [2; 0] [4; 3] (int64s [10; 20; 30; 40; 50]))
  /\ exists out,
       value_of (_tojagged no_alias (Some Own) (Some Own) true)
         (view [2; 0] [4; 3] (int64s [10; 20; 30; 40; 50])) = Ok out
       /\ same_layout (view [2; 0] [4; 3] (int64s [10; 20; 30; 40; 50])) out
       /\ value_of __iter__ out = Ok [[30; 40]; [10; 20; 30]].
Proof.
  assert (Hwf : well_formed (view [2; 0] [4; 3] (int64s [10; 20; 30; 40; 50]))).
  { repeat split; try reflexivity. intros c Hc. discriminate Hc. }
  split; [exact Hwf|].
  destruct (tojagged_own_layout no_alias _ Own Own true Hwf eq_refl eq_refl)
    as (out & Hrun & _ & Hsame & Hrows).
  exists out. repeat split; [exact Hrun | apply Hsame.. | exact Hrows].
Defined.

(** The claim of C1 as it is worded, for every view: a view with two
    starts and three stops passes validation and iterates as two rows, and
    its relayout to its own starts and stops raises ValueError, with or
    without copy, when the row lengths [stops - starts] are computed. *)
Lemma tojagged_own_layout_surplus_stops :
  exec _valid (view [0; 1] [1; 2; 3] (int64s [5; 6; 7]))
  = Ok (mark_valid (view [0; 1] [1; 2; 3] (int64s [5; 6; 7])))
  /\ value_of __iter__ (view [0; 1] [1; 2; 3] (int64s [5; 6; 7])) = Ok [[5]; [6]]
  /\ forall copy_,
       value_of (_tojagged no_alias (Some Own) (Some Own) copy_)
         (view [0; 1] [1; 2; 3] (int64s [5; 6; 7])) = Raise ValueError.
Proof. split; [reflexivity|]. split; [reflexivity|]. intros [|]; reflexivity. Qed.

(** ** Concrete runs *)

(** With a sound [offsetsaliased], the answer on given arrays is fixed. *)
Lemma aliasing_base oa (starts stops base : list Z) :
  aliasing oa -> oa starts stops = Some base -> starts <> [] ->
  base = starts ++ [last stops 0].
Proof.
  intros Ha E Hne. destruct (Ha _ _ _ E) as (-> & -> & Hb).
  unfold np.upto_last, np.from1 in *.
  destruct base as [|x base]; [congruence|]. cbn [tl].
  destruct base as [|y base]; [cbn in Hne; congruence|].
  transitivity (removelast (x :: y :: base) ++ [last (x :: y :: base) 0]).
  - apply app_removelast_last. discriminate.
  - reflexivity.
Qed.

(** Running a method on concrete inputs with an unknown [offsetsaliased]:
    reduce to the next question put to it, settle the answer from
    [aliasing], and go on. *)
Ltac scrutinee oa X :=
  lazymatch X with
  | match ?Y with _ => _ end => scrutinee oa Y
  | oa _ _ => X
  | ?F _ => scrutinee oa F
  end.

Ltac alias_step oa Ha :=
  lazymatch goal with
  | |- ?X = ?R =>
      let X' := eval lazy head in X in
      let Y := scrutinee oa X' in
      lazymatch Y with
      | oa ?s ?t =>
          let s' := eval vm_compute in s in
          let t' := eval vm_compute in t in
          change (X' = R);
          change (oa s t) with (oa s' t');
          let E := fresh "E" in
          let b := fresh "base" in
          destruct (oa s' t') as [b|] eqn:E;
          [ let H1 := fresh in
            let H2 := fresh in
            destruct (Ha _ _ _ E) as (H1 & H2 & _);
            first [ apply (aliasing_base _ _ _ _ Ha) in E; [|discriminate];
                    cbn in E; subst b; cbn in H1, H2;
                    first [ discriminate H2 | clear H1 H2 ]
                  | exfalso; destruct b as [|? [|? ?]]; cbn in H1, H2; congruence ]
          | ]
      end
  end.

Ltac alias_cases oa Ha := repeat alias_step oa Ha; vm_compute; try reflexivity.

(** C5 at a contiguous view with a trailing empty row,
    [fromcounts([1, 0], [5])]: the rows are [[5], []], the reductions
    should give 5 for the first row and the identity for the second; each
    of them raises IndexError on the contiguous path, because the offset of
    the trailing empty row is not a valid index for [reduceat]. *)
Theorem reductions_trailing_empty_row (oa : list Z -> list Z -> option (list Z))
    (garbage : nat -> Z) :
  tolist (fromcounts [1; 0] (int64s [5])) = Ok [[5]; []]
  /\ on (fromcounts [1; 0] (int64s [5])) (sum oa) = Raise IndexError
  /\ on (fromcounts [1; 0] (int64s [5])) (prod oa) = Raise IndexError
  /\ on (fromcounts [1; 0] (int64s [5])) (min oa garbage) = Raise IndexError
  /\ on (fromcounts [1; 0] (int64s [5])) (max oa garbage) = Raise IndexError.
Proof.
  repeat split; try reflexivity;
    (match goal with |- ?X = _ => let X' := eval lazy head in X in change (X' = Raise IndexError) end;
     match goal with |- context [oa ?s ?t] => destruct (oa s t) end; reflexivity).
Qed.

(** C6 at rows [[1], []] masked by [[True], []]: the result should be
    [[1], []]; the sum of the mask that gives the new row lengths is taken
    on the contiguous path and raises IndexError for the trailing empty
    row, as [sum] does on [fromcounts([1, 0], [5])]. *)
Theorem mask_trailing_empty_row (oa : list Z -> list Z -> option (list Z))
    (garbage : nat -> Z) :
  aliasing oa ->
  tolist (fromiter np.int64 [[1]; []]) = Ok [[1]; []]
  /\ tolist (fromiter np.bool_ [[1]; []]) = Ok [[1]; []]
  /\ index_rows oa garbage (fromiter np.int64 [[1]; []]) (fromiter np.bool_ [[1]; []])
     = Raise IndexError.
Proof.
  intros Ha. repeat split; try reflexivity.
  alias_cases oa Ha.
Qed.

Lemma no_alias_aliasing : aliasing no_alias.
Proof. intros s t b H. discriminate H. Qed.

Lemma mask_trailing_empty_row_witness :
  index_rows no_alias (fun _ => 0)
    (fromiter np.int64 [[1]; []]) (fromiter np.bool_ [[1]; []])
  = Raise IndexError.
Proof.
  apply (mask_trailing_empty_row no_alias (fun _ => 0) no_alias_aliasing).
Defined.

(** Scenario B: rows [[1, 2], [3, 4]] masked by
    [[True, False], [False, True]] give [[1], [4]]. *)
Example mask_scenario (oa : list Z -> list Z -> option (list Z)) (garbage : nat -> Z) :
  aliasing oa ->
  index_rows oa garbage (fromiter np.int64 [[1; 2]; [3; 4]])
    (fromiter np.bool_ [[1; 0]; [0; 1]])
  = Ok [[1]; [4]].
Proof. intros Ha. alias_cases oa Ha. Qed.

(** C7 at rows [[0], [-5, 0]]: the row-local positions of the minima are
    0 and 0; [argmin] returns 1 for the first row and -1 for the second.
    The shift [content.max() + 1] that separates the rows is too small as
    soon as the content has an item below zero. *)
Theorem argmin_negative_content :
  tolist (fromiter np.int64 [[0]; [-5; 0]]) = Ok [[0]; [-5; 0]]
  /\ tolist (on (fromiter np.int64 [[0]; [-5; 0]]) argmin) = Ok [[1]; [-1]].
Proof. split; reflexivity. Qed.

(** Scenario D: rows [[5, 1, 3], [], [2]] give the row-local positions
    [[1], [], [0]]. *)
Example argmin_scenario :
  tolist (on (fromiter np.int64 [[5; 1; 3]; []; [2]]) argmin) = Ok [[1]; []; [0]].
Proof. reflexivity. Qed.

(** [argmin] also fails on a trailing empty row: its start is not a
    position of the content. *)
Example argmin_trailing_empty_row :
  on (fromiter np.int64 [[5]; []]) argmin = Raise IndexError.
Proof. reflexivity. Qed.

(** C2 at the view [[10], [20]] indexed by a jagged index with rows
    [[0], [0]] whose starts and stops [0, 2] and [1, 3] leave a gap in its
    content [0, 9, 0]: the result should be [[10], [20]].  The index is
    first relaid out to a compact layout, on the branch for increasing
    starts, which gathers the content at the parents themselves and not at
    the positions they own: the index becomes [[0], [9]], and the lookup
    raises IndexError. *)
Theorem jagged_index_with_gap (oa : list Z -> list Z -> option (list Z))
    (garbage : nat -> Z) :
  aliasing oa ->
  tolist (fromiter np.int64 [[10]; [20]]) = Ok [[10]; [20]]
  /\ tolist (__init__ [0; 2] [1; 3] (int64s [0; 9; 0])) = Ok [[0]; [0]]
  /\ tolist (on (__init__ [0; 2] [1; 3] (int64s [0; 9; 0]))
               (_tojagged oa (Some (Other [0; 1])) (Some (Other [1; 2])) false))
     = Ok [[0]; [9]]
  /\ index_rows oa garbage (fromiter np.int64 [[10]; [20]])
       (__init__ [0; 2] [1; 3] (int64s [0; 9; 0]))
     = Raise IndexError.
Proof.
  intros Ha. repeat split; try reflexivity; alias_cases oa Ha.
Qed.

Lemma jagged_index_with_gap_witness :
  index_rows no_alias (fun _ => 0) (fromiter np.int64 [[10]; [20]])
    (__init__ [0; 2] [1; 3] (int64s [0; 9; 0]))
  = Raise IndexError.
Proof.
  apply (jagged_index_with_gap no_alias (fun _ => 0) no_alias_aliasing).
Defined.

(** Scenario C: rows [[1, 2, 3], [4, 5]] indexed by [[-1, 0], [1]] give
    [[3, 1], [5]]. *)
Example jagged_index_scenario (oa : list Z -> list Z -> option (list Z))
    (garbage : nat -> Z) :
  aliasing oa ->
  index_rows oa garbage (fromiter np.int64 [[1; 2; 3]; [4; 5]])
    (fromiter np.int64 [[-1; 0]; [1]])
  = Ok [[3; 1]; [5]].
Proof. intros Ha. alias_cases oa Ha. Qed.

(** An index outside its row is an IndexError. *)
Example jagged_index_out_of_range (oa : list Z -> list Z -> option (list Z))
    (garbage : nat -> Z) :
  aliasing oa ->
  index_rows oa garbage (fromiter np.int64 [[1; 2; 3]; [4; 5]])
    (fromiter np.int64 [[-1; 0]; [2]])
  = Raise IndexError.
Proof. intros Ha. alias_cases oa Ha. Qed.

(** [_valid] of ByteJaggedArray at a four-byte item size, on attributes
    assigned without the constructor.  Two rows of 4 and 8 bytes are exact
    multiples of the item size, and validation raises ValueError; one row
    of 3 bytes is not a multiple, and validation succeeds: the test is the
    negation of the rule it is meant to enforce. *)
Theorem byte_validation_inverted :
  value_of Byte_valid (byte_view [0; 4] [4; 12] 12 4) = Raise ValueError
  /\ value_of Byte_valid (byte_view [0] [3] 3 4) = Ok tt.
Proof. split; vm_compute; reflexivity. Qed.

(** C8 at the one-row view [[1]] and the flat value [7, 8] of length 2:
    [_broadcast] raises nothing and returns the content [7]; the loop of
    [__array_ufunc__] over the same operand raises ValueError. *)
Theorem broadcast_unchecked_length (oa : list Z -> list Z -> option (list Z))
    (garbage : nat -> Z) :
  tolist (on (fromiter np.int64 [[1]]) (_broadcast oa garbage np.int64 (np.Values [7; 8])))
  = Ok [[7]]
  /\ on (fromiter np.int64 [[1]])
        (fun self => ufunc_operand oa garbage self np.int64 (np.Values [7; 8]) self)
     = Raise ValueError.
Proof. split; reflexivity. Qed.

(** ** Facts for [argcross] *)

Lemma wrap64_small (z : Z) : - 2 ^ 63 <= z < 2 ^ 63 -> np.wrap64 z = z.
Proof. intros H. unfold np.wrap64. rewrite Z.mod_small; lia. Qed.

Lemma wrap64_sub_l (a b : Z) : np.wrap64 (np.wrap64 a - b) = np.wrap64 (a - b).
Proof.
  unfold np.wrap64.
  replace ((a + 2 ^ 63) mod 2 ^ 64 - 2 ^ 63 - b + 2 ^ 63)
    with ((a + 2 ^ 63) mod 2 ^ 64 - b) by lia.
  rewrite Zminus_mod_idemp_l. f_equal. f_equal. lia.
Qed.

Lemma arange_length (n : Z) : length (np.arange n) = Z.to_nat n.
Proof. unfold np.arange. now rewrite length_map, length_seq. Qed.

Lemma seq_shifted (a s n : nat) : seq (a + s) n = map (fun k => (a + k)%nat) (seq s n).
Proof.
  revert s. induction n as [|n IH]; intros s; cbn; [reflexivity|].
  f_equal. rewrite <- IH. f_equal. lia.
Qed.

Lemma arange_add (a b : Z) :
  0 <= a -> 0 <= b ->
  np.arange (a + b) = np.arange a ++ map (fun j => a + j) (np.arange b).
Proof.
  intros Ha Hb. unfold np.arange.
  rewrite Z2Nat.inj_add, seq_app, map_app by lia. f_equal.
  cbn [Nat.add]. rewrite <- (Nat.add_0_r (Z.to_nat a)) at 1.
  rewrite seq_shifted, !map_map. apply map_ext. intros k. lia.
Qed.

Lemma arange_nonpos (n : Z) : n <= 0 -> np.arange n = [].
Proof. intros H. unfold np.arange. now replace (Z.to_nat n) with O by lia. Qed.

Lemma in_arange (n j : Z) : In j (np.arange n) -> 0 <= j < n.
Proof.
  unfold np.arange. intros H. apply in_map_iff in H as (k & <- & Hk).
  apply in_seq in Hk. lia.
Qed.

Lemma total_app (a b : list Z) : total (a ++ b) = total a + total b.
Proof. unfold total. induction a; cbn; lia. Qed.

Lemma total_cons (z : Z) (l : list Z) : total (z :: l) = z + total l.
Proof. reflexivity. Qed.

Lemma total_nonneg (l : list Z) : Forall (fun z => 0 <= z) l -> 0 <= total l.
Proof. induction 1; rewrite ?total_cons; [reflexivity | lia]. Qed.

Lemma total_firstn_le (l : list Z) (i : nat) :
  Forall (fun z => 0 <= z) l -> 0 <= total (firstn i l) <= total l.
Proof.
  intros H. revert i.
  induction H as [|z l Hz H IH]; intros [|i]; cbn [firstn]; rewrite ?total_cons;
    try (change (total []) with 0; lia).
  - pose proof (total_nonneg l H). change (total []) with 0. lia.
  - specialize (IH i). lia.
Qed.

Lemma total_firstn_S (l : list Z) (i : nat) :
  (i < length l)%nat -> total (firstn (S i) l) = total (firstn i l) + nth i l 0.
Proof.
  revert i. induction l as [|z l IH]; intros i Hi; cbn in Hi; [lia|].
  destruct i as [|i]; [cbn; lia|].
  change (firstn (S (S i)) (z :: l)) with (z :: firstn (S i) l).
  change (firstn (S i) (z :: l)) with (z :: firstn i l).
  rewrite !total_cons. cbn [nth]. rewrite IH by lia. lia.
Qed.

(** *** Lists *)

Lemma broadcast2_same {A B} (f : A -> A -> B) (a b : list A) :
  length a = length b ->
  np.broadcast2 f a b = Ok (map (fun p => f (fst p) (snd p)) (combine a b)).
Proof. intros H. unfold np.broadcast2. now rewrite H, Nat.eqb_refl. Qed.

Lemma broadcast2_map {X A B} (f : A -> A -> B) (g h : X -> A) (l : list X) :
  np.broadcast2 f (map g l) (map h l) = Ok (map (fun x => f (g x) (h x)) l).
Proof.
  rewrite broadcast2_same by now rewrite !length_map.
  f_equal. induction l as [|x l IH]; cbn; [reflexivity|]. now rewrite IH.
Qed.

Lemma item_in_range {A} (a : list A) (i : Z) (d : A) :
  0 <= i < np.len a -> np.item a i = Ok (nth (Z.to_nat i) a d).
Proof.
  intros H. unfold np.len in H.
  rewrite <- (Z2Nat.id i) at 1 by lia. apply item_nth. lia.
Qed.

Lemma take_map {X A} (a : list A) (d : A) (g : X -> Z) (l : list X) :
  Forall (fun x => 0 <= g x < np.len a) l ->
  np.take a (map g l) = Ok (map (fun x => nth (Z.to_nat (g x)) a d) l).
Proof.
  induction 1 as [|x l Hx _ IH]; cbn [map np.take]; [reflexivity|].
  rewrite (item_in_range a (g x) d Hx), IH. reflexivity.
Qed.

Lemma take_all {A} (a : list A) : np.take a (np.arange (np.len a)) = Ok a.
Proof.
  unfold np.arange, np.len. rewrite Nat2Z.id.
  assert (H : forall pre, np.take (pre ++ a) (map Z.of_nat (seq (length pre) (length a))) = Ok a).
  { induction a as [|x a IH]; intros pre; cbn [length seq map np.take]; [reflexivity|].
    rewrite (item_nth (pre ++ x :: a) (length pre) x)
      by (rewrite length_app; cbn; lia).
    rewrite app_nth2, Nat.sub_diag by lia. cbn [nth rbind].
    specialize (IH (pre ++ [x])). rewrite <- app_assoc, length_app in IH.
    cbn in IH. rewrite Nat.add_1_r in IH. rewrite IH. reflexivity. }
  exact (H []).
Qed.

Lemma spread_values {A} (l : list A) (n : nat) :
  length l = n -> np.spread n (np.Values l) = Ok l.
Proof.
  intros <-. unfold np.spread.
  destruct l as [|x [|y l]]; cbn; try reflexivity.
  now rewrite Nat.eqb_refl.
Qed.

Lemma norm_indexes_seq (n s k : nat) :
  (s + k <= n)%nat ->
  np.norm_indexes n (map Z.of_nat (seq s k)) = Ok (seq s k).
Proof.
  revert s. induction k as [|k IH]; intros s H; cbn [seq map np.norm_indexes]; [reflexivity|].
  unfold np.norm_index.
  replace (Z.of_nat s <? 0) with false by (symmetry; apply Z.ltb_ge; lia).
  replace (0 <=? Z.of_nat s) with true by (symmetry; apply Z.leb_le; lia).
  replace (Z.of_nat s <? Z.of_nat n) with true by (symmetry; apply Z.ltb_lt; lia).
  cbn [andb rbind]. rewrite Nat2Z.id, IH by lia. reflexivity.
Qed.

Lemma update_app {A} (pre : list A) (x y : A) (rest : list A) :
  np.update (pre ++ x :: rest) (length pre) y = pre ++ y :: rest.
Proof. induction pre as [|p pre IH]; cbn; [reflexivity|]. now rewrite IH. Qed.

Lemma put_seq {A} (pre a vals : list A) :
  length a = length vals ->
  np.put (pre ++ a) (seq (length pre) (length a)) vals = pre ++ vals.
Proof.
  revert pre vals. induction a as [|x a IH]; intros pre [|v vals] H; cbn in H; try lia.
  - reflexivity.
  - cbn [length seq np.put]. rewrite update_app.
    specialize (IH (pre ++ [v]) vals). rewrite <- !app_assoc, length_app in IH.
    cbn in IH. rewrite Nat.add_1_r in IH. apply IH. lia.
Qed.

Lemma setitem_take_all (garbage : nat -> Z) (n : Z) (vals : list Z) :
  length vals = Z.to_nat n ->
  np.setitem_take (empty garbage (np.len (np.arange n))) (np.arange n) (np.Values vals)
  = Ok vals.
Proof.
  intros H. unfold np.setitem_take.
  rewrite spread_values by now rewrite arange_length.
  cbn [rbind]. unfold np.len. rewrite arange_length.
  unfold empty, np.arange. rewrite Nat2Z.id, length_map, length_seq.
  rewrite norm_indexes_seq by lia. cbn [rbind]. f_equal.
  pose proof (put_seq [] (map garbage (seq 0 (Z.to_nat n))) vals) as P.
  rewrite length_map, length_seq in P. cbn [app length] in P. apply P. lia.
Qed.

Lemma slice_bounds {A} (a : list A) (lo hi : Z) :
  0 <= lo <= hi -> hi <= np.len a ->
  np.slice a lo hi = firstn (Z.to_nat (hi - lo)) (skipn (Z.to_nat lo) a).
Proof.
  intros H1 H2. unfold np.slice, np.slice_bound.
  replace (lo <? 0) with false by (symmetry; apply Z.ltb_ge; lia).
  replace (hi <? 0) with false by (symmetry; apply Z.ltb_ge; lia).
  now rewrite !Z.min_l by lia.
Qed.

Lemma slice_map {A B} (f : A -> B) (a : list A) (lo hi : Z) :
  np.slice (map f a) lo hi = map f (np.slice a lo hi).
Proof.
  unfold np.slice, np.len. rewrite length_map.
  now rewrite skipn_map, firstn_map.
Qed.

Lemma slice_app_block {A} (pre block rest : list A) (lo hi : Z) :
  lo = np.len pre -> hi = lo + np.len block ->
  np.slice (pre ++ block ++ rest) lo hi = block.
Proof.
  intros -> ->. unfold np.len. rewrite slice_bounds.
  - rewrite Nat2Z.id.
    replace (Z.to_nat (Z.of_nat (length pre) + Z.of_nat (length block) - Z.of_nat (length pre)))
      with (length block) by lia.
    rewrite skipn_app, skipn_all, Nat.sub_diag. cbn [skipn app].
    rewrite firstn_app, firstn_all, Nat.sub_diag. cbn [firstn]. apply app_nil_r.
  - lia.
  - unfold np.len. rewrite !length_app. lia.
Qed.

(** *** Offsets, parents and positions of consecutive rows *)

Lemma accumulate_nowrap (sizes : list Z) (acc : Z) :
  Forall (fun z => 0 <= z) sizes -> 0 <= acc -> acc + total sizes < 2 ^ 63 ->
  np.accumulate (fun x y => np.wrap64 (x + y)) acc sizes = np.accumulate Z.add acc sizes.
Proof.
  intros H. revert acc. induction H as [|z sizes Hz H IH]; intros acc Ha Hb; [reflexivity|].
  rewrite total_cons in Hb. pose proof (total_nonneg sizes H).
  cbn [np.accumulate]. cbv zeta. rewrite wrap64_small by lia.
  f_equal. apply IH; lia.
Qed.

Lemma accumulate_length (f : Z -> Z -> Z) (acc : Z) (l : list Z) :
  length (np.accumulate f acc l) = length l.
Proof. revert acc. induction l; intros acc; cbn; [reflexivity | now rewrite IHl]. Qed.

Lemma starts_from_length (b : Z) (sizes : list Z) :
  length (starts_from b sizes) = length sizes.
Proof. revert b. induction sizes; intros b; cbn; [reflexivity | now rewrite IHsizes]. Qed.

Lemma upto_last_accumulate (b : Z) (sizes : list Z) :
  np.upto_last (b :: np.accumulate Z.add b sizes) = starts_from b sizes.
Proof.
  unfold np.upto_last. revert b.
  induction sizes as [|z sizes IH]; intros b; [reflexivity|].
  cbn [np.accumulate starts_from]. cbv zeta.
  change (removelast (b :: b + z :: np.accumulate Z.add (b + z) sizes))
    with (b :: removelast (b + z :: np.accumulate Z.add (b + z) sizes)).
  now rewrite IH.
Qed.

Lemma last_accumulate (b : Z) (sizes : list Z) :
  last (b :: np.accumulate Z.add b sizes) 0 = b + total sizes.
Proof.
  revert b. induction sizes as [|z sizes IH]; intros b.
  - cbn. unfold total. cbn. lia.
  - cbn [np.accumulate]. cbv zeta.
    change (last (b :: b + z :: np.accumulate Z.add (b + z) sizes) 0)
      with (last (b + z :: np.accumulate Z.add (b + z) sizes) 0).
    rewrite IH, total_cons. lia.
Qed.

Lemma item_last {A} (a : list A) (d : A) :
  a <> [] -> np.item a (-1) = Ok (last a d).
Proof.
  intros H. rewrite (app_removelast_last d H) at 1.
  set (pre := removelast a). set (x := last a d).
  unfold np.item, np.norm_index. rewrite length_app. cbn [length].
  change (-1 <? 0) with true. cbv iota.
  replace (0 <=? -1 + Z.of_nat (length pre + 1)) with true by (symmetry; apply Z.leb_le; lia).
  replace (-1 + Z.of_nat (length pre + 1) <? Z.of_nat (length pre + 1)) with true
    by (symmetry; apply Z.ltb_lt; lia).
  cbn [andb rbind].
  replace (Z.to_nat (-1 + Z.of_nat (length pre + 1))) with (length pre) by lia.
  rewrite nth_error_app2, Nat.sub_diag by lia. reflexivity.
Qed.

Lemma nth_offsets (b : Z) (sizes : list Z) (i : nat) :
  (i <= length sizes)%nat ->
  nth i (b :: np.accumulate Z.add b sizes) 0 = b + total (firstn i sizes).
Proof.
  revert b i. induction sizes as [|z sizes IH]; intros b [|i] Hi; cbn in Hi; try lia.
  - cbn. unfold total. cbn. lia.
  - cbn. unfold total. cbn. lia.
  - change (nth (S i) (b :: np.accumulate Z.add b (z :: sizes)) 0)
      with (nth i (b + z :: np.accumulate Z.add (b + z) sizes) 0).
    cbn [firstn]. rewrite total_cons, IH by lia. lia.
Qed.

Lemma nth_starts_from (b : Z) (sizes : list Z) (i : nat) :
  (i < length sizes)%nat ->
  nth i (starts_from b sizes) 0 = b + total (firstn i sizes).
Proof.
  revert b i. induction sizes as [|z sizes IH]; intros b [|i] Hi; cbn in Hi; try lia.
  - cbn. unfold total. cbn. lia.
  - cbn [starts_from nth firstn]. rewrite total_cons, IH by lia. lia.
Qed.

Lemma nth_accumulate (b : Z) (sizes : list Z) (i : nat) :
  (i < length sizes)%nat ->
  nth i (np.accumulate Z.add b sizes) 0 = b + total (firstn (S i) sizes).
Proof. intros Hi. rewrite <- nth_offsets by lia. reflexivity. Qed.

Lemma fill_slice_block (pre : list Z) (b z rest i : Z) :
  0 <= z -> 0 <= rest -> b = np.len pre ->
  util.fill_slice (pre ++ repeat (-1) (Z.to_nat (z + rest))) b (b + z) i
  = (pre ++ repeat i (Z.to_nat z)) ++ repeat (-1) (Z.to_nat rest).
Proof.
  intros Hz Hr ->. unfold util.fill_slice, np.slice_bound, np.len.
  rewrite length_app, repeat_length.
  replace (Z.of_nat (length pre) <? 0) with false by (symmetry; apply Z.ltb_ge; lia).
  replace (Z.of_nat (length pre) + z <? 0) with false by (symmetry; apply Z.ltb_ge; lia).
  rewrite !Z.min_l by lia.
  replace (Z.to_nat (Z.of_nat (length pre) + z - Z.of_nat (length pre))) with (Z.to_nat z) by lia.
  rewrite Nat2Z.id.
  rewrite firstn_app, firstn_all, Nat.sub_diag. cbn [firstn]. rewrite app_nil_r.
  rewrite skipn_app, skipn_all2 by lia. cbn [app].
  replace (length pre + Z.to_nat z - length pre)%nat with (Z.to_nat z) by lia.
  rewrite Z2Nat.inj_add, repeat_app by lia.
  rewrite skipn_app, repeat_length, Nat.sub_diag, skipn_all2 by (rewrite repeat_length; lia).
  cbn [skipn app]. now rewrite <- app_assoc.
Qed.

Lemma fill_rows_blocks (sizes : list Z) (pre : list Z) (b i : Z) :
  Forall (fun z => 0 <= z) sizes -> b = np.len pre ->
  util.fill_rows (pre ++ repeat (-1) (Z.to_nat (total sizes))) i
    (starts_from b sizes) (np.accumulate Z.add b sizes)
  = pre ++ blocks i sizes.
Proof.
  intros H. revert pre b i.
  induction H as [|z sizes Hz H IH]; intros pre b i Hb.
  - cbn. reflexivity.
  - cbn [starts_from np.accumulate util.fill_rows blocks]. cbv zeta.
    rewrite total_cons.
    rewrite fill_slice_block by (auto using total_nonneg).
    rewrite IH.
    + now rewrite <- app_assoc.
    + subst b. unfold np.len. rewrite length_app, repeat_length. lia.
Qed.

Lemma map_const {A B} (c : B) (l : list A) : map (fun _ => c) l = repeat c (length l).
Proof. induction l; cbn; [reflexivity | now f_equal]. Qed.

Lemma positions_fst (sizes : list Z) (b i : Z) :
  Forall (fun z => 0 <= z) sizes ->
  map fst (positions b i sizes) = map (fun j => b + j) (np.arange (total sizes)).
Proof.
  intros H. revert b i. induction H as [|z sizes Hz H IH]; intros b i; [reflexivity|].
  cbn [positions]. rewrite total_cons, arange_add by (auto using total_nonneg).
  rewrite !map_app, IH, !map_map. f_equal.
  apply map_ext. intros j. lia.
Qed.

Lemma positions_snd (sizes : list Z) (b i : Z) :
  map snd (positions b i sizes) = blocks i sizes.
Proof.
  revert b i. induction sizes as [|z sizes IH]; intros b i; [reflexivity|].
  cbn [positions blocks]. rewrite map_app, map_map, IH. cbn [snd].
  now rewrite map_const, arange_length.
Qed.

Lemma positions_length (sizes : list Z) (b i : Z) :
  Forall (fun z => 0 <= z) sizes ->
  length (positions b i sizes) = Z.to_nat (total sizes).
Proof.
  intros H. rewrite <- (length_map fst), positions_fst, length_map, arange_length by assumption.
  reflexivity.
Qed.

Lemma positions_rows (sizes : list Z) (b i : Z) :
  Forall (fun x => i <= snd x < i + np.len sizes) (positions b i sizes).
Proof.
  revert b i. induction sizes as [|z sizes IH]; intros b i; [constructor|].
  cbn [positions]. apply Forall_app. split.
  - apply Forall_forall. intros x Hx. apply in_map_iff in Hx as (j & <- & _).
    cbn [snd]. unfold np.len. cbn [length]. lia.
  - eapply Forall_impl; [|apply IH]. intros x Hx. unfold np.len in *. cbn [length]. lia.
Qed.

Lemma slice_positions (sizes : list Z) (pre : list (Z * Z)) (b i0 : Z) (i : nat) :
  Forall (fun z => 0 <= z) sizes -> (i < length sizes)%nat ->
  np.slice (pre ++ positions b i0 sizes)
    (np.len pre + total (firstn i sizes)) (np.len pre + total (firstn (S i) sizes))
  = map (fun j => (b + total (firstn i sizes) + j, i0 + Z.of_nat i))
        (np.arange (nth i sizes 0)).
Proof.
  intros H. revert pre b i0 i.
  induction H as [|z sizes Hz H IH]; intros pre b i0 i Hi; cbn in Hi; [lia|].
  destruct i as [|i].
  - cbn [positions firstn nth]. rewrite total_cons.
    change (total []) with 0. rewrite !Z.add_0_r.
    rewrite slice_app_block.
    + apply map_ext. intros j. f_equal; lia.
    + lia.
    + unfold np.len. rewrite length_map, arange_length. lia.
  - cbn [positions nth].
    change (firstn (S (S i)) (z :: sizes)) with (z :: firstn (S i) sizes).
    change (firstn (S i) (z :: sizes)) with (z :: firstn i sizes).
    rewrite !total_cons. rewrite app_assoc.
    set (pre' := pre ++ map (fun j => (b + j, i0)) (np.arange z)).
    assert (Hp : np.len pre' = np.len pre + z).
    { unfold pre', np.len. rewrite length_app, length_map, arange_length. lia. }
    replace (np.len pre + (z + total (firstn i sizes)))
      with (np.len pre' + total (firstn i sizes)) by lia.
    replace (np.len pre + (z + total (firstn (S i) sizes)))
      with (np.len pre' + total (firstn (S i) sizes)) by lia.
    rewrite IH by lia. apply map_ext. intros j. f_equal; lia.
Qed.

(** *** The pairs of two ranges *)

Lemma flat_map_nil {A B} (l : list A) : flat_map (fun _ : A => @nil B) l = [].
Proof. induction l; cbn; auto. Qed.

Lemma row_major (s1 s2 c2 : Z) (n : nat) :
  0 <= c2 ->
  map (fun j => (s1 + j / c2, s2 + (j - c2 * (j / c2)))) (np.arange (Z.of_nat n * c2))
  = cross_pairs s1 (Z.of_nat n) s2 c2.
Proof.
  intros Hc. unfold cross_pairs.
  induction n as [|n IH]; [reflexivity|].
  replace (Z.of_nat (S n) * c2) with (Z.of_nat n * c2 + c2) by lia.
  rewrite arange_add by nia. rewrite map_app, IH.
  replace (Z.of_nat (S n)) with (Z.of_nat n + 1) by lia.
  rewrite (arange_add (Z.of_nat n) 1) by lia.
  change (np.arange 1) with [0]. rewrite flat_map_app. f_equal.
  cbn [map flat_map]. rewrite app_nil_r, map_map.
  apply map_ext_in. intros j Hj. apply in_arange in Hj.
  assert (Hq : (Z.of_nat n * c2 + j) / c2 = Z.of_nat n).
  { rewrite Z.add_comm, Z.div_add by lia. rewrite Z.div_small by lia. lia. }
  rewrite Hq. f_equal; lia.
Qed.

(** *** Views whose rows are ranges *)

Lemma valid_validated {C} (self : JaggedArray C) :
  length (_starts self) = length (_stops self) ->
  _valid self = (Ok tt, validated self).
Proof.
  intros H. unfold _valid, validated, _validstartsstops. run.
  destruct (_isvalid self); [reflexivity|].
  now rewrite H, Nat.ltb_irrefl.
Qed.

Lemma validated_same_layout {C} (self : JaggedArray C) :
  same_layout self (validated self).
Proof. unfold validated. destruct (_isvalid self); repeat split. Qed.

Lemma validated_counts {C} (self : JaggedArray C) :
  _counts (validated self) = _counts self.
Proof. unfold validated. now destruct (_isvalid self). Qed.

Lemma validated_well_formed {C} (self : JaggedArray C) :
  well_formed self -> well_formed (validated self).
Proof.
  destruct (validated_same_layout self) as (E1 & E2 & _).
  unfold well_formed. rewrite validated_counts, <- E1, <- E2. auto.
Qed.

Lemma len_validated {C} (self : JaggedArray C) :
  length (_starts self) = length (_stops self) ->
  __len__ self = (Ok (np.len (_starts self)), validated self).
Proof.
  intros H. unfold __len__. run. rewrite (valid_validated self H).
  destruct (validated_same_layout self) as (<- & _). reflexivity.
Qed.

Lemma ranges_sub (starts stops : list Z) :
  Forall2 (fun s t => 0 <= s <= t /\ t < 2 ^ 63) starts stops ->
  np.sub stops starts = Ok (spans starts stops).
Proof.
  intros H. unfold np.sub.
  rewrite broadcast2_same by (symmetry; eapply Forall2_length; eauto).
  f_equal. unfold spans.
  induction H as [|s t starts stops Hst H IH]; [reflexivity|].
  cbn [combine map fst snd]. rewrite IH. f_equal. apply wrap64_small. lia.
Qed.

Lemma spans_length (starts stops : list Z) :
  length starts = length stops -> length (spans starts stops) = length starts.
Proof. intros H. unfold spans. rewrite length_map, length_combine. lia. Qed.

Lemma spans_bounds (starts stops : list Z) :
  Forall2 (fun s t => 0 <= s <= t /\ t < 2 ^ 63) starts stops ->
  Forall (fun c => 0 <= c < 2 ^ 63) (spans starts stops).
Proof.
  unfold spans. induction 1 as [|s t starts stops Hst H IH]; constructor; cbn; auto; lia.
Qed.

Lemma nth_spans (starts stops : list Z) (i : nat) :
  length starts = length stops -> (i < length starts)%nat ->
  nth i (spans starts stops) 0 = nth i stops 0 - nth i starts 0.
Proof.
  intros H Hi. unfold spans.
  set (f := fun p : Z * Z => snd p - fst p).
  rewrite (nth_indep _ 0 (f (0, 0))) by (rewrite length_map, length_combine; lia).
  rewrite map_nth, nth_combine by lia. reflexivity.
Qed.

Lemma negative_any_false (l : list Z) :
  Forall (fun z => 0 <= z) l -> negative_any l = false.
Proof.
  unfold negative_any. induction 1 as [|z l Hz H IH]; [reflexivity|].
  cbn [existsb]. rewrite IH, orb_false_r. apply Z.ltb_ge. lia.
Qed.

Lemma counts_ranges {C} (self : JaggedArray C) :
  well_formed self -> ranges self ->
  exists self',
    counts self = (Ok (spans (_starts self) (_stops self)), self')
    /\ same_layout self self' /\ well_formed self'.
Proof.
  intros Hwf Hr. destruct (counts_well_formed self Hwf) as (c & self' & Hc & Hsub & Hs & Hw).
  rewrite (ranges_sub _ _ Hr) in Hsub. injection Hsub as <-.
  exists self'. auto.
Qed.

Lemma pair_counts_bounds (c1 c2 : list Z) :
  Forall (fun c => 0 <= c < 2 ^ 63) c1 -> Forall (fun c => 0 <= c < 2 ^ 63) c2 ->
  Forall (fun z => 0 <= z) (map (fun p => fst p * snd p) (combine c1 c2)).
Proof.
  intros H1. revert c2. induction H1 as [|x c1 Hx H1 IH]; intros c2 H2; [constructor|].
  destruct H2 as [|y c2 Hy H2]; [constructor|].
  cbn [combine map fst snd]. constructor; [nia | auto].
Qed.

Lemma mul_nowrap (c1 c2 : list Z) :
  length c1 = length c2 ->
  Forall (fun z => 0 <= z) (map (fun p => fst p * snd p) (combine c1 c2)) ->
  total (map (fun p => fst p * snd p) (combine c1 c2)) < 2 ^ 63 ->
  np.mul c1 c2 = Ok (map (fun p => fst p * snd p) (combine c1 c2)).
Proof.
  intros Hlen Hpos Hsum. unfold np.mul. rewrite broadcast2_same by assumption.
  f_equal. clear Hlen. revert Hpos Hsum.
  generalize (combine c1 c2). intros l.
  induction l as [|p l IH]; intros Hpos Hsum; [reflexivity|].
  cbn [map] in *. rewrite total_cons in Hsum. inversion Hpos as [|? ? Hp Hl]; subst.
  pose proof (total_nonneg _ Hl).
  rewrite IH by (auto; lia). f_equal. apply wrap64_small. lia.
Qed.

Lemma spans_offsets (b : Z) (sizes : list Z) :
  spans (starts_from b sizes) (np.accumulate Z.add b sizes) = sizes.
Proof.
  unfold spans. revert b. induction sizes as [|z sizes IH]; intros b; [reflexivity|].
  cbn [starts_from np.accumulate combine map fst snd]. cbv zeta.
  cbn [combine map fst snd]. rewrite IH. f_equal. lia.
Qed.

Lemma combine_map_same {X A B} (f : X -> A) (g : X -> B) (l : list X) :
  combine (map f l) (map g l) = map (fun x => (f x, g x)) l.
Proof. induction l; cbn; [reflexivity | now f_equal]. Qed.

Lemma nth_map_combine {X Y A} (f : X * Y -> A) (a : list X) (b : list Y)
    (i : nat) (d : A) (dx : X) (dy : Y) :
  (i < length a)%nat -> (i < length b)%nat ->
  nth i (map f (combine a b)) d = f (nth i a dx, nth i b dy).
Proof.
  intros Ha Hb.
  rewrite (nth_indep _ d (f (dx, dy))) by (rewrite length_map, length_combine; lia).
  now rewrite map_nth, nth_combine.
Qed.

Lemma Forall2_nth_both {A B} (P : A -> B -> Prop) (a : list A) (b : list B)
    (i : nat) (da : A) (db : B) :
  Forall2 P a b -> (i < length a)%nat -> P (nth i a da) (nth i b db).
Proof.
  intros H. revert i. induction H as [|x y a b Hxy H IH]; intros [|i] Hi; cbn in *;
    try lia; auto. apply IH. lia.
Qed.

Lemma argcross_pairs {C D} (garbage : nat -> Z)
    (self : JaggedArray C) (other : JaggedArray D) :
  well_formed self -> well_formed other -> ranges self -> ranges other ->
  length (_starts self) = length (_starts other) ->
  total (pair_counts self other) < 2 ^ 63 ->
  exists out other',
    value_of (argcross garbage other) self = Ok (out, other')
    /\ _offsets out = Some (util.counts2offsets (pair_counts self other))
    /\ _starts out = np.upto_last (util.counts2offsets (pair_counts self other))
    /\ _stops out = np.from1 (util.counts2offsets (pair_counts self other))
    /\ spans (_starts out) (_stops out) = pair_counts self other
    /\ table_rows out = row_pairs self other.
Proof.
  intros Hwf1 Hwf2 Hr1 Hr2 Hn Htot.
  pose proof (Forall2_length Hr1) as Hl1.
  pose proof (Forall2_length Hr2) as Hl2.
  set (S1 := _starts self) in *. set (T1 := _stops self) in *.
  set (S2 := _starts other) in *. set (T2 := _stops other) in *.
  set (c1 := spans S1 T1). set (c2 := spans S2 T2).
  set (sizes := pair_counts self other).
  assert (Hsizes : sizes = map (fun p => fst p * snd p) (combine c1 c2)) by reflexivity.
  (* the monadic prefix *)
  destruct (validated_same_layout self) as (Ev1 & Ev2 & _).
  destruct (counts_ranges (validated (validated self))) as (s2 & Hc1 & (Es1 & Es2 & _) & Hw2).
  { now apply validated_well_formed, validated_well_formed. }
  { unfold ranges. destruct (validated_same_layout (validated self)) as (<- & <- & _).
    now rewrite <- Ev1, <- Ev2. }
  destruct (validated_same_layout other) as (Eo1 & Eo2 & _).
  destruct (counts_ranges (validated other)) as (o2 & Hc2 & (Eo3 & Eo4 & _) & Hw3).
  { now apply validated_well_formed. }
  { unfold ranges. now rewrite <- Eo1, <- Eo2. }
  destruct (counts_well_formed o2 Hw3) as (c2' & o3 & Hc3 & Hsub3 & (Eo5 & Eo6 & _) & Hw4).
  unfold argcross. run.
  rewrite (valid_validated self Hl1).
  rewrite (len_validated (validated self)) by (now rewrite <- Ev1, <- Ev2).
  rewrite (len_validated other Hl2).
  assert (E1 : _starts s2 = S1) by (rewrite <- Es1; destruct (validated_same_layout (validated self)) as (<- & _); now rewrite <- Ev1).
  assert (E1' : spans (_starts (validated (validated self))) (_stops (validated (validated self))) = c1).
  { destruct (validated_same_layout (validated self)) as (<- & <- & _). now rewrite <- Ev1, <- Ev2. }
  assert (E2' : spans (_starts (validated other)) (_stops (validated other)) = c2)
    by now rewrite <- Eo1, <- Eo2.
  assert (E3 : c2' = c2).
  { rewrite <- Eo3, <- Eo4, <- Eo1, <- Eo2 in Hsub3.
    rewrite (ranges_sub _ _ Hr2) in Hsub3. now injection Hsub3 as <-. }
  assert (E4 : _starts o3 = S2) by now rewrite <- Eo5, <- Eo3, <- Eo1.
  rewrite E1' in Hc1. rewrite E2' in Hc2. subst c2'.
  rewrite <- Ev1.
  assert (Hnz : np.len (_starts self) = np.len (_starts other))
    by (unfold np.len; fold S1 S2; now rewrite Hn).
  rewrite Hnz, Z.eqb_refl. cbn [negb].
  rewrite Hc1, Hc2. cbv beta iota.
  (* sizes, offsets, parents *)
  assert (Hb1 : Forall (fun c => 0 <= c < 2 ^ 63) c1) by (apply spans_bounds; exact Hr1).
  assert (Hb2 : Forall (fun c => 0 <= c < 2 ^ 63) c2) by (apply spans_bounds; exact Hr2).
  assert (Hpos : Forall (fun z => 0 <= z) sizes) by (rewrite Hsizes; now apply pair_counts_bounds).
  assert (Hlc : length c1 = length c2).
  { unfold c1, c2. rewrite !spans_length by assumption. exact Hn. }
  assert (Hls : length sizes = length S1).
  { rewrite Hsizes, length_map, length_combine, <- Hlc, Nat.min_id. now apply spans_length. }
  rewrite (mul_nowrap c1 c2 Hlc) by (rewrite <- Hsizes; assumption).
  rewrite <- Hsizes.
  set (offs := 0 :: np.accumulate Z.add 0 sizes).
  assert (Hoffs : util.counts2offsets sizes = offs).
  { unfold util.counts2offsets, np.cumsum. now rewrite accumulate_nowrap by (auto; lia). }
  rewrite Hoffs.
  pose proof (total_nonneg sizes Hpos) as Htot0.
  assert (Hlast : np.item offs (-1) = Ok (total sizes)).
  { rewrite (item_last offs 0) by discriminate. unfold offs. now rewrite last_accumulate. }
  rewrite Hlast.
  set (X := positions 0 0 sizes).
  assert (Hidx : np.arange (total sizes) = map fst X).
  { unfold X. rewrite positions_fst by assumption. symmetry.
    rewrite <- (map_id (np.arange (total sizes))) at 2. apply map_ext. intros j. lia. }
  assert (Hpar : util.offsets2parents offs = map snd X).
  { unfold util.offsets2parents, X. rewrite positions_snd.
    unfold offs at 1. rewrite last_accumulate, Z.add_0_l.
    unfold offs. rewrite upto_last_accumulate. unfold np.from1. cbn [tl].
    unfold np.full. apply (fill_rows_blocks sizes [] 0 0 Hpos). reflexivity. }
  rewrite Hpar.
  assert (HlX : length X = Z.to_nat (total sizes)) by (apply positions_length; assumption).
  assert (Htk : np.take (map snd X) (np.arange (total sizes)) = Ok (map snd X)).
  { replace (np.arange (total sizes)) with (np.arange (np.len (map snd X)));
      [apply take_all|].
    f_equal. unfold np.len. rewrite length_map, HlX. lia. }
  rewrite Htk.
  assert (Hrow : forall (a : list Z), length a = length S1 ->
            Forall (fun x : Z * Z => 0 <= snd x < np.len a) X).
  { intros a Ha. eapply Forall_impl; [|apply (positions_rows sizes 0 0)].
    intros x Hx. cbn beta in Hx. unfold np.len in *. lia. }
  rewrite E1.
  rewrite (take_map S1 0 snd X) by (apply Hrow; reflexivity).
  assert (Hrow' : Forall (fun x : Z * Z => 0 <= snd x < np.len offs) X).
  { eapply Forall_impl; [|apply (positions_rows sizes 0 0)].
    intros x Hx. cbn beta in Hx. unfold np.len, offs in *. cbn [length].
    rewrite accumulate_length. lia. }
  rewrite (take_map offs 0 snd X Hrow').
  rewrite Hidx. rewrite (broadcast2_map (fun x y => np.wrap64 (x - y)) fst _ X : np.sub _ _ = _).
  rewrite Hc3. cbv beta iota.
  rewrite (take_map c2 0 snd X) by (apply Hrow; unfold c2; rewrite spans_length by assumption; now symmetry).
  rewrite (broadcast2_map (fun x y => np.wrap64 (x / y)) _ _ X : np.floordiv _ _ = _).
  rewrite (broadcast2_map (fun x y => np.wrap64 (x + y)) _ _ X : np.add _ _ = _).
  rewrite <- Hidx.
  rewrite setitem_take_all by now rewrite length_map.
  rewrite E4.
  rewrite (take_map S2 0 snd X) by (apply Hrow; now symmetry).
  rewrite Hidx.
  rewrite (broadcast2_map (fun x y => np.wrap64 (x + y)) _ _ X : np.add _ _ = _).
  rewrite (broadcast2_map (fun x y => np.wrap64 (x * y)) _ _ X : np.mul _ _ = _).
  rewrite (broadcast2_map (fun x y => np.wrap64 (x - y)) _ _ X : np.sub _ _ = _).
  rewrite <- Hidx.
  rewrite setitem_take_all by now rewrite length_map.
  set (L := fun x : Z * Z => np.wrap64 (nth (Z.to_nat (snd x)) S1 0
              + np.wrap64 (np.wrap64 (fst x - nth (Z.to_nat (snd x)) offs 0)
                           / nth (Z.to_nat (snd x)) c2 0))).
  set (R := fun x : Z * Z => np.wrap64 (np.wrap64 (nth (Z.to_nat (snd x)) S2 0
                + np.wrap64 (fst x - nth (Z.to_nat (snd x)) offs 0))
              - np.wrap64 (nth (Z.to_nat (snd x)) c2 0
                  * np.wrap64 (np.wrap64 (fst x - nth (Z.to_nat (snd x)) offs 0)
                               / nth (Z.to_nat (snd x)) c2 0)))).
  assert (Hoffpos : Forall (fun z => 0 <= z) offs).
  { apply Forall_forall. intros z Hz. apply (In_nth _ _ 0) in Hz as (k & Hk & <-).
    unfold offs in *. cbn [length] in Hk. rewrite accumulate_length in Hk.
    rewrite nth_offsets by lia. pose proof (total_firstn_le sizes k Hpos). lia. }
  assert (Hup : np.upto_last offs = starts_from 0 sizes) by apply upto_last_accumulate.
  assert (Hfrom : np.from1 offs = np.accumulate Z.add 0 sizes) by reflexivity.
  unfold fromoffsets, __init__.
  rewrite (negative_any_false offs Hoffpos).
  assert (Hn1 : negative_any (np.upto_last offs) = false).
  { apply negative_any_false. rewrite Hup. apply Forall_forall. intros z Hz.
    apply (In_nth _ _ 0) in Hz as (k & Hk & <-). rewrite starts_from_length in Hk.
    rewrite nth_starts_from by lia. pose proof (total_firstn_le sizes k Hpos). lia. }
  assert (Hn2 : negative_any (np.from1 offs) = false).
  { apply negative_any_false. inversion Hoffpos; subst. assumption. }
  rewrite Hn1, Hn2. cbn [rbind fst].
  eexists. eexists. split; [reflexivity|].
  cbn [cache_parents cache_offsets _offsets _starts _stops _content].
  split; [reflexivity|]. split; [reflexivity|]. split; [reflexivity|].
  rewrite Hup, Hfrom. split; [apply spans_offsets|].
  unfold table_rows, row_pairs.
  cbn [cache_parents cache_offsets _starts _stops _content left_column right_column].
  fold S1 T1 S2 T2.
  apply (nth_ext _ _ [] []).
  { rewrite !length_map, !length_combine, starts_from_length, accumulate_length. lia. }
  intros i Hi.
  rewrite length_map, length_combine, starts_from_length, accumulate_length, Nat.min_id in Hi.
  rewrite (nth_map_combine _ _ _ i [] 0 0)
    by (rewrite ?starts_from_length, ?accumulate_length; lia).
  rewrite (nth_map_combine _ _ _ i [] (0, 0) (0, 0)) by (rewrite length_combine; lia).
  rewrite !nth_combine by lia. cbn [fst snd].
  rewrite nth_starts_from, nth_accumulate by lia. rewrite !Z.add_0_l.
  rewrite !slice_map.
  pose proof (slice_positions sizes [] 0 0 i Hpos Hi) as Hsl.
  cbn [app] in Hsl. change (np.len (@nil (Z * Z))) with 0 in Hsl.
  rewrite !Z.add_0_l in Hsl. fold X in Hsl. rewrite Hsl.
  rewrite combine_map_same, map_map.
  pose proof (Forall2_nth_both _ _ _ i 0 0 Hr1 ltac:(fold S1; lia)) as B1.
  pose proof (Forall2_nth_both _ _ _ i 0 0 Hr2 ltac:(fold S2; lia)) as B2.
  fold S1 T1 in B1. fold S2 T2 in B2. cbv beta in B1, B2.
  set (s1 := nth i S1 0) in *. set (t1 := nth i T1 0) in *.
  set (s2a := nth i S2 0) in *. set (t2 := nth i T2 0) in *.
  assert (Hc1i : nth i c1 0 = t1 - s1) by (apply nth_spans; lia).
  assert (Hc2i : nth i c2 0 = t2 - s2a) by (apply nth_spans; lia).
  assert (Hlc1 : length c1 = length S1) by (apply spans_length; assumption).
  assert (Hzi : nth i sizes 0 = (t1 - s1) * (t2 - s2a)).
  { rewrite Hsizes, (nth_map_combine _ _ _ i 0 0 0) by lia. cbn [fst snd].
    now rewrite Hc1i, Hc2i. }
  assert (Hoi : nth i offs 0 = total (firstn i sizes)).
  { unfold offs. rewrite nth_offsets by lia. lia. }
  pose proof (total_firstn_le sizes i Hpos) as Hlo.
  pose proof (total_firstn_le sizes (S i) Hpos) as Hhi.
  rewrite (total_firstn_S sizes i Hi) in Hhi.
  rewrite Hzi in *.
  pose proof (row_major s1 s2a (t2 - s2a) (Z.to_nat (t1 - s1)) ltac:(lia)) as Hrm.
  rewrite Z2Nat.id in Hrm by lia. rewrite <- Hrm. clear Hrm.
  apply map_ext_in. intros j Hj. apply in_arange in Hj.
  unfold L, R. cbn [fst snd]. rewrite Nat2Z.id, Hoi, Hc2i. fold s1 s2a.
  set (lo := total (firstn i sizes)) in *. set (c := t2 - s2a) in *.
  replace (lo + j - lo) with j by lia.
  assert (Hc0 : 0 <= c) by (unfold c; lia).
  assert (Hct : s2a + c = t2) by (unfold c; lia).
  assert (Hj' : 0 <= j < (t1 - s1) * c) by exact Hj.
  assert (Htot' : total sizes < 2 ^ 63) by exact Htot.
  clearbody c lo. clear Hj.
  assert (Hcpos : 0 < c).
  { destruct (Z.eq_dec c 0) as [Ec|Ec]; [|lia]. exfalso.
    assert ((t1 - s1) * c = 0) by (rewrite Ec; lia). lia. }
  assert (Hq : 0 <= j / c < t1 - s1).
  { split; [apply Z.div_pos; lia|]. apply Z.div_lt_upper_bound; lia. }
  assert (Hm : c * (j / c) <= j) by (apply Z.mul_div_le; lia).
  assert (Hr : j - c * (j / c) < c).
  { pose proof (Z.mod_pos_bound j c Hcpos). rewrite Z.mod_eq in H by lia. lia. }
  rewrite (wrap64_small j) by lia.
  rewrite (wrap64_small (j / c)) by lia.
  rewrite (wrap64_small (s1 + j / c)) by lia.
  rewrite (wrap64_small (c * (j / c))) by nia.
  rewrite wrap64_sub_l.
  rewrite (wrap64_small (s2a + j - c * (j / c))) by lia.
  f_equal. lia.
Qed.

Lemma valid_cases {C} (self : JaggedArray C) :
  _valid self = (Ok tt, validated self) \/ _valid self = (Raise ValueError, self).
Proof.
  unfold _valid, validated, _validstartsstops. run.
  destruct (_isvalid self); [now left|].
  destruct (length (_stops self) <? length (_starts self))%nat; [now right | now left].
Qed.

Lemma validated_isvalid {C} (self : JaggedArray C) : _isvalid (validated self) = true.
Proof. unfold validated. destruct (_isvalid self) eqn:E; [exact E | reflexivity]. Qed.

Lemma len_cases {C} (self : JaggedArray C) :
  __len__ self = (Ok (np.len (_starts self)), validated self)
  \/ __len__ self = (Raise ValueError, self).
Proof.
  unfold __len__. run. destruct (valid_cases self) as [-> | ->]; [left | now right].
  destruct (validated_same_layout self) as (<- & _). reflexivity.
Qed.

Lemma len_of_valid {C} (self : JaggedArray C) :
  _isvalid self = true -> __len__ self = (Ok (np.len (_starts self)), self).
Proof. intros H. unfold __len__, _valid. run. now rewrite H. Qed.

Lemma argcross_length_mismatch {C D} (garbage : nat -> Z)
    (self : JaggedArray C) (other : JaggedArray D) :
  length (_starts self) <> length (_starts other) ->
  value_of (argcross garbage other) self = Raise ValueError.
Proof.
  intros Hne.
  assert (Hz : (np.len (_starts (validated self)) =? np.len (_starts other)) = false).
  { destruct (validated_same_layout self) as (<- & _).
    apply Z.eqb_neq. unfold np.len. lia. }
  unfold argcross. run.
  destruct (valid_cases self) as [-> | ->]; [|reflexivity].
  rewrite (len_of_valid _ (validated_isvalid self)).
  destruct (len_cases other) as [-> | ->]; [|reflexivity].
  rewrite Hz. reflexivity.
Qed.

(** C9.  For two arrays of the same length whose rows are ranges of
    non-negative int64 bounds, and as long as the number of pairs fits
    int64, [self.argcross(other)] returns a contiguous jagged array (its
    starts and stops are the two views of one offsets array starting at 0)
    whose row [i] has [counts_self[i] * counts_other[i]] items and lists
    the pairs of positions of the two rows in row-major order; for arrays
    of different lengths it raises ValueError. *)
Theorem argcross_contract {C D} (garbage : nat -> Z)
    (self : JaggedArray C) (other : JaggedArray D) :
  (well_formed self -> well_formed other -> ranges self -> ranges other ->
   length (_starts self) = length (_starts other) ->
   total (pair_counts self other) < 2 ^ 63 ->
   exists out other',
     value_of (argcross garbage other) self = Ok (out, other')
     /\ _offsets out = Some (util.counts2offsets (pair_counts self other))
     /\ _starts out = np.upto_last (util.counts2offsets (pair_counts self other))
     /\ _stops out = np.from1 (util.counts2offsets (pair_counts self other))
     /\ spans (_starts out) (_stops out) = pair_counts self other
     /\ table_rows out = row_pairs self other)
  /\ (length (_starts self) <> length (_starts other) ->
      value_of (argcross garbage other) self = Raise ValueError).
Proof.
  split.
  - apply argcross_pairs.
  - apply argcross_length_mismatch.
Qed.

Lemma argcross_contract_witness :
  exists out other',
    value_of (argcross (fun _ => 0) (view [0; 1] [1; 3] (int64s [7; 8; 9])))
      (view [0; 2] [2; 3] (int64s [4; 5; 6])) = Ok (out, other')
    /\ table_rows out = [[(0, 0); (1, 0)]; [(2, 1); (2, 2)]].
Proof.
  destruct (proj1 (argcross_contract (fun _ => 0)
                     (view [0; 2] [2; 3] (int64s [4; 5; 6]))
                     (view [0; 1] [1; 3] (int64s [7; 8; 9]))))
    as (out & other' & Hrun & _ & _ & _ & _ & Hrows).
  - repeat split; try reflexivity. intros c Hc. discriminate Hc.
  - repeat split; try reflexivity. intros c Hc. discriminate Hc.
  - unfold ranges. cbn. repeat constructor; lia.
  - unfold ranges. cbn. repeat constructor; lia.
  - reflexivity.
  - reflexivity.
  - exists out, other'. split; [exact Hrun | exact Hrows].
Defined.

(** The claim of C9 as it is worded, for every two arrays of equal length.
    A [self] with one start and two stops raises IndexError; for two rows
    with counts of 2^32 the int64 product of the counts is 0, and the
    result is one empty row; two rows with the start beyond the stop hold
    no item, and the result lists two pairs of positions. *)
Lemma argcross_outside_contract :
  value_of (argcross (fun _ => 0) (view [0] [1] (int64s [7])))
    (view [0] [1; 2] (int64s [5; 6])) = Raise IndexError
  /\ (exists out other',
        value_of (argcross (fun _ => 0) (view [0] [2 ^ 32] (int64s [7])))
          (view [0] [2 ^ 32] (int64s [5; 6])) = Ok (out, other')
        /\ table_rows out = [[]])
  /\ (exists out other',
        value_of (argcross (fun _ => 0) (view [2] [0] (int64s [7; 8])))
          (view [1] [0] (int64s [5; 6])) = Ok (out, other')
        /\ table_rows out = [[(1, 2); (0, 1)]]).
Proof.
  split; [reflexivity|]. split; eexists; eexists; (split; [vm_compute; reflexivity|reflexivity]).
Qed.

(** ** The validity rule of ByteJaggedArray, in general *)

Lemma divitemsize_quotients (k : Z) (c : list Z) :
  0 < k -> Forall (fun v => 0 <= v < 2 ^ 63) c ->
  _divitemsize k c = map (fun v => v / k) c.
Proof.
  intros Hk Hc. unfold _divitemsize.
  destruct (Z.eqb_spec k 1) as [->|_].
  { rewrite <- (map_id c) at 1. apply map_ext. intros v. now rewrite Z.div_1_r. }
  destruct (Z.eqb_spec k 2) as [->|_].
  { apply map_ext. intros v. now rewrite Z.shiftr_div_pow2. }
  destruct (Z.eqb_spec k 4) as [->|_].
  { apply map_ext. intros v. now rewrite Z.shiftr_div_pow2. }
  destruct (Z.eqb_spec k 8) as [->|_].
  { apply map_ext. intros v. now rewrite Z.shiftr_div_pow2. }
  apply map_ext_in. intros v Hv.
  rewrite Forall_forall in Hc. specialize (Hc v Hv).
  apply wrap64_small. split.
  - pose proof (Z.div_pos v k). lia.
  - apply Z.div_lt_upper_bound; nia.
Qed.

Lemma valid_at_S (d : nat) (k : Z) :
  valid_at (S d) k
  = bind get (fun self =>
      if _isvalid self then ret tt
      else
        bind _valid (fun _ =>
        bind (counts_by (valid_at d k)) (fun c =>
        let scaled := map (fun v => np.wrap64 (v * k)) (_divitemsize k c) in
        bind (counts_by (valid_at d k)) (fun c' =>
        bind (lift (np.ne scaled c')) (fun differs =>
        if negb (np.all differs) then raise ValueError
        else modify mark_valid))))).
Proof. reflexivity. Qed.

Lemma valid_at_valid (d : nat) (k : Z) (s : JaggedArray np.ndarray) :
  _isvalid s = true -> valid_at (S d) k s = (Ok tt, s).
Proof. intros H. rewrite valid_at_S. run. now rewrite H. Qed.

Lemma all_map {A} (f : A -> bool) (l : list A) : np.all (map f l) = forallb f l.
Proof. unfold np.all. induction l; cbn; [reflexivity | now rewrite IHl]. Qed.

Lemma multiples_test (k : Z) (c : list Z) :
  0 < k -> Forall (fun v => 0 <= v < 2 ^ 63) c ->
  np.ne (map (fun v => np.wrap64 (v * k)) (map (fun v => v / k) c)) c
  = Ok (map (fun v => negb (v mod k =? 0)) c).
Proof.
  intros Hk Hc. unfold np.ne.
  rewrite broadcast2_same by now rewrite !length_map.
  f_equal. induction Hc as [|v c Hv Hc IH]; [reflexivity|].
  cbn [map combine fst snd]. rewrite IH. f_equal.
  assert (Hq : 0 <= v / k * k <= v).
  { pose proof (Z.mul_div_le v k Hk). pose proof (Z.div_pos v k). nia. }
  rewrite wrap64_small by lia. f_equal.
  rewrite Z.mod_eq by lia.
  destruct (Z.eqb_spec (v / k * k) v), (Z.eqb_spec (v - k * (v / k)) 0); try reflexivity; lia.
Qed.

(** For a view not yet validated whose rows are ranges, validation
    succeeds exactly when no row's byte span is a multiple of the item
    size, and raises ValueError as soon as one is. *)
Theorem byte_validation_rule (self : ByteJaggedArray) :
  0 < _subdtype_itemsize self ->
  _isvalid (jagged self) = false ->
  _counts (jagged self) = None ->
  ranges (jagged self) ->
  value_of Byte_valid self
  = if forallb (fun c => negb (c mod _subdtype_itemsize self =? 0))
         (spans (_starts (jagged self)) (_stops (jagged self)))
    then Ok tt else Raise ValueError.
Proof.
  destruct self as [j k]. cbn [jagged _subdtype_itemsize].
  intros Hk Hv Hc Hr.
  pose proof (Forall2_length Hr) as Hlen.
  unfold Byte_valid, inherited. run. cbn [jagged _subdtype_itemsize].
  unfold recursion_limit. rewrite (valid_at_S 999 k). run. rewrite Hv.
  rewrite (valid_validated j Hlen). unfold validated. rewrite Hv.
  unfold counts_by at 1. run. cbn [mark_valid _counts _isvalid _starts _stops].
  rewrite Hc.
  rewrite (valid_at_valid 998 k) by reflexivity.
  cbn [mark_valid _counts _isvalid _starts _stops].
  rewrite (ranges_sub _ _ Hr).
  unfold counts_by. run. cbn [cache_counts _counts _starts _stops].
  set (c := spans (_starts j) (_stops j)).
  assert (Hb : Forall (fun v => 0 <= v < 2 ^ 63) c) by (apply spans_bounds; exact Hr).
  rewrite (divitemsize_quotients k c Hk Hb), (multiples_test k c Hk Hb).
  rewrite all_map.
  destruct (forallb _ c); reflexivity.
Qed.

Lemma byte_validation_rule_witness :
  value_of Byte_valid (byte_view [0; 4] [4; 12] 12 4) = Raise ValueError.
Proof.
  rewrite byte_validation_rule; [reflexivity | reflexivity | reflexivity | reflexivity |].
  unfold ranges. cbn. repeat constructor; lia.
Defined.

(** ** The constructors of ByteJaggedArray *)

(** C3.  No ByteJaggedArray is ever built, so no validation succeeds: the
    constructor raises for every argument (ValueError from the inherited
    setters for a negative start or stop, AttributeError from the setter of
    [subdtype] otherwise), [fromiter] ends in the constructor and raises
    too, and [fromoffsets] and [fromcounts] raise NameError.  In
    particular the constructor raises AttributeError on two rows of 4 and 8
    bytes with item size 4, every span an exact multiple. *)
Theorem byte_array_never_built :
  (forall starts stops content subdtype,
     Byte__init__ starts stops content subdtype
     = if negative_any starts || negative_any stops
       then Raise ValueError else Raise AttributeError)
  /\ (forall tobytes itemsize rows,
        exists e, Byte_fromiter tobytes itemsize rows = Raise e)
  /\ (forall offsets content subdtype,
        Byte_fromoffsets offsets content subdtype = Raise NameError)
  /\ (forall counts content subdtype,
        Byte_fromcounts counts content subdtype = Raise NameError)
  /\ Byte__init__ [0; 4] [4; 12] (repeat 0 12) 4 = Raise AttributeError.
Proof.
  assert (H : forall starts stops content subdtype,
             Byte__init__ starts stops content subdtype
             = if negative_any starts || negative_any stops
               then Raise ValueError else Raise AttributeError).
  { intros starts stops content subdtype. unfold Byte__init__, __init__.
    destruct (negative_any starts); [reflexivity|].
    destruct (negative_any stops); reflexivity. }
  split; [exact H|]. split; [|repeat split; reflexivity].
  intros tobytes itemsize rows. unfold Byte_fromiter.
  destruct (fold_left _ rows ([0], [])) as [offsets content].
  rewrite H. destruct (_ || _); eauto.
Qed.

(** ** Broadcasting through the parents, in general *)

Lemma Forall_firstn_skipn {A} (P : A -> Prop) (n : nat) (l : list A) :
  Forall P l -> Forall P (firstn n l) /\ Forall P (skipn n l).
Proof. intros H. rewrite <- (firstn_skipn n l) in H. now apply Forall_app in H. Qed.

Lemma fill_slice_entries (P : Z -> Prop) (a : list Z) (start stop v : Z) :
  Forall P a -> P v -> Forall P (util.fill_slice a start stop v).
Proof.
  intros Ha Hv. unfold util.fill_slice.
  apply Forall_app. split; [apply (Forall_firstn_skipn P _ a Ha)|].
  apply Forall_app. split; [|apply (Forall_firstn_skipn P _ a Ha)].
  apply Forall_forall. intros x Hx. apply repeat_spec in Hx. now subst.
Qed.

Lemma fill_rows_entries (starts stops parents : list Z) (i : Z) :
  0 <= i ->
  Forall (fun x => -1 <= x < i) parents ->
  Forall (fun x => -1 <= x < i + np.len starts) (util.fill_rows parents i starts stops).
Proof.
  revert stops parents i.
  induction starts as [|s starts IH]; intros stops parents i Hi Hp.
  - cbn [util.fill_rows]. eapply Forall_impl; [|exact Hp].
    intros x Hx. cbn beta in *. unfold np.len. cbn [length]. lia.
  - destruct stops as [|t stops].
    + cbn [util.fill_rows]. eapply Forall_impl; [|exact Hp].
      intros x Hx. cbn beta in *. unfold np.len. cbn [length]. lia.
    + cbn [util.fill_rows].
      replace (i + np.len (s :: starts)) with (i + 1 + np.len starts)
        by (unfold np.len; cbn [length]; lia).
      apply IH; [lia|].
      apply fill_slice_entries; [|lia].
      eapply Forall_impl; [|exact Hp]. intros x Hx. cbn beta in *. lia.
Qed.

Lemma full_entries (n i : Z) : 0 <= i -> Forall (fun x => -1 <= x < i) (np.full n (-1)).
Proof.
  intros Hi. unfold np.full. apply Forall_forall. intros x Hx.
  apply repeat_spec in Hx. subst. lia.
Qed.

Lemma offsets2parents_entries (offsets : list Z) :
  Forall (fun x => -1 <= x < np.len (np.upto_last offsets)) (util.offsets2parents offsets).
Proof.
  unfold util.offsets2parents.
  apply (fill_rows_entries (np.upto_last offsets) (np.from1 offsets) _ 0); [lia|].
  apply full_entries. lia.
Qed.

Lemma startsstops2parents_entries (starts stops : list Z) :
  Forall (fun x => -1 <= x < np.len starts) (util.startsstops2parents starts stops).
Proof.
  unfold util.startsstops2parents.
  apply (fill_rows_entries starts stops _ 0); [lia|]. apply full_entries. lia.
Qed.

Lemma upto_last_snoc {A} (l : list A) (x : A) : np.upto_last (l ++ [x]) = l.
Proof. apply removelast_last. Qed.

(** The getter of parents on a view with at least one row whose caches of
    offsets and parents are empty. *)
Lemma parents_cold {C} (oa : list Z -> list Z -> option (list Z)) (self : JaggedArray C) :
  aliasing oa ->
  length (_starts self) = length (_stops self) ->
  _starts self <> [] ->
  _offsets self = None -> _parents self = None ->
  exists p self',
    parents_by oa _valid self = (Ok p, self')
    /\ _parents self' = Some p
    /\ same_layout self self'
    /\ Forall (fun x => -1 <= x < np.len (_starts self)) p.
Proof.
  intros Ha Hlen Hne Ho Hp.
  destruct (validated_same_layout self) as (Ev1 & Ev2 & Ev3).
  assert (Hv2 : _valid (validated self) = (Ok tt, validated self)).
  { unfold _valid. run. now rewrite validated_isvalid. }
  assert (Hvo : _offsets (validated self) = None)
    by (unfold validated; destruct (_isvalid self); assumption).
  unfold parents_by. run. rewrite Hp, (valid_validated self Hlen).
  unfold offsets_by. run. rewrite Hvo, Hv2. rewrite <- Ev1, <- Ev2.
  destruct (oa (_starts self) (_stops self)) as [base|] eqn:Eo.
  - destruct (Ha _ _ _ Eo) as (Es & _ & _).
    eexists. eexists. split; [reflexivity|].
    split; [reflexivity|]. split; [repeat split; cbn; auto|].
    replace (np.len (_starts self)) with (np.len (np.upto_last base)) by now rewrite <- Es.
    apply offsets2parents_entries.
  - destruct (np.array_equal (np.from1 (_starts self)) (np.upto_last (_stops self))).
    + rewrite (item_last (_stops self) 0)
        by (intros E; apply Hne; destruct (_starts self); [reflexivity|];
            rewrite E in Hlen; discriminate).
      eexists. eexists. split; [reflexivity|].
      split; [reflexivity|]. split; [repeat split; cbn; auto|].
      replace (np.len (_starts self))
        with (np.len (np.upto_last (_starts self ++ [last (_stops self) 0])))
        by now rewrite upto_last_snoc.
      apply offsets2parents_entries.
    + eexists. eexists. split; [reflexivity|].
      split; [reflexivity|]. split; [repeat split; cbn; auto|].
      cbn [fst snd]. rewrite <- Ev1. apply startsstops2parents_entries.
Qed.

Lemma parents_cached {C} (oa : list Z -> list Z -> option (list Z))
    (self : JaggedArray C) (p : list Z) :
  _parents self = Some p -> parents_by oa _valid self = (Ok p, self).
Proof. intros H. unfold parents_by. run. now rewrite H. Qed.

Lemma select_entries {A} (P : A -> Prop) (m : list bool) (a : list A) :
  Forall P a -> Forall P (np.select m a).
Proof.
  intros H. revert m. induction H as [|x a Hx H IH]; intros [|[] m]; cbn; auto.
Qed.

Lemma select_nonnegative (p : list Z) :
  Forall (fun x => 0 <= x) (np.select (nonnegative p) p).
Proof.
  unfold nonnegative. induction p as [|x p IH]; cbn; [constructor|].
  destruct (Z.leb_spec 0 x); cbn; auto.
Qed.

Lemma count_true_select (p : list Z) :
  np.count_true (nonnegative p) = length (np.select (nonnegative p) p).
Proof.
  unfold np.count_true, nonnegative. induction p as [|x p IH]; cbn; [reflexivity|].
  destruct (0 <=? x); cbn; now rewrite IH.
Qed.

Lemma place_select (f : Z -> Z) (p a : list Z) :
  length a = length p ->
  np.place (nonnegative p) a (map f (np.select (nonnegative p) p))
  = map (fun q => if 0 <=? fst q then f (fst q) else snd q) (combine p a).
Proof.
  unfold nonnegative. revert a.
  induction p as [|x p IH]; intros [|y a] H; cbn in H; try lia; [reflexivity|].
  cbn [map combine fst snd np.place np.select].
  destruct (0 <=? x); cbn [map np.place np.select]; rewrite IH by lia; reflexivity.
Qed.

Lemma empty_length (garbage : nat -> Z) (n : Z) : length (empty garbage n) = Z.to_nat n.
Proof. unfold empty. now rewrite length_map, length_seq. Qed.

(** C8, the part on the values.  On a view with at least one row and
    empty caches of offsets and parents, broadcasting a flat value with one
    item per row gives every content position whose parent is [p >= 0] the
    item [p] of the flat value; a position whose parent is -1 keeps what
    [numpy.empty] left there.  Starts and stops are those of the view. *)
Theorem broadcast_by_parents (oa : list Z -> list Z -> option (list Z))
    (garbage : nat -> Z) (dt : np.dtype) (self : JaggedArray np.ndarray) (d : list Z) :
  aliasing oa ->
  length (_starts self) = length (_stops self) ->
  _starts self <> [] ->
  _offsets self = None -> _parents self = None ->
  length d = length (_starts self) ->
  exists p out,
    value_of (parents_by oa _valid) self = Ok p
    /\ value_of (_broadcast oa garbage dt (np.Values d)) self = Ok out
    /\ _starts out = _starts self /\ _stops out = _stops self
    /\ _content out = np.array dt (broadcast_content garbage p d)
    /\ (forall j, (j < length p)%nat -> 0 <= nth j p (-1) ->
          nth j (np.data (_content out)) 0 = nth (Z.to_nat (nth j p (-1))) d 0).
Proof.
  intros Ha Hlen Hne Ho Hp Hd.
  destruct (parents_cold oa self Ha Hlen Hne Ho Hp) as (p & s' & Hrun & Hc & (E1 & E2 & E3) & Hr).
  pose proof (parents_cached oa s' p Hc) as Hrun'.
  assert (Hsel : Forall (fun x => 0 <= x < np.len d) (np.select (nonnegative p) p)).
  { pose proof (select_nonnegative p) as H1.
    pose proof (select_entries _ (nonnegative p) p Hr) as H2.
    rewrite Forall_forall in *. intros x Hx. specialize (H1 x Hx). specialize (H2 x Hx).
    cbn beta in *. unfold np.len in *. lia. }
  exists p. eexists. split; [unfold value_of; now rewrite Hrun|].
  unfold _broadcast. run. rewrite Hrun, !Hrun'.
  unfold np.compress, nonnegative at 1. rewrite length_map, Nat.eqb_refl.
  rewrite <- (map_id (np.select (nonnegative p) p)) at 1.
  rewrite (take_map d 0 (fun x => x) _ Hsel).
  unfold np.setitem_mask. unfold nonnegative at 1.
  rewrite length_map, empty_length. unfold np.len. rewrite Nat2Z.id, Nat.eqb_refl.
  fold (nonnegative p).
  rewrite spread_values by (now rewrite count_true_select, length_map).
  cbn [rbind].
  rewrite place_select by (rewrite empty_length; lia).
  unfold copy, set_content. run. cbn [rbind fst snd]. rewrite Hrun'. cbn [fst].
  split; [reflexivity|]. cbn [cache_parents _starts _stops _content np.data].
  split; [now rewrite E1|]. split; [now rewrite E2|].
  split; [reflexivity|].
  intros j Hj Hpos.
  set (f := fun q : Z * Z => if 0 <=? fst q then nth (Z.to_nat (fst q)) d 0 else snd q).
  rewrite (nth_indep _ 0 (f (-1, 0)))
    by (rewrite length_map, length_combine, empty_length; lia).
  rewrite map_nth, nth_combine by (rewrite ?empty_length; lia).
  unfold f. cbn [fst snd].
  destruct (Z.leb_spec 0 (nth j p (-1))); [reflexivity | lia].
Qed.

Lemma broadcast_by_parents_witness :
  exists p out,
    value_of (parents_by no_alias _valid) (view [0; 2] [1; 3] (int64s [4; 5; 6])) = Ok p
    /\ value_of (_broadcast no_alias (fun k => Z.of_nat k) np.int64 (np.Values [7; 8]))
         (view [0; 2] [1; 3] (int64s [4; 5; 6])) = Ok out
    /\ _content out = np.array np.int64 (broadcast_content (fun k => Z.of_nat k) p [7; 8]).
Proof.
  destruct (broadcast_by_parents no_alias (fun k => Z.of_nat k) np.int64
              (view [0; 2] [1; 3] (int64s [4; 5; 6])) [7; 8] no_alias_aliasing)
    as (p & out & H1 & H2 & _ & _ & H3 & _);
    try reflexivity; try discriminate.
  exists p, out. auto.
Defined.

(** ** Empty rows on the contiguous path, when [reduceat] goes through *)

Lemma offsets_fills_cache {C} (oa : list Z -> list Z -> option (list Z))
    (self self' : JaggedArray C) (o : list Z) :
  offsets oa self = (Ok o, self') -> _offsets self' = Some o.
Proof.
  unfold offsets, offsets_by. run.
  destruct (_offsets self) as [v|] eqn:Ev.
  - intros [= <- <-]. exact Ev.
  - destruct (_valid self) as [[[]|e] s1]; [|discriminate].
    destruct (oa (_starts s1) (_stops s1)) as [base|].
    + intros [= <- <-]. reflexivity.
    + destruct (np.array_equal _ _); [|discriminate].
      destruct (np.item (_stops s1) (-1)); [|discriminate].
      intros [= <- <-]. reflexivity.
Qed.

Lemma offsets_cached {C} (oa : list Z -> list Z -> option (list Z))
    (self : JaggedArray C) (o : list Z) :
  _offsets self = Some o -> offsets oa self = (Ok o, self).
Proof. intros H. unfold offsets, offsets_by. run. now rewrite H. Qed.

Lemma reduceat_from_length (f : Z -> Z -> Z) (a idx out : list Z) :
  np.reduceat_from f a idx = Ok out -> length out = length idx.
Proof.
  revert out. induction idx as [|i idx IH]; intros out; cbn [np.reduceat_from].
  - intros [= <-]. reflexivity.
  - destruct (match idx with [] => _ | _ => _ end); [|discriminate]. cbn [rbind].
    destruct (np.reduceat_from f a idx) as [xs|]; [|discriminate]. cbn [rbind].
    intros [= <-]. cbn. f_equal. now apply IH.
Qed.

Lemma place_scalar (mask : list bool) (a : list Z) (v : Z) (i : nat) :
  length mask = length a -> nth i mask false = true ->
  nth i (np.place mask a (repeat v (np.count_true mask))) 0 = v.
Proof.
  revert a i. induction mask as [|b mask IH]; intros [|x a] i Hlen Hi; cbn in Hlen; try lia.
  - destruct i; discriminate.
  - destruct b, i as [|i]; cbn in Hi; try discriminate.
    + reflexivity.
    + unfold np.count_true. cbn [filter length repeat np.place nth].
      apply IH; [lia | exact Hi].
    + unfold np.count_true. cbn [filter np.place nth].
      apply IH; [lia | exact Hi].
Qed.

(** Whenever the contiguous path of a reduction returns, the item of every
    empty row (two equal consecutive offsets) is the identity written
    after [reduceat]. *)
Lemma reduce_offsets_empty_rows (oa : list Z -> list Z -> option (list Z))
    (f : Z -> Z -> Z) (v : Z) (self self' : JaggedArray np.ndarray) (out : list Z) :
  reduce_offsets oa f (Ok v) self = (Ok out, self') ->
  exists o,
    _offsets self' = Some o
    /\ length out = length (np.upto_last o)
    /\ forall i, nth i (np.from1 o) 0 = nth i (np.upto_last o) 0 ->
         (i < length (np.from1 o))%nat -> (i < length (np.upto_last o))%nat ->
         nth i out 0 = v.
Proof.
  unfold reduce_offsets. run.
  destruct (np.item (_starts self) 0); [|discriminate].
  destruct (np.item (_stops self) (-1)); [|discriminate].
  destruct (offsets oa self) as [[o|e] s1] eqn:Eo; [|discriminate].
  pose proof (offsets_fills_cache oa self s1 o Eo) as Hc.
  destruct (np.reduceat _ _ _) as [red|] eqn:Er; [|discriminate].
  rewrite !(offsets_cached oa s1 o Hc).
  unfold np.eq, np.broadcast2.
  destruct (length (np.from1 o) =? length (np.upto_last o))%nat eqn:El.
  - apply Nat.eqb_eq in El.
    unfold np.setitem_mask.
    assert (Hred : length red = length (np.upto_last o)).
    { unfold np.reduceat in Er. destruct (forallb _ _); [|discriminate].
      now apply reduceat_from_length in Er. }
    rewrite length_map, length_combine, El, Nat.min_id, Hred, Nat.eqb_refl.
    cbn [np.spread rbind]. intros [= <- <-].
    exists o. split; [exact Hc|]. split.
    { clear - Hred El.
      set (mask := map _ _).
      assert (Hm : length mask = length red)
        by (unfold mask; rewrite length_map, length_combine; lia).
      rewrite <- Hred. clear - Hm. revert red Hm.
      generalize (repeat v (np.count_true mask)).
      induction mask as [|b mask IH]; intros vals [|x red] Hm; cbn in Hm; try lia;
        [reflexivity|].
      destruct b, vals; cbn [np.place length]; f_equal; apply IH; lia. }
    intros i Hi H1 H2.
    apply place_scalar.
    + rewrite length_map, length_combine. lia.
    + set (g := fun p : Z * Z => fst p =? snd p).
      rewrite (nth_indep _ false (g (0, 0))) by (rewrite length_map, length_combine; lia).
      rewrite map_nth, nth_combine by lia. unfold g. cbn [fst snd].
      now apply Z.eqb_eq.
  - destruct o as [|x [|y [|z o]]]; cbn in El; try discriminate.
Qed.

(** ** Empty rows on the general path *)

Lemma update_nth (a : list Z) (k j : nat) (v : Z) :
  j <> k -> nth j (np.update a k v) 0 = nth j a 0.
Proof.
  revert k j. induction a as [|x a IH]; intros [|k] [|j] H; cbn; try reflexivity; try lia.
  apply IH. lia.
Qed.

Lemma setitem_single (a a' : list Z) (i v : Z) :
  0 <= i -> np.setitem_take a [i] (np.Scalar v) = Ok a' ->
  forall j, j <> Z.to_nat i -> nth j a' 0 = nth j a 0.
Proof.
  intros Hi. unfold np.setitem_take. cbn [np.spread length repeat rbind np.norm_indexes].
  unfold np.norm_index.
  replace (i <? 0) with false by (symmetry; apply Z.ltb_ge; lia).
  destruct ((0 <=? i) && (i <? Z.of_nat (length a))); [|discriminate].
  cbn [rbind np.put]. intros [= <-] j Hj. now apply update_nth.
Qed.

(** The loop of the general paths leaves the item of an empty row as it
    was before the loop: the identity the output array was filled with. *)
Lemma each_row_keeps (step : Z -> list Z -> result Z) (content stops : list Z)
    (starts : list Z) (i : Z) (flatout out : list Z) :
  0 <= i ->
  each_row step content stops i starts flatout = Ok out ->
  (forall j, Z.of_nat j < i -> nth j out 0 = nth j flatout 0)
  /\ (forall k s, nth_error starts k = Some s ->
        np.item stops (i + Z.of_nat k) = Ok s ->
        nth (Z.to_nat (i + Z.of_nat k)) out 0 = nth (Z.to_nat (i + Z.of_nat k)) flatout 0).
Proof.
  revert i flatout. induction starts as [|s starts IH]; intros i flatout Hi; cbn [each_row].
  - intros [= <-]. split; [reflexivity|]. intros [|k] s' H; discriminate H.
  - destruct (np.item stops i) as [t|] eqn:Et; [|discriminate]. cbn [rbind].
    destruct (negb (s =? t)) eqn:Ene.
    + destruct (np.item flatout i) as [old|]; [|discriminate]. cbn [rbind].
      destruct (step old _) as [new|]; [|discriminate]. cbn [rbind].
      destruct (np.setitem_take flatout [i] (np.Scalar new)) as [f1|] eqn:Es; [|discriminate].
      cbn [rbind]. intros Hrun.
      destruct (IH (i + 1) f1 ltac:(lia) Hrun) as (Hlow & Hrows).
      pose proof (setitem_single flatout f1 i new Hi Es) as Hset.
      split.
      * intros j Hj. rewrite Hlow by lia. apply Hset. lia.
      * intros [|k] s' Hk Hitem.
        -- cbn in Hk. injection Hk as <-. rewrite Z.add_0_r in Hitem.
           rewrite Et in Hitem. injection Hitem as <-.
           rewrite Z.eqb_refl in Ene. discriminate.
        -- cbn [nth_error] in Hk.
           replace (i + Z.of_nat (S k)) with (i + 1 + Z.of_nat k) in * by lia.
           rewrite (Hrows k s' Hk Hitem). apply Hset. lia.
    + cbn [rbind]. intros Hrun.
      destruct (IH (i + 1) flatout ltac:(lia) Hrun) as (Hlow & Hrows).
      split.
      * intros j Hj. apply Hlow. lia.
      * intros [|k] s' Hk Hitem.
        -- rewrite Z.add_0_r. apply Hlow. lia.
        -- cbn [nth_error] in Hk.
           replace (i + Z.of_nat (S k)) with (i + 1 + Z.of_nat k) in * by lia.
           exact (Hrows k s' Hk Hitem).
Qed.

(** ** Indexing by an integer, a slice or an array *)

Lemma item_cases {A} (a : list A) (i : Z) (d : A) :
  np.item a i =
    if (- np.len a <=? i) && (i <? np.len a)
    then Ok (nth (Z.to_nat (if i <? 0 then i + np.len a else i)) a d)
    else Raise IndexError.
Proof.
  unfold np.item, np.norm_index, np.len.
  destruct (i <? 0) eqn:Ei.
  - apply Z.ltb_lt in Ei.
    destruct (0 <=? i + Z.of_nat (length a)) eqn:E1.
    + apply Z.leb_le in E1.
      replace (i + Z.of_nat (length a) <? Z.of_nat (length a)) with true
        by (symmetry; apply Z.ltb_lt; lia).
      replace (- Z.of_nat (length a) <=? i) with true by (symmetry; apply Z.leb_le; lia).
      replace (i <? Z.of_nat (length a)) with true by (symmetry; apply Z.ltb_lt; lia).
      cbn [andb rbind].
      destruct (nth_error a (Z.to_nat (i + Z.of_nat (length a)))) as [x|] eqn:E.
      * f_equal. symmetry. now apply nth_error_nth.
      * apply nth_error_None in E. lia.
    + apply Z.leb_gt in E1.
      replace (- Z.of_nat (length a) <=? i) with false by (symmetry; apply Z.leb_gt; lia).
      reflexivity.
  - apply Z.ltb_ge in Ei.
    replace (0 <=? i) with true by (symmetry; apply Z.leb_le; lia).
    replace (- Z.of_nat (length a) <=? i) with true by (symmetry; apply Z.leb_le; lia).
    cbn [andb].
    destruct (i <? Z.of_nat (length a)) eqn:E2; [|reflexivity].
    apply Z.ltb_lt in E2. cbn [rbind].
    destruct (nth_error a (Z.to_nat i)) as [x|] eqn:E.
    + f_equal. symmetry. now apply nth_error_nth.
    + apply nth_error_None in E. lia.
Qed.

(** X1.  [view[i]] for an integer [i], on a view with as many stops as
    starts: row [i] of the view as a flat array of the dtype of the
    content, a negative [i] counting from the last row; an [i] outside
    [-len(view), len(view)) raises IndexError. *)
Theorem getitem_row (self : JaggedArray np.ndarray) (i : Z) :
  length (_starts self) = length (_stops self) ->
  value_of (getitem (Index i) []) self =
    if (- np.len (_starts self) <=? i) && (i <? np.len (_starts self))
    then Ok (Items (np.array (np.dtype_of (_content self))
                      (nth (Z.to_nat (if i <? 0 then i + np.len (_starts self) else i))
                           (rows_of self) [])))
    else Raise IndexError.
Proof.
  intros Hlen. unfold getitem. run. rewrite (valid_validated self Hlen).
  destruct (validated_same_layout self) as (E1 & E2 & E3).
  rewrite <- E1, <- E2, <- E3.
  rewrite (item_cases (_starts self) i 0), (item_cases (_stops self) i 0).
  unfold np.len. rewrite <- Hlen.
  destruct ((- Z.of_nat (length (_starts self)) <=? i) && (i <? Z.of_nat (length (_starts self)))) eqn:E;
    [|reflexivity].
  cbn [array_getitem]. do 3 f_equal.
  apply andb_true_iff in E as [Ea Eb]. apply Z.leb_le in Ea. apply Z.ltb_lt in Eb.
  unfold rows_of.
  erewrite nth_map_combine with (dx := 0) (dy := 0); [reflexivity| |];
    destruct (i <? 0) eqn:Ei; try apply Z.ltb_lt in Ei; try apply Z.ltb_ge in Ei; lia.
Qed.

(** X2.  [view[i, j]] for integers [i] and [j], on a view with as many
    stops as starts: item [j] of row [i], a negative [j] counting from the
    end of that row; IndexError when [i] names no row or [j] no item of the
    row. *)
Theorem getitem_row_item (self : JaggedArray np.ndarray) (i j : Z) :
  length (_starts self) = length (_stops self) ->
  value_of (getitem (Index i) [Index j]) self =
    if (- np.len (_starts self) <=? i) && (i <? np.len (_starts self))
    then
      let row := nth (Z.to_nat (if i <? 0 then i + np.len (_starts self) else i))
                     (rows_of self) [] in
      if in_row j row then Ok (Item (row_item j row)) else Raise IndexError
    else Raise IndexError.
Proof.
  intros Hlen. unfold getitem. run. rewrite (valid_validated self Hlen).
  destruct (validated_same_layout self) as (E1 & E2 & E3).
  rewrite <- E1, <- E2, <- E3.
  rewrite (item_cases (_starts self) i 0), (item_cases (_stops self) i 0).
  unfold np.len. rewrite <- Hlen.
  destruct ((- Z.of_nat (length (_starts self)) <=? i) && (i <? Z.of_nat (length (_starts self)))) eqn:E;
    [|reflexivity].
  cbv zeta. cbn [array_getitem np.data].
  apply andb_true_iff in E as [Ea Eb]. apply Z.leb_le in Ea. apply Z.ltb_lt in Eb.
  set (k := Z.to_nat (if i <? 0 then i + Z.of_nat (length (_starts self)) else i)).
  assert (Hk : (k < length (_starts self))%nat).
  { subst k. destruct (i <? 0) eqn:Ei; try apply Z.ltb_lt in Ei; try apply Z.ltb_ge in Ei; lia. }
  unfold rows_of.
  rewrite (nth_map_combine _ _ _ k [] 0 0) by lia. cbn [fst snd].
  rewrite (item_cases _ j 0). unfold in_row, row_item, np.len.
  destruct (_ && _); reflexivity.
Qed.

Lemma item_map {A B} (f : A -> B) (a : list A) (i : Z) :
  np.item (map f a) i = let* x := np.item a i in Ok (f x).
Proof.
  unfold np.item. rewrite length_map.
  destruct (np.norm_index (length a) i) as [k|e]; [|reflexivity]. cbn [rbind].
  rewrite nth_error_map. destruct (nth_error a k); reflexivity.
Qed.

Lemma select_map {A B} (f : A -> B) (m : list bool) (a : list A) :
  np.select m (map f a) = map f (np.select m a).
Proof.
  revert a. induction m as [|[] m IH]; intros [|x a]; cbn; try reflexivity; now rewrite IH.
Qed.

Lemma pick_map {A B} (f : A -> B) (a : list A) (k : rows_key) :
  pick (map f a) k = let* l := pick a k in Ok (map f l).
Proof.
  destruct k as [start stop|idx|m]; cbn [pick rbind].
  - rewrite slice_map. unfold np.len. now rewrite length_map.
  - induction idx as [|i idx IH]; cbn [np.take rbind map]; [reflexivity|].
    rewrite item_map. destruct (np.item a i); [|reflexivity]. cbn [rbind].
    rewrite IH. destruct (np.take a idx); reflexivity.
  - unfold np.compress. rewrite length_map.
    destruct (_ =? _)%nat; [|reflexivity]. cbn [rbind]. now rewrite select_map.
Qed.

Lemma skipn_combine {A B} (n : nat) (a : list A) (b : list B) :
  skipn n (combine a b) = combine (skipn n a) (skipn n b).
Proof.
  revert a b. induction n as [|n IH]; intros [|x a] [|y b]; cbn; try reflexivity.
  - now destruct (skipn n a).
  - apply IH.
Qed.

Lemma item_combine {A B} (a : list A) (b : list B) (i : Z) :
  length a = length b ->
  np.item (combine a b) i = let* x := np.item a i in let* y := np.item b i in Ok (x, y).
Proof.
  intros H. unfold np.item. rewrite length_combine, <- H, Nat.min_id.
  destruct (np.norm_index (length a) i) as [k|e]; [|reflexivity]. cbn [rbind].
  clear i. revert b k H. induction a as [|x a IH]; intros [|y b] k H; cbn in H; try lia.
  - now destruct k.
  - destruct k as [|k]; cbn; [reflexivity|]. apply IH. lia.
Qed.

Lemma select_combine {A B} (m : list bool) (a : list A) (b : list B) :
  np.select m (combine a b) = combine (np.select m a) (np.select m b).
Proof.
  revert a b. induction m as [|[] m IH]; intros [|x a] [|y b]; cbn; try reflexivity;
    try (now rewrite IH); now destruct (np.select m a).
Qed.

Lemma slice_combine {A B} (a : list A) (b : list B) (lo hi : Z) :
  length a = length b ->
  np.slice (combine a b) lo hi = combine (np.slice a lo hi) (np.slice b lo hi).
Proof.
  intros H. unfold np.slice, np.len. rewrite length_combine, <- H, Nat.min_id.
  now rewrite skipn_combine, combine_firstn.
Qed.

Lemma take_combine {A B} (a : list A) (b : list B) (idx : list Z) :
  length a = length b ->
  np.take (combine a b) idx
  = let* x := np.take a idx in let* y := np.take b idx in Ok (combine x y).
Proof.
  intros H. induction idx as [|i idx IH]; cbn [np.take rbind]; [reflexivity|].
  rewrite (item_combine a b i H), IH.
  destruct (np.item a i) as [x|e] eqn:Ea; cbn [rbind].
  - destruct (np.item b i) as [y|e] eqn:Eb; cbn [rbind].
    + destruct (np.take a idx); cbn [rbind]; [|reflexivity].
      destruct (np.take b idx); reflexivity.
    + exfalso. unfold np.item in Ea, Eb. rewrite <- H in Eb.
      destruct (np.norm_index (length a) i) as [k|] eqn:En; [|discriminate].
      cbn [rbind] in Ea, Eb.
      destruct (nth_error a k) eqn:E1; [|discriminate].
      destruct (nth_error b k) eqn:E2; [discriminate|].
      apply nth_error_None in E2.
      assert (nth_error a k <> None) by congruence.
      apply nth_error_Some in H0. lia.
  - reflexivity.
Qed.

Lemma pick_combine {A B} (a : list A) (b : list B) (k : rows_key) :
  length a = length b ->
  pick (combine a b) k
  = let* x := pick a k in let* y := pick b k in Ok (combine x y).
Proof.
  intros H. destruct k as [start stop|idx|m]; cbn [pick rbind].
  - rewrite (slice_combine a b _ _ H). unfold np.len.
    now rewrite length_combine, <- H, Nat.min_id.
  - apply take_combine, H.
  - unfold np.compress. rewrite length_combine, <- H, Nat.min_id.
    destruct (_ =? _)%nat; [|reflexivity]. cbn [rbind]. now rewrite select_combine.
Qed.

Lemma take_entries {A} (P : A -> Prop) (a l : list A) (idx : list Z) :
  Forall P a -> np.take a idx = Ok l -> Forall P l.
Proof.
  intros Ha. revert l. induction idx as [|i idx IH]; intros l; cbn [np.take].
  - intros [= <-]. constructor.
  - destruct (np.item a i) as [x|] eqn:Ei; [|discriminate]. cbn [rbind].
    destruct (np.take a idx) as [xs|]; [|discriminate]. cbn [rbind].
    intros [= <-]. constructor; [|now apply IH].
    unfold np.item in Ei. destruct (np.norm_index _ _) as [k|]; [|discriminate].
    cbn [rbind] in Ei. destruct (nth_error a k) eqn:E; [|discriminate].
    injection Ei as <-. apply nth_error_In in E.
    now apply (proj1 (Forall_forall P a) Ha).
Qed.

Lemma slice_entries {A} (P : A -> Prop) (a : list A) (lo hi : Z) :
  Forall P a -> Forall P (np.slice a lo hi).
Proof.
  intros H. unfold np.slice.
  apply Forall_firstn_skipn. now apply Forall_firstn_skipn.
Qed.

Lemma pick_entries {A} (P : A -> Prop) (a l : list A) (k : rows_key) :
  Forall P a -> pick a k = Ok l -> Forall P l.
Proof.
  intros Ha. destruct k as [start stop|idx|m]; cbn [pick].
  - intros [= <-]. now apply slice_entries.
  - now apply take_entries.
  - unfold np.compress. destruct (_ =? _)%nat; [|discriminate].
    intros [= <-]. now apply select_entries.
Qed.

Lemma pick_same_length {A B} (a x : list A) (b y : list B) (k : rows_key) :
  length a = length b -> pick a k = Ok x -> pick b k = Ok y -> length x = length y.
Proof.
  intros H Hx Hy.
  assert (E : map (fun _ => tt) a = map (fun _ => tt) b).
  { clear Hx Hy. revert b H. induction a as [|u a IH]; intros [|v b] H; cbn in *;
      try lia; [reflexivity|]. f_equal. apply IH. lia. }
  pose proof (pick_map (fun _ => tt) a k) as Pa.
  pose proof (pick_map (fun _ => tt) b k) as Pb.
  rewrite Hx in Pa. rewrite Hy in Pb. cbn [rbind] in Pa, Pb.
  rewrite E, Pb in Pa. injection Pa as Pa.
  rewrite <- (length_map (fun _ => tt) x), <- (length_map (fun _ => tt) y). now rewrite Pa.
Qed.

Lemma negative_any_entries (l : list Z) :
  negative_any l = false -> Forall (fun z => 0 <= z) l.
Proof.
  unfold negative_any. induction l as [|z l IH]; cbn [existsb]; [constructor|].
  intros H. apply orb_false_iff in H as [H1 H2]. apply Z.ltb_ge in H1.
  constructor; auto.
Qed.

(** The node that [__getitem__] builds from the rows a key selected. *)
Lemma copy_rows {C} (self : JaggedArray C) (starts stops : list Z) :
  negative_any starts = false -> negative_any stops = false ->
  copy self (Some starts) (Some stops) None
  = Ok {| _starts := starts; _stops := stops; _content := _content self;
          _offsets := None; _counts := None; _parents := None; _isvalid := false |}.
Proof.
  intros H1 H2. unfold copy, exec, set_starts, set_stops, modify.
  rewrite H1. cbn [rbind]. rewrite H2. reflexivity.
Qed.

(** X3.  [view[k]] for a slice [a:b] without step, an integer array or a
    boolean mask [k], on a view as the setters leave it (no negative start
    or stop, as many stops as starts, a counts cache that agrees with
    them): the rows of the result are the rows of the view indexed by [k]
    as numpy indexes any array, over the same content; the call raises
    exactly when that indexing of the rows raises, with the same
    exception. *)
Theorem getitem_rows (self : JaggedArray np.ndarray) (k : rows_key) :
  well_formed self ->
  match value_of (getitem (Select k) []) self with
  | Ok (Rows out) =>
      pick (rows_of self) k = Ok (rows_of out) /\ _content out = _content self
  | Ok _ => False
  | Raise e => pick (rows_of self) k = Raise e
  end.
Proof.
  intros (Hs & Ht & Hlen & _). unfold getitem. run. rewrite (valid_validated self Hlen).
  destruct (validated_same_layout self) as (E1 & E2 & E3).
  rewrite <- E1, <- E2.
  unfold rows_of at 1 3. rewrite pick_map, (pick_combine _ _ k Hlen).
  destruct (pick (_starts self) k) as [s|e] eqn:Ps; cbn [rbind]; [|reflexivity].
  destruct (pick (_stops self) k) as [t|e] eqn:Pt; cbn [rbind]; [|reflexivity].
  rewrite copy_rows
    by (apply negative_any_false;
        first [ exact (pick_entries _ _ _ k (negative_any_entries _ Hs) Ps)
              | exact (pick_entries _ _ _ k (negative_any_entries _ Ht) Pt) ]).
  cbn [getitem_tail]. unfold exec, _valid, _validstartsstops. run. cbn [_isvalid _starts _stops].
  rewrite (pick_same_length _ _ _ _ k Hlen Ps Pt), Nat.ltb_irrefl. cbn [rbind].
  unfold rows_of, mark_valid. cbn [_starts _stops _content]. rewrite E3. split; reflexivity.
Qed.

(** X5.  A key whose second component is not an integer, after a first
    component that selects rows: the call raises NameError (Python's
    UnboundLocalError, for the name [original_head] in the message of the
    error that was meant), whatever follows in the key; it raises only what
    the selection of the rows raises when that fails. *)
Theorem getitem_second_slice (self : JaggedArray np.ndarray) (k k' : rows_key)
    (tail : list key) :
  well_formed self ->
  value_of (getitem (Select k) (Select k' :: tail)) self
  = let* _ := pick (rows_of self) k in Raise NameError.
Proof.
  intros (Hs & Ht & Hlen & _). unfold getitem. run. rewrite (valid_validated self Hlen).
  destruct (validated_same_layout self) as (E1 & E2 & E3).
  rewrite <- E1, <- E2.
  unfold rows_of. rewrite pick_map, (pick_combine _ _ k Hlen).
  destruct (pick (_starts self) k) as [s|e] eqn:Ps; cbn [rbind]; [|reflexivity].
  destruct (pick (_stops self) k) as [t|e] eqn:Pt; cbn [rbind]; [|reflexivity].
  rewrite copy_rows
    by (apply negative_any_false;
        first [ exact (pick_entries _ _ _ k (negative_any_entries _ Hs) Ps)
              | exact (pick_entries _ _ _ k (negative_any_entries _ Ht) Pt) ]).
  reflexivity.
Qed.

Lemma broadcast2_scalar_r {A B} (f : A -> A -> B) (a : list A) (y : A) :
  np.broadcast2 f a [y] = Ok (map (fun x => f x y) a).
Proof.
  unfold np.broadcast2. destruct a as [|x [|x' a]]; reflexivity.
Qed.

Lemma broadcast2_scalar_l {A B} (f : A -> A -> B) (x : A) (b : list A) :
  np.broadcast2 f [x] b = Ok (map (f x) b).
Proof.
  unfold np.broadcast2. destruct b as [|y [|y' b]]; reflexivity.
Qed.

Lemma slice_length {A} (a : list A) (lo hi : Z) :
  0 <= lo <= hi -> hi <= np.len a -> np.len (np.slice a lo hi) = hi - lo.
Proof.
  intros H1 H2. rewrite slice_bounds by assumption. unfold np.len in *.
  rewrite length_firstn, length_skipn. lia.
Qed.

Lemma nth_slice {A} (a : list A) (lo hi : Z) (k : nat) (d : A) :
  0 <= lo <= hi -> hi <= np.len a -> Z.of_nat k < hi - lo ->
  nth k (np.slice a lo hi) d = nth (Z.to_nat lo + k) a d.
Proof.
  intros H1 H2 Hk. rewrite slice_bounds by assumption.
  rewrite nth_firstn.
  replace (k <? Z.to_nat (hi - lo))%nat with true by (symmetry; apply Nat.ltb_lt; lia).
  apply nth_skipn.
Qed.

Lemma map_fst_combine_same {A B} (a : list A) (b : list B) :
  length a = length b -> map fst (combine a b) = a /\ map snd (combine a b) = b.
Proof.
  revert b. induction a as [|x a IH]; intros [|y b] H; cbn in *; try lia; [now split|].
  destruct (IH b) as [-> ->]; [lia | now split].
Qed.

Lemma forallb_ext_in {A} (f g : A -> bool) (l : list A) :
  (forall x, In x l -> f x = g x) -> forallb f l = forallb g l.
Proof.
  induction l as [|x l IH]; intros H; cbn [forallb]; [reflexivity|].
  rewrite (H x (or_introl eq_refl)), IH; [reflexivity|].
  intros y Hy. apply H. now right.
Qed.

Lemma forallb_map_list {A B} (f : B -> bool) (g : A -> B) (l : list A) :
  forallb f (map g l) = forallb (fun x => f (g x)) l.
Proof. induction l as [|x l IH]; cbn; [reflexivity | now rewrite IH]. Qed.

Ltac zbool :=
  repeat match goal with
         | |- context [?a <=? ?b] => destruct (Z.leb_spec a b)
         | |- context [?a <? ?b] => destruct (Z.ltb_spec a b)
         end;
  cbn [andb negb]; try reflexivity; try lia.

(** X4.  [view[k, j]] for a slice, integer array or mask [k] and an int64
    [j], on a view of ranges within its content: the flat array of item [j]
    of every row that [k] selects, a negative [j] counting from the end of
    each row separately; IndexError as soon as one selected row has no such
    item. *)
Theorem getitem_column (self : JaggedArray np.ndarray) (k : rows_key) (j : Z) :
  well_formed self -> ranges self ->
  Forall (fun t => t <= np.len (np.data (_content self))) (_stops self) ->
  - 2 ^ 63 <= j < 2 ^ 63 ->
  value_of (getitem (Select k) [Index j]) self
  = let* rows := pick (rows_of self) k in
    if forallb (in_row j) rows
    then Ok (Items (np.array (np.dtype_of (_content self)) (map (row_item j) rows)))
    else Raise IndexError.
Proof.
  intros (Hs & Ht & Hlen & _) Hr Hb Hj. unfold getitem. run.
  rewrite (valid_validated self Hlen).
  destruct (validated_same_layout self) as (E1 & E2 & E3).
  rewrite <- E1, <- E2.
  set (content := np.data (_content self)) in *.
  set (Q := fun p : Z * Z => 0 <= fst p <= snd p /\ snd p < 2 ^ 63 /\ snd p <= np.len content).
  assert (HQ : Forall Q (combine (_starts self) (_stops self))).
  { unfold ranges in Hr. clear - Hr Hb. subst Q.
    induction Hr as [|s t ss ts Hst Hr IH]; cbn [combine]; [constructor|].
    apply Forall_cons_iff in Hb as [Hb1 Hb2]. constructor; [cbn; lia | auto]. }
  unfold rows_of. fold content. rewrite pick_map.
  pose proof (pick_combine (_starts self) (_stops self) k Hlen) as Pc.
  destruct (pick (_starts self) k) as [s|e] eqn:Ps; cbn [rbind] in *;
    [|rewrite Pc; reflexivity].
  destruct (pick (_stops self) k) as [t|e] eqn:Pt; cbn [rbind] in *;
    [|rewrite Pc; reflexivity].
  rewrite Pc. cbn [rbind].
  rewrite copy_rows
    by (apply negative_any_false;
        first [ exact (pick_entries _ _ _ k (negative_any_entries _ Hs) Ps)
              | exact (pick_entries _ _ _ k (negative_any_entries _ Ht) Pt) ]).
  pose proof (pick_entries Q _ _ k HQ Pc) as HQ'.
  destruct (map_fst_combine_same s t (pick_same_length _ _ _ _ k Hlen Ps Pt)) as [Fs Ft].
  revert HQ' Fs Ft. generalize (combine s t). intros pairs HQ' <- <-. clear Ps Pt Pc HQ.
  cbn [getitem_tail _starts _stops _content]. rewrite <- E3. fold content.
  unfold np.sub, np.add. rewrite broadcast2_map. cbn [rbind].
  set (c := fun p : Z * Z => np.wrap64 (snd p - fst p)).
  set (h := fun p : Z * Z => if j <? 0 then np.wrap64 (c p + j) else j).
  assert (Hc : forall p, Q p -> c p = snd p - fst p).
  { intros p (H1 & H2 & H3). subst c. cbv beta. apply wrap64_small. lia. }
  assert (Hh : forall p, Q p -> h p = if j <? 0 then snd p - fst p + j else j).
  { intros p Hp. subst h. cbv beta. rewrite (Hc p Hp).
    destruct (j <? 0) eqn:Ej; [|reflexivity]. apply Z.ltb_lt in Ej.
    destruct Hp as (H1 & H2 & H3). apply wrap64_small. lia. }
  assert (Hin : forall p, Q p ->
            (0 <=? h p) && (h p <? c p)
            = in_row j (np.slice content (fst p) (snd p))).
  { intros p Hp. rewrite (Hh p Hp), (Hc p Hp). unfold in_row.
    destruct Hp as (H1 & H2 & H3). rewrite slice_length by lia.
    destruct (j <? 0) eqn:Ej; [apply Z.ltb_lt in Ej | apply Z.ltb_ge in Ej]; zbool. }
  assert (Ehead :
    (let* head := (if j <? 0 then np.broadcast2 (fun x y => np.wrap64 (x + y)) (map c pairs) [j]
                   else Ok [j]) in
     let* inside := np.broadcast2 (fun h0 c0 => (0 <=? h0) && (h0 <? c0)) head (map c pairs) in
     if negb (np.all inside) then Raise IndexError
     else
       let* places := np.broadcast2 (fun x y => np.wrap64 (x + y)) (map fst pairs) head in
       let* items := np.take content places in
       array_getitem (np.array (np.dtype_of (_content self)) items) [])
    = (if negb (np.all (map (fun p => (0 <=? h p) && (h p <? c p)) pairs))
       then Raise IndexError
       else
         let* items := np.take content (map (fun p => np.wrap64 (fst p + h p)) pairs) in
         Ok (Items (np.array (np.dtype_of (_content self)) items)))).
  { subst h. cbv beta. destruct (j <? 0) eqn:Ej.
    - rewrite broadcast2_scalar_r. cbn [rbind]. rewrite map_map.
      rewrite broadcast2_map. cbn [rbind].
      destruct (negb _); [reflexivity|]. rewrite broadcast2_map. cbn [rbind].
      destruct (np.take _ _); reflexivity.
    - cbn [rbind]. rewrite broadcast2_scalar_l, map_map. cbn [rbind].
      destruct (negb _); [reflexivity|]. rewrite broadcast2_scalar_r. cbn [rbind].
      rewrite map_map. destruct (np.take _ _); reflexivity. }
  rewrite Ehead. clear Ehead.
  rewrite all_map, forallb_map_list, map_map.
  rewrite (forallb_ext_in _ (fun p => in_row j (np.slice content (fst p) (snd p))) pairs).
  2:{ intros p Hp. apply Hin. exact (proj1 (Forall_forall Q pairs) HQ' p Hp). }
  destruct (forallb _ pairs) eqn:Eall; cbn [negb]; [|reflexivity].
  rewrite (take_map content 0 (fun p => np.wrap64 (fst p + h p)) pairs).
  2:{ apply Forall_forall. intros p Hp.
      pose proof (proj1 (Forall_forall Q pairs) HQ' p Hp) as HQp.
      pose proof (proj1 (forallb_forall _ pairs) Eall p Hp) as Hi. cbv beta in Hi.
      rewrite <- (Hin p HQp), (Hc p HQp) in Hi.
      apply andb_true_iff in Hi as [Hi1 Hi2]. apply Z.leb_le in Hi1. apply Z.ltb_lt in Hi2.
      destruct HQp as (H1 & H2 & H3). rewrite wrap64_small by lia. lia. }
  cbn [rbind fst]. do 3 f_equal. apply map_ext_in. intros p Hp.
  pose proof (proj1 (Forall_forall Q pairs) HQ' p Hp) as HQp.
  pose proof (proj1 (forallb_forall _ pairs) Eall p Hp) as Hi. cbv beta in Hi.
  rewrite <- (Hin p HQp), (Hc p HQp) in Hi.
  apply andb_true_iff in Hi as [Hi1 Hi2]. apply Z.leb_le in Hi1. apply Z.ltb_lt in Hi2.
  unfold row_item. destruct (HQp) as (H1 & H2 & H3).
  rewrite slice_length by lia.
  replace (if j <? 0 then j + (snd p - fst p) else j) with (h p)
    by (rewrite (Hh p HQp); destruct (j <? 0); lia).
  rewrite nth_slice by lia. rewrite wrap64_small by lia. f_equal. lia.
Qed.

Lemma getitem_row_witness :
  value_of (getitem (Index (-1)) []) (view [0; 2] [2; 5] (int64s [1; 2; 3; 4; 5]))
  = Ok (Items (int64s [3; 4; 5])).
Proof. exact (getitem_row (view [0; 2] [2; 5] (int64s [1; 2; 3; 4; 5])) (-1) eq_refl). Defined.

Lemma getitem_row_item_witness :
  value_of (getitem (Index 1) [Index (-3)]) (view [0; 2] [2; 5] (int64s [1; 2; 3; 4; 5]))
  = Ok (Item 3).
Proof. exact (getitem_row_item (view [0; 2] [2; 5] (int64s [1; 2; 3; 4; 5])) 1 (-3) eq_refl). Defined.

Lemma getitem_rows_witness :
  match value_of (getitem (Select (Indexes [2; 0])) [])
          (view [0; 2; 2] [2; 2; 5] (int64s [1; 2; 3; 4; 5])) with
  | Ok (Rows out) => Ok [[3; 4; 5]; [1; 2]] = Ok (rows_of out)
                     /\ _content out = int64s [1; 2; 3; 4; 5]
  | Ok _ => False
  | Raise e => Ok [[3; 4; 5]; [1; 2]] = Raise e
  end.
Proof.
  apply (getitem_rows (view [0; 2; 2] [2; 2; 5] (int64s [1; 2; 3; 4; 5])) (Indexes [2; 0])).
  repeat split; try reflexivity. intros c Hc. discriminate Hc.
Defined.

Lemma getitem_column_witness :
  value_of (getitem (Select (Slice None None)) [Index (-1)])
    (view [0; 2] [2; 5] (int64s [1; 2; 3; 4; 5]))
  = Ok (Items (int64s [2; 5])).
Proof.
  apply (getitem_column (view [0; 2] [2; 5] (int64s [1; 2; 3; 4; 5])) (Slice None None) (-1)).
  - repeat split; try reflexivity. intros c Hc. discriminate Hc.
  - unfold ranges. cbn. repeat constructor; lia.
  - cbn. repeat constructor; lia.
  - lia.
Defined.

Lemma getitem_second_slice_witness :
  value_of (getitem (Select (Slice None None)) [Select (Slice (Some 0) (Some 1))])
    (view [0; 2] [2; 5] (int64s [1; 2; 3; 4; 5]))
  = Raise NameError.
Proof.
  apply (getitem_second_slice (view [0; 2] [2; 5] (int64s [1; 2; 3; 4; 5]))
           (Slice None None) (Slice (Some 0) (Some 1)) []).
  repeat split; try reflexivity. intros c Hc. discriminate Hc.
Defined.

(** ** Flattening, offsets, and the constructors from rows and from counts *)

Lemma firstn_plus {A} (x y : nat) (l : list A) :
  firstn (x + y) l = firstn x l ++ firstn y (skipn x l).
Proof.
  revert l. induction x as [|x IH]; intros [|a l]; cbn; try reflexivity.
  - now rewrite firstn_nil.
  - now rewrite IH.
Qed.

Lemma slice_app {A} (l : list A) (a b c : Z) :
  0 <= a <= b -> b <= c ->
  np.slice l a b ++ np.slice l b c = np.slice l a c.
Proof.
  intros H1 H2. unfold np.slice, np.slice_bound.
  replace (a <? 0) with false by (symmetry; apply Z.ltb_ge; lia).
  replace (b <? 0) with false by (symmetry; apply Z.ltb_ge; lia).
  replace (c <? 0) with false by (symmetry; apply Z.ltb_ge; lia).
  set (n := np.len l).
  replace (Z.to_nat (Z.min c n - Z.min a n))
    with (Z.to_nat (Z.min b n - Z.min a n) + Z.to_nat (Z.min c n - Z.min b n))%nat by lia.
  rewrite firstn_plus. f_equal. rewrite skipn_skipn. do 2 f_equal.
  assert (0 <= n) by (unfold n, np.len; lia). lia.
Qed.

Lemma concat_contiguous (content : list Z) (starts stops : list Z) (s0 : Z) :
  Forall2 (fun s t => 0 <= s <= t /\ t < 2 ^ 63) (s0 :: starts) stops ->
  np.array_equal (np.from1 (s0 :: starts)) (np.upto_last stops) = true ->
  concat (map (fun p => np.slice content (fst p) (snd p)) (combine (s0 :: starts) stops))
  = np.slice content s0 (last stops 0)
  /\ s0 <= last stops 0.
Proof.
  revert s0 stops. induction starts as [|s1 starts IH]; intros s0 stops Hr He.
  - inversion Hr as [|? t ? ts Hst Hr']; subst. inversion Hr'; subst.
    cbn. rewrite app_nil_r. split; [reflexivity | lia].
  - inversion Hr as [|? t ? ts Hst Hr']; subst.
    inversion Hr' as [|? t1 ? ts1 Hst1 Hr'']; subst.
    unfold np.array_equal, np.from1, np.upto_last in He. cbn [tl] in He.
    change (removelast (t :: t1 :: ts1)) with (t :: removelast (t1 :: ts1)) in He.
    cbn [np.eqb_list] in He. apply andb_true_iff in He as [He1 He2].
    apply Z.eqb_eq in He1. subst t.
    destruct (IH s1 (t1 :: ts1) Hr' He2) as [IH1 IH2].
    change (last (s1 :: t1 :: ts1) 0) with (last (t1 :: ts1) 0).
    cbn [combine map concat fst snd]. cbn [combine map concat fst snd] in IH1.
    rewrite IH1. split; [apply slice_app; lia | lia].
Qed.

(** X6.  [flatten] on a view with at least one row whose rows are ranges
    that follow one another (each start is the stop of the row before):
    the concatenation of the rows, in the dtype of the content; this holds
    also when stops lie beyond the content, where the rows are clipped. *)
Theorem flatten_contiguous (oa : list Z -> list Z -> option (list Z))
    (self : JaggedArray np.ndarray) :
  _starts self <> [] ->
  ranges self ->
  np.array_equal (np.from1 (_starts self)) (np.upto_last (_stops self)) = true ->
  value_of (flatten oa) self
  = Ok (np.array (np.dtype_of (_content self)) (concat (rows_of self))).
Proof.
  intros Hne Hr He.
  assert (Hlen : length (_starts self) = length (_stops self))
    by (eapply Forall2_length; eauto).
  unfold flatten, _canuseoffset. run. rewrite (valid_validated self Hlen).
  destruct (validated_same_layout self) as (E1 & E2 & E3).
  rewrite <- E1, <- E2, <- E3. unfold contiguous. rewrite He, orb_true_r.
  unfold ranges in Hr. unfold rows_of.
  destruct (_starts self) as [|s0 starts]; [congruence|].
  destruct (_stops self) as [|t0 stops] eqn:Et; [discriminate|]. rewrite <- Et in *.
  rewrite (item_in_range (s0 :: starts) 0 0) by (unfold np.len; cbn [length]; lia).
  rewrite (item_last (_stops self) 0) by (rewrite Et; discriminate).
  cbn [nth Z.to_nat fst]. do 2 f_equal. symmetry.
  apply (concat_contiguous _ _ _ _ Hr He).
Qed.

(** X7.  [flatten] on a view without rows raises IndexError (it reads
    [starts[0]]); it does not return an empty array. *)
Theorem flatten_no_rows (oa : list Z -> list Z -> option (list Z))
    (self : JaggedArray np.ndarray) :
  _starts self = [] -> _stops self = [] ->
  value_of (flatten oa) self = Raise IndexError.
Proof.
  intros Hs Ht.
  assert (Hlen : length (_starts self) = length (_stops self)) by now rewrite Hs, Ht.
  unfold flatten, _canuseoffset. run. rewrite (valid_validated self Hlen).
  destruct (validated_same_layout self) as (E1 & E2 & E3).
  rewrite <- E1, <- E2. unfold contiguous. rewrite Hs, Ht.
  replace (np.array_equal (np.from1 []) (np.upto_last [])) with true by reflexivity.
  rewrite orb_true_r. reflexivity.
Qed.

Lemma tl_removelast {A} (l : list A) : tl (removelast l) = removelast (tl l).
Proof. destruct l as [|x [|y l]]; reflexivity. Qed.

(** X8.  The getter of offsets, on a view with at least one row, as many
    stops as starts and no cached offsets: when every start but the first
    equals the stop of the row before, the offsets are the starts followed
    by the last stop; otherwise the getter raises ValueError.  What
    [offsetsaliased] answers does not change this. *)
Theorem offsets_only_contiguous {C} (oa : list Z -> list Z -> option (list Z))
    (self : JaggedArray C) :
  aliasing oa ->
  length (_starts self) = length (_stops self) ->
  _starts self <> [] ->
  _offsets self = None ->
  value_of (offsets oa) self
  = if np.array_equal (np.from1 (_starts self)) (np.upto_last (_stops self))
    then Ok (_starts self ++ [last (_stops self) 0])
    else Raise ValueError.
Proof.
  intros Ha Hlen Hne Ho. unfold offsets, offsets_by. run. rewrite Ho.
  rewrite (valid_validated self Hlen).
  destruct (validated_same_layout self) as (E1 & E2 & E3).
  rewrite <- E1, <- E2.
  destruct (oa (_starts self) (_stops self)) as [base|] eqn:E.
  - pose proof (aliasing_base oa _ _ _ Ha E Hne) as Hb.
    destruct (Ha _ _ _ E) as (H1 & H2 & _).
    replace (np.array_equal _ _) with true; [now rewrite Hb|].
    symmetry. rewrite H1 at 1. rewrite H2. unfold np.from1, np.upto_last.
    rewrite tl_removelast. apply eqb_list_refl.
  - destruct (np.array_equal _ _); [|reflexivity].
    rewrite (item_last (_stops self) 0); [reflexivity|].
    intros Hn. rewrite Hn in Hlen. destruct (_starts self); [congruence | discriminate].
Qed.

Lemma fromiter_fold (rows : list (list Z)) (offsets content : list Z) :
  offsets <> [] ->
  fold_left (fun '(offsets, content) x =>
               (offsets ++ [last offsets 0 + np.len x], content ++ x))
            rows (offsets, content)
  = (offsets ++ np.accumulate Z.add (last offsets 0) (map np.len rows),
     content ++ concat rows).
Proof.
  revert offsets content. induction rows as [|x rows IH]; intros offsets content Hne.
  - cbn. now rewrite !app_nil_r.
  - cbn [fold_left map concat np.accumulate]. cbv zeta.
    rewrite IH by (destruct offsets; discriminate).
    rewrite last_last, <- !app_assoc. reflexivity.
Qed.

Lemma rows_of_blocks (pre : list Z) (rows : list (list Z)) (b : Z) :
  b = np.len pre ->
  map (fun p => np.slice (pre ++ concat rows) (fst p) (snd p))
      (combine (starts_from b (map np.len rows)) (np.accumulate Z.add b (map np.len rows)))
  = rows.
Proof.
  revert pre b. induction rows as [|x rows IH]; intros pre b Hb; [reflexivity|].
  cbn [map starts_from np.accumulate combine concat fst snd]. cbv zeta.
  cbn [combine map fst snd]. f_equal.
  - apply slice_app_block; [exact Hb | reflexivity].
  - rewrite app_assoc. apply IH. unfold np.len. rewrite length_app. unfold np.len in Hb. lia.
Qed.

Lemma accumulate_nonnegative (b : Z) (sizes : list Z) :
  0 <= b -> Forall (fun z => 0 <= z) sizes ->
  Forall (fun z => 0 <= z) (np.accumulate Z.add b sizes).
Proof.
  intros Hb H. revert b Hb. induction H as [|z sizes Hz H IH]; intros b Hb; cbn; constructor.
  - lia.
  - apply IH. lia.
Qed.

Lemma len_entries {A} (rows : list (list A)) : Forall (fun z => 0 <= z) (map np.len rows).
Proof. apply Forall_forall. intros z Hz. apply in_map_iff in Hz as (r & <- & _). unfold np.len. lia. Qed.

(** X9.  [fromiter] followed by iteration gives back the rows it was
    given, for every dtype and every list of rows (empty rows and the empty
    list included). *)
Theorem fromiter_rows (dt : np.dtype) (rows : list (list Z)) :
  tolist (fromiter dt rows) = Ok rows.
Proof.
  unfold tolist, on, fromiter. rewrite fromiter_fold by discriminate.
  cbn [last app]. unfold fromoffsets, __init__.
  assert (Hacc : Forall (fun z => 0 <= z) (np.accumulate Z.add 0 (map np.len rows)))
    by (apply accumulate_nonnegative; [lia | apply len_entries]).
  rewrite (negative_any_false (0 :: _)) by (constructor; [lia | exact Hacc]).
  rewrite upto_last_accumulate. change (np.from1 (0 :: ?l)) with l.
  rewrite !negative_any_false.
  2:{ exact Hacc. }
  2:{ replace (starts_from 0 (map np.len rows))
        with (np.upto_last (0 :: np.accumulate Z.add 0 (map np.len rows)))
        by apply upto_last_accumulate.
      unfold np.upto_last. apply Forall_forall. intros z Hz.
      assert (Hin : In z (0 :: np.accumulate Z.add 0 (map np.len rows))).
      { rewrite (app_removelast_last 0 (l := 0 :: np.accumulate Z.add 0 (map np.len rows)))
          by discriminate.
        apply in_or_app. now left. }
      destruct Hin as [<- | Hin]; [lia|].
      exact (proj1 (Forall_forall _ _) Hacc z Hin). }
  cbn [rbind]. rewrite iter_rows_of.
  - unfold rows_of. cbn [_starts _stops _content cache_offsets np.data].
    f_equal. apply (rows_of_blocks [] rows 0). reflexivity.
  - cbn [_starts _stops cache_offsets]. now rewrite starts_from_length, accumulate_length.
Qed.

Lemma rows_from_counts (content sizes : list Z) (b : Z) :
  Forall (fun z => 0 <= z) sizes -> 0 <= b -> b + total sizes <= np.len content ->
  let rows := map (fun p => np.slice content (fst p) (snd p))
                  (combine (starts_from b sizes) (np.accumulate Z.add b sizes)) in
  map np.len rows = sizes /\ concat rows = np.slice content b (b + total sizes).
Proof.
  intros H. revert b. induction H as [|z sizes Hz H IH]; intros b Hb Hfit; cbv zeta.
  - change (total []) with 0 in *. rewrite Z.add_0_r in *.
    cbn. split; [reflexivity|].
    rewrite slice_bounds by lia. now rewrite Z.sub_diag.
  - rewrite total_cons in Hfit. pose proof (total_nonneg sizes H) as Hpos. cbv beta in Hz.
    cbn [starts_from np.accumulate]. cbv zeta. cbn [combine map fst snd concat].
    destruct (IH (b + z)) as [IH1 IH2]; [lia | lia |]. cbv zeta in IH1, IH2.
    rewrite IH1, IH2. split.
    + f_equal. rewrite slice_length by lia. lia.
    + rewrite total_cons, slice_app by lia. f_equal. lia.
Qed.

Lemma starts_from_nonnegative (b : Z) (sizes : list Z) :
  0 <= b -> Forall (fun z => 0 <= z) sizes ->
  Forall (fun z => 0 <= z) (starts_from b sizes).
Proof.
  intros Hb H. revert b Hb. induction H as [|z sizes Hz H IH]; intros b Hb; cbn; constructor.
  - exact Hb.
  - apply IH. lia.
Qed.

(** X10.  [fromcounts(counts, content)] for non-negative counts whose sum
    is within the content (and within int64): the rows have the given
    lengths, and one after the other they are the first [sum(counts)] items
    of the content. *)
Theorem fromcounts_rows (dt : np.dtype) (counts content : list Z) :
  Forall (fun z => 0 <= z) counts ->
  total counts <= np.len content -> total counts < 2 ^ 63 ->
  exists out,
    fromcounts counts (np.array dt content) = Ok out
    /\ map np.len (rows_of out) = counts
    /\ concat (rows_of out) = firstn (Z.to_nat (total counts)) content.
Proof.
  intros Hc Hfit Hsmall. unfold fromcounts, __init__, util.counts2offsets, np.cumsum.
  rewrite (negative_any_false counts Hc).
  rewrite accumulate_nowrap by (auto; lia).
  rewrite upto_last_accumulate. change (np.from1 (0 :: ?l)) with l.
  assert (Hacc : Forall (fun z => 0 <= z) (np.accumulate Z.add 0 counts))
    by (apply accumulate_nonnegative; [lia | exact Hc]).
  assert (Hst : Forall (fun z => 0 <= z) (starts_from 0 counts))
    by (apply starts_from_nonnegative; [lia | exact Hc]).
  rewrite !negative_any_false by assumption. cbn [rbind].
  eexists. split; [reflexivity|].
  unfold rows_of. cbn [_starts _stops _content cache_counts cache_offsets np.data].
  destruct (rows_from_counts content counts 0 Hc) as [H1 H2]; [lia | lia |].
  cbv zeta in H1, H2. split; [exact H1|]. rewrite H2.
  rewrite slice_bounds by (pose proof (total_nonneg counts Hc); lia).
  cbn [Z.to_nat skipn]. f_equal. lia.
Qed.

Lemma flatten_contiguous_witness :
  value_of (flatten no_alias) (view [1; 3; 3] [3; 3; 4] (int64s [9; 1; 2; 3; 9]))
  = Ok (int64s [1; 2; 3]).
Proof.
  apply (flatten_contiguous no_alias (view [1; 3; 3] [3; 3; 4] (int64s [9; 1; 2; 3; 9]))).
  - discriminate.
  - unfold ranges. cbn. repeat constructor; lia.
  - reflexivity.
Defined.

Lemma flatten_no_rows_witness :
  value_of (flatten no_alias) (view [] [] (int64s [1; 2; 3])) = Raise IndexError.
Proof. exact (flatten_no_rows no_alias (view [] [] (int64s [1; 2; 3])) eq_refl eq_refl). Defined.

Lemma offsets_only_contiguous_witness :
  value_of (offsets no_alias) (view [0; 2] [2; 5] (int64s [1; 2; 3; 4; 5])) = Ok [0; 2; 5]
  /\ value_of (offsets no_alias) (view [0; 3] [2; 5] (int64s [1; 2; 3; 4; 5]))
     = Raise ValueError.
Proof.
  split.
  - apply (offsets_only_contiguous no_alias (view [0; 2] [2; 5] (int64s [1; 2; 3; 4; 5]))
             no_alias_aliasing eq_refl); [discriminate | reflexivity].
  - apply (offsets_only_contiguous no_alias (view [0; 3] [2; 5] (int64s [1; 2; 3; 4; 5]))
             no_alias_aliasing eq_refl); [discriminate | reflexivity].
Defined.

Lemma fromcounts_rows_witness :
  exists out,
    fromcounts [2; 0; 1] (int64s [1; 2; 3; 4]) = Ok out
    /\ map np.len (rows_of out) = [2; 0; 1]
    /\ concat (rows_of out) = [1; 2; 3].
Proof.
  apply (fromcounts_rows np.int64 [2; 0; 1] [1; 2; 3; 4]).
  - repeat constructor; lia.
  - cbn. lia.
  - cbn. lia.
Defined.

(** ** The reductions, on both paths *)

Lemma select_filter {X A} (mk : X -> bool) (g : X -> A) (l : list X) :
  np.select (map mk l) (map g l) = map g (filter mk l).
Proof.
  induction l as [|x l IH]; cbn [map np.select filter]; [reflexivity|].
  destruct (mk x); cbn [map]; now rewrite IH.
Qed.

Lemma count_true_filter {X} (mk : X -> bool) (l : list X) :
  np.count_true (map mk l) = length (filter mk l).
Proof.
  unfold np.count_true. induction l as [|x l IH]; cbn [map filter]; [reflexivity|].
  destruct (mk x); cbn [length]; now rewrite IH.
Qed.

Lemma place_filter {X A} (mk : X -> bool) (d v : X -> A) (l : list X) :
  np.place (map mk l) (map d l) (map v (filter mk l))
  = map (fun x => if mk x then v x else d x) l.
Proof.
  induction l as [|x l IH]; cbn [map np.place filter]; [reflexivity|].
  destruct (mk x); cbn [map]; now rewrite IH.
Qed.

Lemma valid_again {C} (self : JaggedArray C) :
  _valid (validated self) = (Ok tt, validated self).
Proof. unfold _valid. run. now rewrite validated_isvalid. Qed.

(** Storing in an integer dtype is reduction modulo a power of two into a
    fixed window. *)
Lemma wrap_window (dt : np.dtype) :
  np.is_integer dt = true ->
  exists o m, 0 <= o < m /\ forall z, np.wrap dt z = (z + o) mod m - o.
Proof.
  destruct dt; cbn; intros H; try discriminate.
  - exists (2 ^ 63), (2 ^ 64). split; [lia | reflexivity].
  - exists 0, (2 ^ 64). split; [lia|]. intros z. now rewrite Z.add_0_r, Z.sub_0_r.
  - exists 0, (2 ^ 8). split; [lia|]. intros z. now rewrite Z.add_0_r, Z.sub_0_r.
Qed.

Lemma wrap_add_l (dt : np.dtype) (a b : Z) :
  np.is_integer dt = true -> np.wrap dt (np.wrap dt a + b) = np.wrap dt (a + b).
Proof.
  intros H. destruct (wrap_window dt H) as (o & m & Hm & E). rewrite !E.
  f_equal. replace ((a + o) mod m - o + b + o) with ((a + o) mod m + b) by lia.
  rewrite Z.add_mod_idemp_l by lia. f_equal. lia.
Qed.

Lemma wrap_sub (dt : np.dtype) (a b : Z) :
  np.is_integer dt = true -> np.wrap dt (np.wrap dt a - np.wrap dt b) = np.wrap dt (a - b).
Proof.
  intros H. destruct (wrap_window dt H) as (o & m & Hm & E). rewrite !E.
  f_equal.
  replace ((a + o) mod m - o - ((b + o) mod m - o) + o)
    with ((a + o) mod m - (b + o) mod m + o) by lia.
  rewrite <- Z.add_mod_idemp_l by lia. rewrite <- Zminus_mod by lia.
  rewrite Z.add_mod_idemp_l by lia. f_equal. lia.
Qed.

Lemma wrap_zero (dt : np.dtype) : np.wrap dt 0 = 0.
Proof. destruct dt; reflexivity. Qed.

Lemma nth_running_sum (dt : np.dtype) (content : list Z) (acc : Z) (k : nat) :
  np.is_integer dt = true -> (k <= length content)%nat ->
  nth k (np.wrap dt acc :: np.accumulate (fun x y => np.wrap dt (x + y)) (np.wrap dt acc) content) 0
  = np.wrap dt (acc + total (firstn k content)).
Proof.
  intros Hdt. revert acc k. induction content as [|x content IH]; intros acc [|k] Hk;
    cbn [length] in Hk; try lia.
  - cbn. change (total []) with 0. now rewrite Z.add_0_r.
  - cbn [nth firstn]. change (total []) with 0. now rewrite Z.add_0_r.
  - cbn [np.accumulate]. cbv zeta.
    change (nth (S k) (?a :: ?l) 0) with (nth k l 0).
    rewrite (wrap_add_l dt acc x Hdt).
    rewrite IH by lia. cbn [firstn]. rewrite total_cons. f_equal. lia.
Qed.

Lemma total_slice (content : list Z) (s t : Z) :
  0 <= s <= t -> t <= np.len content ->
  total (np.slice content s t)
  = total (firstn (Z.to_nat t) content) - total (firstn (Z.to_nat s) content).
Proof.
  intros H1 H2. rewrite slice_bounds by assumption.
  replace (Z.to_nat t) with (Z.to_nat s + Z.to_nat (t - s))%nat by lia.
  rewrite firstn_plus, total_app. lia.
Qed.

Lemma not_contiguous (oa : list Z -> list Z -> option (list Z)) (starts stops : list Z) :
  aliasing oa ->
  np.array_equal (np.from1 starts) (np.upto_last stops) = false ->
  contiguous oa starts stops = false.
Proof.
  intros Ha He. unfold contiguous. rewrite He, orb_false_r.
  destruct (oa starts stops) as [base|] eqn:E; [|reflexivity].
  destruct (Ha _ _ _ E) as (H1 & H2 & _). exfalso.
  rewrite H1, H2 in He. unfold np.from1, np.upto_last in He.
  rewrite tl_removelast in He. unfold np.array_equal in He.
  now rewrite eqb_list_refl in He.
Qed.

(** The rows of a view of ranges within the content, as a property of the
    pairs (start, stop). *)
Lemma ranges_pairs (content starts stops : list Z) :
  Forall2 (fun s t => 0 <= s <= t /\ t < 2 ^ 63) starts stops ->
  Forall (fun t => t <= np.len content) stops ->
  Forall (fun p => 0 <= fst p <= snd p /\ snd p <= np.len content) (combine starts stops).
Proof.
  intros Hr Hb. induction Hr as [|s t ss ts Hst Hr IH]; cbn [combine]; [constructor|].
  apply Forall_cons_iff in Hb as [Hb1 Hb2]. constructor; [cbn; lia | auto].
Qed.

(** X11.  [sum] on the general path (rows that do not follow one
    another), for a view of ranges within a content of an integer dtype:
    item [i] of the result is the sum of row [i] stored in the dtype of the
    content (so reduced modulo its width), 0 for an empty row. *)
Theorem sum_general (oa : list Z -> list Z -> option (list Z))
    (self : JaggedArray np.ndarray) :
  aliasing oa ->
  ranges self ->
  Forall (fun t => t <= np.len (np.data (_content self))) (_stops self) ->
  np.is_integer (np.dtype_of (_content self)) = true ->
  np.array_equal (np.from1 (_starts self)) (np.upto_last (_stops self)) = false ->
  value_of (sum oa) self
  = Ok (np.array (np.dtype_of (_content self))
          (map (fun row => np.wrap (np.dtype_of (_content self)) (total row))
               (rows_of self))).
Proof.
  intros Ha Hr Hb Hdt He.
  assert (Hlen : length (_starts self) = length (_stops self))
    by (eapply Forall2_length; eauto).
  unfold sum, _canuseoffset, shape. run. rewrite (valid_validated self Hlen).
  destruct (validated_same_layout self) as (E1 & E2 & E3).
  rewrite <- E1, <- E2. rewrite (not_contiguous oa _ _ Ha He).
  rewrite <- ?E1, <- ?E2, <- ?E3. rewrite valid_again. rewrite <- ?E1, <- ?E2, <- ?E3.
  unfold rows_of.
  set (dt := np.dtype_of (_content self)) in *.
  set (content := np.data (_content self)) in *.
  pose proof (ranges_pairs content _ _ Hr Hb) as HQ.
  destruct (map_fst_combine_same _ _ Hlen) as [Fs Ft].
  revert HQ Fs Ft. generalize (combine (_starts self) (_stops self)). intros pairs HQ Fs Ft.
  rewrite <- Fs, <- Ft. clear Fs Ft Hr Hb He Hlen E1 E2 E3.
  unfold np.ne. rewrite broadcast2_map. cbn [rbind].
  set (mk := fun p : Z * Z => negb (fst p =? snd p)).
  unfold np.compress. rewrite !length_map, Nat.eqb_refl. cbn [rbind].
  rewrite !select_filter.
  set (cs := 0 :: np.accumulate (fun x y => np.wrap dt (x + y)) 0 content).
  assert (Hcs : forall k, (k <= length content)%nat ->
                  nth k cs 0 = np.wrap dt (total (firstn k content))).
  { intros k Hk. subst cs. rewrite <- (wrap_zero dt) at 1 2.
    now rewrite nth_running_sum. }
  assert (Hcl : np.len cs = np.len content + 1).
  { subst cs. unfold np.len. cbn [length]. rewrite accumulate_length. lia. }
  assert (HQf : Forall (fun p => 0 <= fst p <= snd p /\ snd p <= np.len content)
                  (filter mk pairs)).
  { apply Forall_forall. intros p Hp. apply filter_In in Hp as [Hp _].
    exact (proj1 (Forall_forall _ _) HQ p Hp). }
  rewrite (take_map cs 0 snd)
    by (eapply Forall_impl; [|exact HQf]; cbv beta; intros p Hp; lia).
  cbn [rbind].
  rewrite (take_map cs 0 fst)
    by (eapply Forall_impl; [|exact HQf]; cbv beta; intros p Hp; lia).
  cbn [rbind]. rewrite Hdt, broadcast2_map. cbn [rbind].
  unfold np.setitem_mask, np.zeros, np.len.
  rewrite !length_map, Nat2Z.id, repeat_length, Nat.eqb_refl.
  rewrite spread_values by (now rewrite count_true_filter, length_map).
  cbn [rbind fst]. do 2 f_equal.
  rewrite <- (map_const 0 pairs). rewrite place_filter. rewrite map_map.
  apply map_ext_in. intros p Hp.
  pose proof (proj1 (Forall_forall _ _) HQ p Hp) as (H1 & H2). cbv beta in H1, H2.
  unfold np.len in H2.
  subst mk. cbv beta. destruct (fst p =? snd p) eqn:Eq; cbn [negb].
  - apply Z.eqb_eq in Eq. rewrite <- Eq. rewrite slice_bounds by (unfold np.len; lia).
    rewrite Z.sub_diag. cbn [Z.to_nat firstn]. change (total []) with 0.
    now rewrite wrap_zero.
  - rewrite !Hcs by lia. rewrite wrap_sub by exact Hdt.
    now rewrite total_slice by (unfold np.len; lia).
Qed.

Lemma validated_offsets {C} (self : JaggedArray C) :
  _offsets (validated self) = _offsets self.
Proof. unfold validated. now destruct (_isvalid self). Qed.

Lemma contiguous_stops (starts stops : list Z) :
  length starts = length stops -> starts <> [] ->
  np.array_equal (np.from1 starts) (np.upto_last stops) = true ->
  stops = np.from1 starts ++ [last stops 0].
Proof.
  intros Hlen Hne He. apply eqb_list_eq in He. rewrite He.
  unfold np.upto_last. apply app_removelast_last.
  intros ->. destruct starts; [congruence | discriminate].
Qed.

(** The getter of offsets on a contiguous view with at least one row
    whose cache of offsets, if filled, holds its starts and last stop. *)
Lemma offsets_contiguous_run {C} (oa : list Z -> list Z -> option (list Z))
    (self : JaggedArray C) :
  aliasing oa ->
  length (_starts self) = length (_stops self) ->
  _starts self <> [] ->
  np.array_equal (np.from1 (_starts self)) (np.upto_last (_stops self)) = true ->
  (forall o, _offsets self = Some o -> o = _starts self ++ [last (_stops self) 0]) ->
  exists self',
    offsets oa self = (Ok (_starts self ++ [last (_stops self) 0]), self')
    /\ same_layout self self'
    /\ _offsets self' = Some (_starts self ++ [last (_stops self) 0]).
Proof.
  intros Ha Hlen Hne He Hc.
  destruct (_offsets self) as [o|] eqn:Eo.
  - exists self. rewrite (offsets_cached oa self o Eo), (Hc o eq_refl).
    repeat split. rewrite Eo. f_equal. now apply Hc.
  - unfold offsets, offsets_by. run. rewrite Eo, (valid_validated self Hlen).
    destruct (validated_same_layout self) as (E1 & E2 & E3).
    rewrite <- E1, <- E2.
    destruct (oa (_starts self) (_stops self)) as [base|] eqn:E.
    + rewrite (aliasing_base oa _ _ _ Ha E Hne).
      eexists. split; [reflexivity|]. split; [|reflexivity].
      unfold same_layout, cache_offsets. cbn. now rewrite <- E1, <- E2, <- E3.
    + rewrite He. rewrite (item_last (_stops self) 0).
      2:{ intros Hn. rewrite Hn in Hlen. destruct (_starts self); [congruence | discriminate]. }
      eexists. split; [reflexivity|]. split; [|reflexivity].
      unfold same_layout, cache_offsets. cbn. now rewrite <- E1, <- E2, <- E3.
Qed.

Lemma reduce_nonempty (f : Z -> Z -> Z) (identity : Z) (a : list Z) :
  a <> [] -> np.reduce f a = Ok (reduce_row f identity a).
Proof. destruct a; [congruence | reflexivity]. Qed.

Lemma slice_nonempty {A} (a : list A) (lo hi : Z) :
  0 <= lo < hi -> hi <= np.len a -> np.slice a lo hi <> [].
Proof.
  intros H1 H2 Hn. pose proof (slice_length a lo hi ltac:(lia) H2) as Hl.
  rewrite Hn in Hl. unfold np.len in Hl. cbn in Hl. lia.
Qed.

(** [reduceat] over the starts of consecutive rows that all lie inside
    the array. *)
Lemma reduceat_from_rows (f : Z -> Z -> Z) (identity : Z) (a : list Z) (starts : list Z) :
  Forall (fun s => 0 <= s < np.len a) starts ->
  np.reduceat_from f a starts
  = Ok (map (fun p => if fst p <? snd p
                      then reduce_row f identity (np.slice a (fst p) (snd p))
                      else nth (Z.to_nat (fst p)) a 0)
            (combine starts (np.from1 starts ++ [np.len a]))).
Proof.
  induction 1 as [|s starts Hs H IH]; [reflexivity|].
  cbn [np.reduceat_from]. rewrite IH. clear IH. cbv beta in Hs.
  unfold np.from1. cbn [tl].
  destruct starts as [|j rest].
  - cbn [app combine map fst snd rbind].
    rewrite (reduce_nonempty f identity) by (apply slice_nonempty; lia).
    cbn [rbind]. now replace (s <? np.len a) with true by (symmetry; apply Z.ltb_lt; lia).
  - apply Forall_cons_iff in H as [Hj _]. cbv beta in Hj.
    cbn [app combine map fst snd tl].
    destruct (s <? j) eqn:E.
    + apply Z.ltb_lt in E.
      rewrite (reduce_nonempty f identity) by (apply slice_nonempty; lia).
      reflexivity.
    + rewrite (item_in_range a s 0) by lia. reflexivity.
Qed.

Lemma slice_prefix {A} (a : list A) (s t hi : Z) :
  0 <= s <= t -> t <= hi -> hi <= np.len a ->
  np.slice (np.slice a 0 hi) s t = np.slice a s t.
Proof.
  intros H1 H2 H3. rewrite (slice_bounds a 0 hi) by lia.
  cbn [Z.to_nat skipn]. rewrite Z.sub_0_r.
  assert (Hl : np.len (firstn (Z.to_nat hi) a) = hi).
  { unfold np.len in *. rewrite length_firstn. lia. }
  rewrite !slice_bounds by lia.
  rewrite skipn_firstn_comm, firstn_firstn. f_equal. lia.
Qed.

Lemma chain_le (s0 final : Z) (rest : list Z) :
  Forall2 (fun s t => 0 <= s <= t /\ t < 2 ^ 63) (s0 :: rest) (rest ++ [final]) ->
  Forall (fun s => 0 <= s <= last (s0 :: rest) 0) (s0 :: rest).
Proof.
  revert s0. induction rest as [|s1 rest IH]; intros s0 H.
  - inversion H; subst. cbn. repeat constructor; lia.
  - inversion H as [|? ? ? ? Hst H']; subst. specialize (IH s1 H').
    change (last (s0 :: s1 :: rest) 0) with (last (s1 :: rest) 0).
    constructor; [|exact IH].
    apply Forall_cons_iff in IH as [IH0 _]. lia.
Qed.

(** The contiguous path on a view whose rows follow one another from
    position 0 and whose last row is not empty. *)
Lemma reduce_offsets_rows (oa : list Z -> list Z -> option (list Z))
    (f : Z -> Z -> Z) (v : Z) (self : JaggedArray np.ndarray) :
  aliasing oa -> ranges self ->
  np.array_equal (np.from1 (_starts self)) (np.upto_last (_stops self)) = true ->
  (forall o, _offsets self = Some o -> o = _starts self ++ [last (_stops self) 0]) ->
  np.item (_starts self) 0 = Ok 0 ->
  last (_starts self) 0 < last (_stops self) 0 ->
  last (_stops self) 0 <= np.len (np.data (_content self)) ->
  value_of (reduce_offsets oa f (Ok v)) self = Ok (map (reduce_row f v) (rows_of self)).
Proof.
  intros Ha Hr He Hc Hfirst Hlast Hfit.
  assert (Hlen : length (_starts self) = length (_stops self))
    by (eapply Forall2_length; eauto).
  assert (Hne : _starts self <> []) by (intros Hn; rewrite Hn in Hfirst; discriminate).
  destruct (offsets_contiguous_run oa self Ha Hlen Hne He Hc)
    as (s1 & Ho & _ & Hcache).
  pose proof (contiguous_stops _ _ Hlen Hne He) as Hstops.
  unfold reduce_offsets. run. rewrite Hfirst.
  rewrite (item_last (_stops self) 0)
    by (intros Hn; rewrite Hn in Hlen; destruct (_starts self); [congruence | discriminate]).
  rewrite Ho, !(offsets_cached oa s1 _ Hcache).
  unfold rows_of. revert Hr Hfirst Hlast Hfit Hstops Hlen Hne. unfold ranges.
  generalize (np.data (_content self)) as content.
  generalize (_stops self) as stops. generalize (_starts self) as starts.
  clear. intros starts stops content Hr Hfirst Hlast Hfit Hstops Hlen Hne.
  set (final := last stops 0) in *.
  rewrite upto_last_snoc.
  replace (np.from1 (starts ++ [final])) with stops
    by (rewrite Hstops at 1; destruct starts; [congruence | reflexivity]).
  set (a := np.slice content 0 final).
  assert (Hfinal : 0 <= final).
  { destruct starts as [|s0 rest]; [congruence|]. cbn [np.from1 tl] in Hstops.
    rewrite Hstops in Hr. pose proof (chain_le _ _ _ Hr) as Hch.
    apply Forall_cons_iff in Hch as [Hch _]. lia. }
  assert (Hla : np.len a = final) by (subst a; rewrite slice_length; lia).
  assert (Hs : Forall (fun s => 0 <= s < np.len a) starts).
  { rewrite Hla. destruct starts as [|s0 rest]; [congruence|]. cbn [np.from1 tl] in Hstops.
    rewrite Hstops in Hr. pose proof (chain_le _ _ _ Hr) as Hch.
    eapply Forall_impl; [|exact Hch]. cbv beta. intros s Hs. lia. }
  assert (Ht : Forall (fun t => t <= final) stops).
  { rewrite Hstops. apply Forall_app. split; [|repeat constructor; lia].
    rewrite Hla in Hs. destruct starts as [|s0 rest]; [congruence|]. cbn [np.from1 tl].
    apply Forall_cons_iff in Hs as [_ Hs]. eapply Forall_impl; [|exact Hs].
    cbv beta. intros s Hs'. lia. }
  unfold np.reduceat.
  replace (forallb _ starts) with true.
  2:{ symmetry. apply forallb_forall. intros s Hin.
      pose proof (proj1 (Forall_forall _ _) Hs s Hin) as Hs'. cbv beta in Hs'.
      apply andb_true_iff. split; [apply Z.leb_le | apply Z.ltb_lt]; lia. }
  rewrite (reduceat_from_rows f v a starts Hs). rewrite Hla, <- Hstops. cbn [rbind].
  assert (HQ : Forall (fun p => 0 <= fst p <= snd p /\ snd p <= final) (combine starts stops)).
  { clear - Hr Ht. clearbody final.
    induction Hr as [|s t ss ts Hst Hr IH]; cbn [combine]; [constructor|].
    apply Forall_cons_iff in Ht as [Ht1 Ht2]. cbv beta in Ht1.
    constructor; [cbn; lia | auto]. }
  destruct (map_fst_combine_same _ _ Hlen) as [Fs Ft].
  revert HQ Fs Ft. generalize (combine starts stops). intros pairs HQ Fs Ft.
  rewrite <- Ft at 1. rewrite <- Fs.
  unfold np.eq. rewrite broadcast2_map. cbn [rbind].
  unfold np.setitem_mask. rewrite !length_map, Nat.eqb_refl.
  cbn [np.spread rbind fst]. f_equal.
  set (g := fun p : Z * Z =>
              if fst p <? snd p then reduce_row f v (np.slice a (fst p) (snd p))
              else nth (Z.to_nat (fst p)) a 0).
  rewrite count_true_filter, <- map_const.
  rewrite (place_filter (fun p => snd p =? fst p) g (fun _ => v) pairs).
  rewrite map_map. apply map_ext_in. intros p Hp.
  pose proof (proj1 (Forall_forall _ _) HQ p Hp) as (H1 & H2). cbv beta in H1, H2.
  destruct (snd p =? fst p) eqn:E.
  - apply Z.eqb_eq in E. rewrite E. rewrite slice_bounds by lia.
    rewrite Z.sub_diag. reflexivity.
  - apply Z.eqb_neq in E. subst g. cbv beta.
    replace (fst p <? snd p) with true by (symmetry; apply Z.ltb_lt; lia).
    subst a. now rewrite slice_prefix by lia.
Qed.

Lemma widen_items (dt : np.dtype) (content : list Z) :
  items_of dt content -> items_of (np.reduce_dtype dt) content.
Proof.
  unfold items_of. intros H. eapply Forall_impl; [|exact H]. cbv beta. intros x Hx.
  destruct dt; cbn [np.reduce_dtype np.wrap] in *; try exact Hx.
  - assert (0 <= x < 2 ^ 8) by (rewrite <- Hx; apply Z.mod_pos_bound; lia).
    apply Z.mod_small. lia.
  - assert (0 <= x <= 1) by (destruct (x =? 0); lia).
    apply wrap64_small. lia.
Qed.

Lemma fold_sum (dt : np.dtype) (rest : list Z) (acc : Z) :
  np.is_integer dt = true ->
  fold_left (fun x y => np.wrap dt (x + y)) rest (np.wrap dt acc)
  = np.wrap dt (acc + total rest).
Proof.
  intros Hdt. revert acc. induction rest as [|y rest IH]; intros acc; cbn [fold_left].
  - change (total []) with 0. now rewrite Z.add_0_r.
  - rewrite (wrap_add_l dt acc y Hdt), IH, total_cons. f_equal. lia.
Qed.

Lemma reduce_row_sum (dt : np.dtype) (row : list Z) :
  np.is_integer dt = true -> items_of dt row ->
  reduce_row (fun x y => np.wrap dt (x + y)) 0 row = np.wrap dt (total row).
Proof.
  intros Hdt Hrow. destruct row as [|x rest]; cbn [reduce_row].
  - change (total []) with 0. now rewrite wrap_zero.
  - apply Forall_cons_iff in Hrow as [Hx _]. cbv beta in Hx.
    rewrite <- Hx at 1. rewrite fold_sum by exact Hdt. now rewrite total_cons.
Qed.

Lemma reduce_dtype_integer (dt : np.dtype) : np.is_integer (np.reduce_dtype dt) = true.
Proof. now destruct dt. Qed.

(** The state in which the contiguous path runs. *)
Lemma run_value {S A} (m : M S A) (s : S) (a : A) :
  value_of m s = Ok a -> exists s', m s = (Ok a, s').
Proof. unfold value_of. destruct (m s) as [r s']. cbn. intros ->. now exists s'. Qed.

(** X12.  [sum] on the contiguous path, for a view whose rows are ranges
    that follow one another from position 0, whose last row is not empty
    and ends within the content: item [i] of the result is the sum of row
    [i], 0 for an empty row, stored in the dtype in which numpy reduces
    (uint8 widened to uint64, bool to int64), unlike on the general
    path. *)
Theorem sum_contiguous (oa : list Z -> list Z -> option (list Z))
    (self : JaggedArray np.ndarray) :
  aliasing oa -> ranges self ->
  np.array_equal (np.from1 (_starts self)) (np.upto_last (_stops self)) = true ->
  (forall o, _offsets self = Some o -> o = _starts self ++ [last (_stops self) 0]) ->
  np.item (_starts self) 0 = Ok 0 ->
  last (_starts self) 0 < last (_stops self) 0 ->
  last (_stops self) 0 <= np.len (np.data (_content self)) ->
  items_of (np.dtype_of (_content self)) (np.data (_content self)) ->
  value_of (sum oa) self
  = Ok (np.array (np.reduce_dtype (np.dtype_of (_content self)))
          (map (fun row => np.wrap (np.reduce_dtype (np.dtype_of (_content self))) (total row))
               (rows_of self))).
Proof.
  intros Ha Hr He Hc Hfirst Hlast Hfit Hitems.
  assert (Hlen : length (_starts self) = length (_stops self))
    by (eapply Forall2_length; eauto).
  pose proof (rows_of_same_layout _ _ (validated_same_layout self)) as Hrows.
  destruct (validated_same_layout self) as (E1 & E2 & E3).
  assert (Hrun : value_of (reduce_offsets oa
                   (fun x y => np.wrap (np.reduce_dtype (np.dtype_of (_content self))) (x + y))
                   (Ok 0)) (validated self)
                 = Ok (map (reduce_row (fun x y => np.wrap (np.reduce_dtype (np.dtype_of (_content self))) (x + y)) 0)
                         (rows_of self))).
  { rewrite Hrows. apply reduce_offsets_rows; unfold ranges;
      rewrite ?validated_offsets, <- ?E1, <- ?E2, <- ?E3; assumption. }
  apply run_value in Hrun as (s' & Hrun).
  unfold sum, _canuseoffset. run. rewrite (valid_validated self Hlen).
  rewrite <- E1, <- E2. unfold contiguous. rewrite He, orb_true_r.
  rewrite <- E3, Hrun. cbn [fst]. do 2 f_equal.
  apply map_ext_in. intros row Hrow. apply reduce_row_sum.
  - apply reduce_dtype_integer.
  - apply widen_items. unfold rows_of in Hrow. apply in_map_iff in Hrow as (p & <- & _).
    apply slice_entries. exact Hitems.
Qed.

Lemma fold_min (rest : list Z) (x : Z) :
  let m := fold_left Z.min rest x in
  (m = x \/ In m rest) /\ m <= x /\ Forall (fun y => m <= y) rest.
Proof.
  revert x. induction rest as [|y rest IH]; intros x; cbv zeta; cbn [fold_left].
  - repeat split; [now left | lia | constructor].
  - destruct (IH (Z.min x y)) as (H1 & H2 & H3). cbv zeta in H1, H2, H3.
    split; [|split; [lia|constructor; [lia | exact H3]]].
    destruct H1 as [H1 | H1]; [|right; now right].
    destruct (Z.min_spec x y) as [[_ E] | [_ E]]; rewrite E in *; [now left | right; now left].
Qed.

Lemma fold_max (rest : list Z) (x : Z) :
  let m := fold_left Z.max rest x in
  (m = x \/ In m rest) /\ m >= x /\ Forall (fun y => m >= y) rest.
Proof.
  revert x. induction rest as [|y rest IH]; intros x; cbv zeta; cbn [fold_left].
  - repeat split; [now left | lia | constructor].
  - destruct (IH (Z.max x y)) as (H1 & H2 & H3). cbv zeta in H1, H2, H3.
    split; [|split; [lia|constructor; [lia | exact H3]]].
    destruct H1 as [H1 | H1]; [|right; now right].
    destruct (Z.max_spec x y) as [[_ E] | [_ E]]; rewrite E in *; [right; now left | now left].
Qed.

Lemma reduce_row_min (v : Z) (row : list Z) : extreme Z.le v row (reduce_row Z.min v row).
Proof.
  destruct row as [|x rest]; [reflexivity|]. cbn [reduce_row extreme].
  destruct (fold_min rest x) as (H1 & H2 & H3). cbv zeta in H1, H2, H3. split.
  - destruct H1 as [-> | H1]; [now left | now right].
  - constructor; assumption.
Qed.

Lemma reduce_row_max (v : Z) (row : list Z) : extreme Z.ge v row (reduce_row Z.max v row).
Proof.
  destruct row as [|x rest]; [reflexivity|]. cbn [reduce_row extreme].
  destruct (fold_max rest x) as (H1 & H2 & H3). cbv zeta in H1, H2, H3. split.
  - destruct H1 as [-> | H1]; [now left | now right].
  - constructor; assumption.
Qed.

Lemma Forall2_map_r {A B} (P : A -> B -> Prop) (g : A -> B) (l : list A) :
  (forall x, P x (g x)) -> Forall2 P l (map g l).
Proof. intros H. induction l; cbn; constructor; auto. Qed.

(** X13.  [min] and [max] on the contiguous path, under the conditions of
    X12 and for an integer dtype: item [i] of the result is an item of row
    [i] that is at most (at least) every item of the row; for an empty row
    it is the largest (smallest) value of the dtype. *)
Theorem minmax_contiguous (oa : list Z -> list Z -> option (list Z)) (garbage : nat -> Z)
    (self : JaggedArray np.ndarray) (lo hi : Z) :
  aliasing oa -> ranges self ->
  np.array_equal (np.from1 (_starts self)) (np.upto_last (_stops self)) = true ->
  (forall o, _offsets self = Some o -> o = _starts self ++ [last (_stops self) 0]) ->
  np.item (_starts self) 0 = Ok 0 ->
  last (_starts self) 0 < last (_stops self) 0 ->
  last (_stops self) 0 <= np.len (np.data (_content self)) ->
  np.iinfo_min (np.dtype_of (_content self)) = Ok lo ->
  np.iinfo_max (np.dtype_of (_content self)) = Ok hi ->
  (exists out,
     value_of (min oa garbage) self = Ok (Flat (np.array (np.dtype_of (_content self)) out))
     /\ Forall2 (extreme Z.le hi) (rows_of self) out)
  /\ (exists out,
        value_of (max oa garbage) self = Ok (Flat (np.array (np.dtype_of (_content self)) out))
        /\ Forall2 (extreme Z.ge lo) (rows_of self) out).
Proof.
  intros Ha Hr He Hc Hfirst Hlast Hfit Hlo Hhi.
  assert (Hlen : length (_starts self) = length (_stops self))
    by (eapply Forall2_length; eauto).
  pose proof (rows_of_same_layout _ _ (validated_same_layout self)) as Hrows.
  destruct (validated_same_layout self) as (E1 & E2 & E3).
  assert (Hrun : forall f v,
            value_of (reduce_offsets oa f (Ok v)) (validated self)
            = Ok (map (reduce_row f v) (rows_of self))).
  { intros f v. rewrite Hrows. apply reduce_offsets_rows; unfold ranges;
      rewrite ?validated_offsets, <- ?E1, <- ?E2, <- ?E3; assumption. }
  split.
  - destruct (run_value _ _ _ (Hrun Z.min hi)) as (s' & Hmin).
    exists (map (reduce_row Z.min hi) (rows_of self)). split.
    + unfold min, _canuseoffset, _minmax_offset. run. rewrite (valid_validated self Hlen).
      rewrite <- E1, <- E2. unfold contiguous. rewrite He, orb_true_r.
      rewrite <- E3, Hhi, Hmin. reflexivity.
    + apply Forall2_map_r. intros row. apply reduce_row_min.
  - destruct (run_value _ _ _ (Hrun Z.max lo)) as (s' & Hmax).
    exists (map (reduce_row Z.max lo) (rows_of self)). split.
    + unfold max, _canuseoffset, _minmax_offset. run. rewrite (valid_validated self Hlen).
      rewrite <- E1, <- E2. unfold contiguous. rewrite He, orb_true_r.
      rewrite <- E3, Hlo, Hmax. reflexivity.
    + apply Forall2_map_r. intros row. apply reduce_row_max.
Qed.

(** The loop of the general paths over rows that [step] can reduce,
    started on an output filled with [v]. *)
Lemma each_row_fill (step : Z -> list Z -> result Z) (content : list Z)
    (new : Z * Z -> Z) (v : Z) (pairs : list (Z * Z)) (pre_t pre_o : list Z) :
  length pre_t = length pre_o ->
  Forall (fun p => fst p <> snd p ->
                   step v (np.slice content (fst p) (snd p)) = Ok (new p)) pairs ->
  each_row step content (pre_t ++ map snd pairs) (np.len pre_o) (map fst pairs)
    (pre_o ++ repeat v (length pairs))
  = Ok (pre_o ++ map (fun p => if fst p =? snd p then v else new p) pairs).
Proof.
  intros Hpre H. revert pre_t pre_o Hpre.
  induction H as [|[s t] pairs Hp H IH]; intros pre_t pre_o Hpre.
  - cbn. reflexivity.
  - cbn [map fst snd length repeat each_row]. cbn [fst snd] in Hp.
    assert (Hi : np.len pre_o = Z.of_nat (length pre_t)) by (unfold np.len; lia).
    rewrite Hi at 1.
    rewrite (item_nth (pre_t ++ t :: map snd pairs) (length pre_t) 0)
      by (rewrite length_app; cbn [length]; lia).
    rewrite nth_middle. cbn [rbind].
    assert (Hstep :
      (if negb (s =? t)
       then
         let* old := np.item (pre_o ++ v :: repeat v (length pairs)) (np.len pre_o) in
         let* new0 := step old (np.slice content s t) in
         np.setitem_take (pre_o ++ v :: repeat v (length pairs)) [np.len pre_o] (np.Scalar new0)
       else Ok (pre_o ++ v :: repeat v (length pairs)))
      = Ok ((pre_o ++ [if s =? t then v else new (s, t)]) ++ repeat v (length pairs))).
    { destruct (s =? t) eqn:E; cbn [negb]; [now rewrite <- app_assoc|].
      apply Z.eqb_neq in E. unfold np.len.
      rewrite (item_nth (pre_o ++ v :: repeat v (length pairs)) (length pre_o) 0)
        by (rewrite length_app; cbn [length]; lia).
      rewrite nth_middle. cbn [rbind]. rewrite (Hp E). cbn [rbind].
      unfold np.setitem_take. cbn [np.spread length repeat rbind np.norm_indexes].
      unfold np.norm_index.
      replace (Z.of_nat (length pre_o) <? 0) with false by (symmetry; apply Z.ltb_ge; lia).
      replace (0 <=? Z.of_nat (length pre_o)) with true by (symmetry; apply Z.leb_le; lia).
      replace (Z.of_nat (length pre_o) <? Z.of_nat (length (pre_o ++ v :: repeat v (length pairs))))
        with true by (symmetry; apply Z.ltb_lt; rewrite length_app; cbn [length]; lia).
      cbn [andb rbind np.put]. rewrite Nat2Z.id, update_app, <- app_assoc. reflexivity. }
    rewrite Hstep. cbn [rbind].
    replace (pre_t ++ t :: map snd pairs) with ((pre_t ++ [t]) ++ map snd pairs)
      by now rewrite <- app_assoc.
    replace (np.len pre_o + 1) with (np.len (pre_o ++ [if s =? t then v else new (s, t)]))
      by (unfold np.len; rewrite length_app; cbn [length]; lia).
    rewrite IH by (rewrite !length_app; cbn [length]; lia).
    now rewrite <- app_assoc.
Qed.

(** X14.  [min] and [max] on the general path, under the conditions of
    X11: the same result as on the contiguous path. *)
Theorem minmax_general (oa : list Z -> list Z -> option (list Z)) (garbage : nat -> Z)
    (self : JaggedArray np.ndarray) (lo hi : Z) :
  aliasing oa -> ranges self ->
  Forall (fun t => t <= np.len (np.data (_content self))) (_stops self) ->
  np.array_equal (np.from1 (_starts self)) (np.upto_last (_stops self)) = false ->
  np.iinfo_min (np.dtype_of (_content self)) = Ok lo ->
  np.iinfo_max (np.dtype_of (_content self)) = Ok hi ->
  (exists out,
     value_of (min oa garbage) self = Ok (Flat (np.array (np.dtype_of (_content self)) out))
     /\ Forall2 (extreme Z.le hi) (rows_of self) out)
  /\ (exists out,
        value_of (max oa garbage) self = Ok (Flat (np.array (np.dtype_of (_content self)) out))
        /\ Forall2 (extreme Z.ge lo) (rows_of self) out).
Proof.
  intros Ha Hr Hb He Hlo Hhi.
  assert (Hlen : length (_starts self) = length (_stops self))
    by (eapply Forall2_length; eauto).
  assert (Hdt : np.is_integer (np.dtype_of (_content self)) = true)
    by (destruct (np.dtype_of (_content self)); [reflexivity..|discriminate]).
  destruct (validated_same_layout self) as (E1 & E2 & E3).
  pose proof (ranges_pairs _ _ _ Hr Hb) as HQ.
  assert (Hrun : forall f v,
            each_row (fun _ row => np.reduce f row) (np.data (_content self))
              (_stops self) 0 (_starts self) (np.full (np.len (_starts self)) v)
            = Ok (map (reduce_row f v) (rows_of self))).
  { intros f v. unfold rows_of, np.full, np.len. rewrite Nat2Z.id.
    destruct (map_fst_combine_same _ _ Hlen) as [Fs Ft].
    revert HQ Fs Ft. generalize (combine (_starts self) (_stops self)). intros pairs HQ Fs Ft.
    rewrite <- Ft. rewrite <- Fs at 1 2. rewrite length_map.
    rewrite (each_row_fill _ _ (fun p => reduce_row f v
                                  (np.slice (np.data (_content self)) (fst p) (snd p)))
               v pairs [] [] eq_refl).
    - cbn [app]. rewrite map_map. f_equal. apply map_ext_in. intros p Hp.
      pose proof (proj1 (Forall_forall _ _) HQ p Hp) as (H1 & H2). cbv beta in H1, H2.
      destruct (fst p =? snd p) eqn:E; [|reflexivity].
      apply Z.eqb_eq in E. rewrite <- E, slice_bounds by lia.
      now rewrite Z.sub_diag.
    - eapply Forall_impl; [|exact HQ]. cbv beta. intros p (H1 & H2) Hne.
      apply reduce_nonempty. apply slice_nonempty; lia. }
  split.
  - exists (map (reduce_row Z.min hi) (rows_of self)). split.
    + unfold min, _canuseoffset, _minmax_general. run. rewrite (valid_validated self Hlen).
      rewrite <- E1, <- E2. rewrite (not_contiguous oa _ _ Ha He).
      rewrite <- ?E1, <- ?E2, <- ?E3. rewrite Hdt, Hhi.
      unfold np.min. rewrite (Hrun Z.min hi). reflexivity.
    + apply Forall2_map_r. intros row. apply reduce_row_min.
  - exists (map (reduce_row Z.max lo) (rows_of self)). split.
    + unfold max, _canuseoffset, _minmax_general. run. rewrite (valid_validated self Hlen).
      rewrite <- E1, <- E2. rewrite (not_contiguous oa _ _ Ha He).
      rewrite <- ?E1, <- ?E2, <- ?E3. rewrite Hdt, Hlo.
      unfold np.max. rewrite (Hrun Z.max lo). reflexivity.
    + apply Forall2_map_r. intros row. apply reduce_row_max.
Qed.

Lemma sum_general_witness :
  value_of (sum no_alias) (view [2; 0] [4; 2] (int64s [1; 2; 3; 4])) = Ok (int64s [7; 3]).
Proof.
  apply (sum_general no_alias (view [2; 0] [4; 2] (int64s [1; 2; 3; 4])) no_alias_aliasing).
  - unfold ranges. cbn. repeat constructor; lia.
  - cbn. repeat constructor; lia.
  - reflexivity.
  - reflexivity.
Defined.

Lemma sum_contiguous_witness :
  value_of (sum no_alias) (view [0; 2; 2] [2; 2; 3] (int64s [1; 2; 3])) = Ok (int64s [3; 0; 3]).
Proof.
  apply (sum_contiguous no_alias (view [0; 2; 2] [2; 2; 3] (int64s [1; 2; 3]))
           no_alias_aliasing).
  - unfold ranges. cbn. repeat constructor; lia.
  - reflexivity.
  - intros o Ho. discriminate Ho.
  - reflexivity.
  - cbn. lia.
  - cbn. lia.
  - repeat constructor.
Defined.

Lemma minmax_contiguous_witness :
  exists out,
    value_of (min no_alias (fun _ => 0)) (view [0; 2; 2] [2; 2; 3] (int64s [5; 4; 6]))
    = Ok (Flat (int64s out))
    /\ Forall2 (extreme Z.le (2 ^ 63 - 1)) [[5; 4]; []; [6]] out.
Proof.
  apply (minmax_contiguous no_alias (fun _ => 0)
           (view [0; 2; 2] [2; 2; 3] (int64s [5; 4; 6])) (- 2 ^ 63) (2 ^ 63 - 1)
           no_alias_aliasing).
  - unfold ranges. cbn. repeat constructor; lia.
  - reflexivity.
  - intros o Ho. discriminate Ho.
  - reflexivity.
  - cbn. lia.
  - cbn. lia.
  - reflexivity.
  - reflexivity.
Defined.

Lemma minmax_general_witness :
  exists out,
    value_of (max no_alias (fun _ => 0)) (view [2; 0; 1] [4; 2; 1] (int64s [5; 4; 6; 1]))
    = Ok (Flat (int64s out))
    /\ Forall2 (extreme Z.ge (- 2 ^ 63)) [[6; 1]; [5; 4]; []] out.
Proof.
  apply (minmax_general no_alias (fun _ => 0)
           (view [2; 0; 1] [4; 2; 1] (int64s [5; 4; 6; 1])) (- 2 ^ 63) (2 ^ 63 - 1)
           no_alias_aliasing).
  - unfold ranges. cbn. repeat constructor; lia.
  - cbn. repeat constructor; lia.
  - reflexivity.
  - reflexivity.
  - reflexivity.
Defined.

(** ** [aligned] *)

Lemma eqb_list_select (m : list bool) (a b : list Z) :
  length a = length m -> length b = length m ->
  np.eqb_list (np.select m a) (np.select m b)
  = forallb (fun q => negb (fst q) || (fst (snd q) =? snd (snd q)))
            (combine m (combine a b)).
Proof.
  revert a b. induction m as [|[] m IH]; intros [|x a] [|y b] Ha Hb; cbn in Ha, Hb; try lia.
  - reflexivity.
  - cbn [np.select np.eqb_list combine forallb fst snd negb orb]. rewrite IH by lia. reflexivity.
  - cbn [np.select np.eqb_list combine forallb fst snd negb orb andb]. apply IH; lia.
Qed.

Lemma relevant_rows_length (starts stops : list Z) :
  length starts = length stops -> length (relevant_rows starts stops) = length starts.
Proof. intros H. unfold relevant_rows. now rewrite length_map, spans_length. Qed.

Lemma agree_select (S T s t : list Z) :
  length S = length T -> length s = length S -> length t = length S ->
  np.eqb_list (np.select (relevant_rows S T) S) (np.select (relevant_rows S T) s)
  && np.eqb_list (np.select (relevant_rows S T) T) (np.select (relevant_rows S T) t)
  = agree S T (s, t).
Proof.
  unfold agree. cbn [fst snd].
  revert T s t. induction S as [|x S IH]; intros [|y T] [|a s] [|b t] H1 H2 H3;
    cbn in H1, H2, H3; try lia; [reflexivity|].
  specialize (IH T s t ltac:(lia) ltac:(lia) ltac:(lia)).
  unfold relevant_rows, spans in *. cbn [combine map fst snd forallb].
  replace (y - x =? 0) with (x =? y)
    by (destruct (Z.eqb_spec x y), (Z.eqb_spec (y - x) 0); lia || reflexivity).
  destruct (x =? y); cbn [negb np.select np.eqb_list orb].
  - exact IH.
  - rewrite <- IH. destruct (x =? a), (y =? b); cbn [andb]; try reflexivity;
      now rewrite andb_false_r.
Qed.

Lemma aligned_side_run {C} (sel : JaggedArray C -> list Z) (first : JaggedArray C)
    (theirs : list Z) (relevant : option (list bool)) (mine : option (list Z)) :
  well_formed first -> ranges first ->
  length (sel first) = length (_starts first) ->
  (forall a b : JaggedArray C, same_layout a b -> sel a = sel b) ->
  length theirs = length (_starts first) ->
  relevant = None \/ relevant = Some (relevant_rows (_starts first) (_stops first)) ->
  mine = None
  \/ mine = Some (np.select (relevant_rows (_starts first) (_stops first)) (sel first)) ->
  exists first',
    aligned_side sel (Other theirs) relevant mine first
    = (Ok (np.eqb_list (np.select (relevant_rows (_starts first) (_stops first)) (sel first))
                       (np.select (relevant_rows (_starts first) (_stops first)) theirs),
           Some (relevant_rows (_starts first) (_stops first)),
           Some (np.select (relevant_rows (_starts first) (_stops first)) (sel first))),
       first')
    /\ same_layout first first' /\ well_formed first' /\ ranges first'.
Proof.
  intros Hwf Hr Hsel Hlay Hth Hrel Hmine.
  pose proof (Forall2_length Hr) as Hlen.
  set (rel := relevant_rows (_starts first) (_stops first)) in *.
  assert (Hlrel : length rel = length (_starts first)) by now apply relevant_rows_length.
  assert (Hrun : exists first',
            (match relevant with
             | Some r => ret r
             | None => c <- counts ;; lift (np.ne c [0])
             end) first = (Ok rel, first')
            /\ same_layout first first' /\ well_formed first' /\ ranges first').
  { destruct Hrel as [-> | ->].
    - destruct (counts_ranges first Hwf Hr) as (first' & Hc & Hs & Hw).
      exists first'. run. rewrite Hc. unfold np.ne. rewrite broadcast2_scalar_r.
      split; [reflexivity|]. split; [exact Hs|]. split; [exact Hw|].
      unfold ranges. destruct Hs as (<- & <- & _). exact Hr.
    - exists first. split; [reflexivity|]. split; [repeat split|]. split; assumption. }
  destruct Hrun as (first' & Hrun & Hs & Hw & Hr').
  exists first'. split; [|auto].
  unfold aligned_side. run. rewrite Hrun.
  rewrite <- (Hlay _ _ Hs).
  unfold np.compress. rewrite Hlrel, Hsel, Hth, !Nat.eqb_refl.
  destruct Hmine as [-> | ->]; reflexivity.
Qed.

Lemma aligned_loop_run {C} (rest : list (list Z * list Z)) (S T : list Z) :
  Forall (fun p => length (fst p) = length S /\ length (snd p) = length S) rest ->
  forall (first : JaggedArray C)
         (relevant : option (list bool)) (relevantstarts relevantstops : option (list Z)),
  well_formed first -> ranges first ->
  _starts first = S -> _stops first = T ->
  relevant = None \/ relevant = Some (relevant_rows S T) ->
  relevantstarts = None \/ relevantstarts = Some (np.select (relevant_rows S T) S) ->
  relevantstops = None \/ relevantstops = Some (np.select (relevant_rows S T) T) ->
  value_of (aligned_loop (others rest) relevant relevantstarts relevantstops) first
  = Ok (forallb (agree S T) rest).
Proof.
  induction 1 as [|[s t] rest [Hs Ht] Hrest IH];
    intros first relevant rs rt Hwf Hr ES ET Hrel Hrs Hrt; [reflexivity|].
  cbn [fst snd] in Hs, Ht. pose proof (Forall2_length Hr) as Hlen.
  cbn [others map fst snd aligned_loop forallb]. fold (others rest).
  destruct (aligned_side_run _starts first s relevant rs Hwf Hr eq_refl
              (fun a b H => proj1 H))
    as (first1 & Hrun1 & Hl1 & Hw1 & Hr1); rewrite ?ES, ?ET; auto.
  destruct Hl1 as (L1 & L2 & L3).
  destruct (aligned_side_run _stops first1 t (Some (relevant_rows S T)) rt Hw1 Hr1)
    as (first2 & Hrun2 & Hl2 & Hw2 & Hr2);
    rewrite <- ?L1, <- ?L2, ?ES, ?ET; auto.
  { now rewrite <- ET, <- ES. }
  { intros a b H. apply H. }
  destruct Hl2 as (M1 & M2 & M3).
  rewrite ES, ET in Hrun1. rewrite <- L1, <- L2, ES, ET in Hrun2.
  specialize (IH first2 (Some (relevant_rows S T))
                (Some (np.select (relevant_rows S T) S))
                (Some (np.select (relevant_rows S T) T)) Hw2 Hr2).
  rewrite <- M1, <- M2, <- L1, <- L2 in IH.
  specialize (IH ES ET ltac:(now right) ltac:(now right) ltac:(now right)).
  rewrite ES, ET in Hlen.
  rewrite <- (agree_select _ _ s t Hlen Hs Ht).
  unfold value_of in *. unfold bind at 1. rewrite Hrun1.
  destruct (np.eqb_list _ (np.select _ s)); cbn [negb andb]; [|reflexivity].
  unfold bind at 1. rewrite Hrun2.
  destruct (np.eqb_list _ (np.select _ t)); cbn [negb andb]; [|reflexivity].
  exact IH.
Qed.

(** X15.  [aligned(first, *rest)] for a first array of ranges and further
    arrays with as many starts and stops as the first has rows: True
    exactly when every further array has the start and the stop of the
    first on every row that is not empty in the first; rows that are empty
    in the first are not compared, whatever the others hold there. *)
Theorem aligned_rows {C} (first : JaggedArray C) (rest : list (list Z * list Z)) :
  well_formed first -> ranges first ->
  Forall (fun p => length (fst p) = length (_starts first)
                   /\ length (snd p) = length (_starts first)) rest ->
  value_of (aligned (others rest)) first
  = Ok (forallb (agree (_starts first) (_stops first)) rest).
Proof.
  intros Hwf Hr Hrest. unfold aligned.
  apply (aligned_loop_run rest _ _ Hrest); auto.
Qed.

Lemma aligned_rows_witness :
  value_of (aligned (others [([0; 7; 2], [2; 9; 5])]))
    (view [0; 2; 2] [2; 2; 5] (int64s [1; 2; 3; 4; 5]))
  = Ok true.
Proof.
  apply (aligned_rows (view [0; 2; 2] [2; 2; 5] (int64s [1; 2; 3; 4; 5]))
           [([0; 7; 2], [2; 9; 5])]).
  - repeat split; try reflexivity. intros c Hc. discriminate Hc.
  - unfold ranges. cbn. repeat constructor; lia.
  - repeat constructor.
Defined.

(** ** [cross] *)

Lemma update_length {A} (a : list A) (k : nat) (v : A) : length (np.update a k v) = length a.
Proof. revert k. induction a as [|x a IH]; intros [|k]; cbn; auto. Qed.

Lemma put_length {A} (a : list A) (ks : list nat) (vals : list A) :
  length (np.put a ks vals) = length a.
Proof.
  revert a vals. induction ks as [|k ks IH]; intros a [|v vals]; cbn; auto.
  now rewrite IH, update_length.
Qed.

Lemma setitem_take_length {A} (a a' : list A) (idx : list Z) (rhs : np.operand A) :
  np.setitem_take a idx rhs = Ok a' -> length a' = length a.
Proof.
  unfold np.setitem_take. destruct (np.spread _ _); [|discriminate]. cbn [rbind].
  destruct (np.norm_indexes _ _); [|discriminate]. cbn [rbind].
  intros [= <-]. apply put_length.
Qed.

Ltac unfold_step H :=
  match type of H with
  | context [match ?X with _ => _ end] =>
      lazymatch X with
      | context [match _ with _ => _ end] => fail
      | _ => destruct X eqn:?; try discriminate H
      end
  end.

Lemma valid_content {C} (self self' : JaggedArray C) (r : result unit) :
  _valid self = (r, self') -> _content self' = _content self.
Proof.
  destruct (valid_cases self) as [-> | ->]; intros [= _ <-]; [|reflexivity].
  symmetry. apply validated_same_layout.
Qed.

Lemma len_content {C} (self self' : JaggedArray C) (r : result Z) :
  __len__ self = (r, self') -> _content self' = _content self.
Proof.
  destruct (len_cases self) as [-> | ->]; intros [= _ <-]; [|reflexivity].
  symmetry. apply validated_same_layout.
Qed.

Lemma counts_content {C} (self self' : JaggedArray C) (r : result (list Z)) :
  counts self = (r, self') -> _content self' = _content self.
Proof.
  unfold counts, counts_by. run. destruct (_counts self); [now intros [= _ <-]|].
  destruct (_valid self) as [[[]|e] s1] eqn:Ev; [|intros [= _ <-]; eapply valid_content; eauto].
  apply valid_content in Ev.
  destruct (np.sub _ _); intros [= _ <-]; cbn; exact Ev.
Qed.

(** The two columns of the table of [argcross] have one item for every
    pair, their length is the last of the offsets, and the contents of the
    two arrays are left as they were. *)
Lemma argcross_columns {C D} (garbage : nat -> Z)
    (self self' : JaggedArray C) (other other' : JaggedArray D) (out : JaggedArray Table) :
  argcross garbage other self = (Ok (out, other'), self') ->
  length (left_column (_content out)) = Z.to_nat (_length (_content out))
  /\ length (right_column (_content out)) = Z.to_nat (_length (_content out))
  /\ (exists offsets,
        _offsets out = Some offsets /\ np.item offsets (-1) = Ok (_length (_content out)))
  /\ _content self' = _content self
  /\ _content other' = _content other.
Proof.
  unfold argcross. run. intros H.
  repeat unfold_step H. injection H as <- <- <-.
  match goal with E : fromoffsets _ _ = Ok _ |- _ => rename E into Hout end.
  unfold fromoffsets, __init__ in Hout.
  repeat unfold_step Hout. cbn [rbind] in Hout. injection Hout as <-.
  cbn [cache_parents cache_offsets _content _offsets left_column right_column _length].
  repeat match goal with
         | E : np.setitem_take _ _ _ = Ok _ |- _ => apply setitem_take_length in E; rewrite E
         end.
  rewrite empty_length. unfold np.len. rewrite arange_length, Nat2Z.id.
  split; [reflexivity|]. split; [reflexivity|]. split; [eauto|].
  repeat match goal with
         | E : _valid _ = _ |- _ => apply valid_content in E
         | E : __len__ _ = _ |- _ => apply len_content in E
         | E : counts _ = _ |- _ => apply counts_content in E
         end.
  split; congruence.
Qed.

Lemma slice_same_length {A B} (a : list A) (b : list B) (lo hi : Z) :
  length a = length b -> length (np.slice a lo hi) = length (np.slice b lo hi).
Proof.
  intros H. unfold np.slice, np.len. rewrite !length_firstn, !length_skipn, H. reflexivity.
Qed.

Lemma slice_arange (content : list Z) (s t : Z) :
  0 <= s <= t -> t <= np.len content ->
  np.slice content s t
  = map (fun a => nth (Z.to_nat (s + a)) content 0) (np.arange (t - s)).
Proof.
  intros H1 H2. apply (nth_ext _ _ 0 0).
  - rewrite length_map, arange_length.
    pose proof (slice_length content s t H1 H2) as Hl. unfold np.len in Hl. lia.
  - intros k Hk.
    pose proof (slice_length content s t H1 H2) as Hl. unfold np.len in Hl.
    rewrite nth_slice by lia.
    set (f := fun a => nth (Z.to_nat (s + a)) content 0).
    rewrite (nth_indep (map f (np.arange (t - s))) 0 (f 0))
      by (rewrite length_map, arange_length; lia).
    rewrite map_nth. unfold np.arange.
    rewrite (nth_indep (map Z.of_nat (seq 0 (Z.to_nat (t - s)))) 0 (Z.of_nat 0))
      by (rewrite length_map, length_seq; lia).
    rewrite map_nth, seq_nth by lia. unfold f. f_equal. lia.
Qed.

Lemma cross_pairs_items (content1 content2 : list Z) (s1 t1 s2 t2 : Z) :
  0 <= s1 <= t1 -> t1 <= np.len content1 -> 0 <= s2 <= t2 -> t2 <= np.len content2 ->
  map (items_at content1 content2) (cross_pairs s1 (t1 - s1) s2 (t2 - s2))
  = list_prod (np.slice content1 s1 t1) (np.slice content2 s2 t2).
Proof.
  intros H1 H2 H3 H4. rewrite (slice_arange content1 s1 t1), (slice_arange content2 s2 t2)
    by assumption.
  unfold cross_pairs. rewrite list_prod_as_flat_map.
  generalize (np.arange (t1 - s1)) as A. generalize (np.arange (t2 - s2)) as B.
  intros B A. induction A as [|a A IH]; cbn [flat_map map]; [reflexivity|].
  rewrite map_app, IH. f_equal. rewrite !map_map. reflexivity.
Qed.

Lemma row_pairs_items (content1 content2 S1 T1 S2 T2 : list Z) :
  Forall (fun p => 0 <= fst p <= snd p /\ snd p <= np.len content1) (combine S1 T1) ->
  Forall (fun p => 0 <= fst p <= snd p /\ snd p <= np.len content2) (combine S2 T2) ->
  map (fun q => map (items_at content1 content2)
                  (cross_pairs (fst (fst q)) (snd (fst q) - fst (fst q))
                               (fst (snd q)) (snd (snd q) - fst (snd q))))
      (combine (combine S1 T1) (combine S2 T2))
  = map (fun q => list_prod (fst q) (snd q))
        (combine (map (fun p => np.slice content1 (fst p) (snd p)) (combine S1 T1))
                 (map (fun p => np.slice content2 (fst p) (snd p)) (combine S2 T2))).
Proof.
  generalize (combine S1 T1) as P1. generalize (combine S2 T2) as P2.
  intros P2 P1 H1. revert P2. induction H1 as [|p1 P1 Hp1 H1 IH]; intros P2 H2; [reflexivity|].
  destruct H2 as [|p2 P2 Hp2 H2]; [reflexivity|].
  cbn [combine map fst snd]. rewrite IH by assumption. f_equal.
  apply cross_pairs_items; tauto.
Qed.

Lemma row_pairs_entries (content1 content2 S1 T1 S2 T2 : list Z) :
  Forall (fun p => 0 <= fst p <= snd p /\ snd p <= np.len content1) (combine S1 T1) ->
  Forall (fun p => 0 <= fst p <= snd p /\ snd p <= np.len content2) (combine S2 T2) ->
  Forall (Forall (fun q => 0 <= fst q < np.len content1 /\ 0 <= snd q < np.len content2))
    (map (fun q => cross_pairs (fst (fst q)) (snd (fst q) - fst (fst q))
                               (fst (snd q)) (snd (snd q) - fst (snd q)))
         (combine (combine S1 T1) (combine S2 T2))).
Proof.
  generalize (combine S1 T1) as P1. generalize (combine S2 T2) as P2.
  intros P2 P1 H1. revert P2. induction H1 as [|p1 P1 Hp1 H1 IH]; intros P2 H2; [constructor|].
  destruct H2 as [|p2 P2 Hp2 H2]; [constructor|].
  cbn [combine map fst snd]. constructor; [|now apply IH].
  apply Forall_forall. intros q Hq. unfold cross_pairs in Hq.
  apply in_flat_map in Hq as (a & Ha & Hq). apply in_map_iff in Hq as (b & <- & Hb).
  apply in_arange in Ha. apply in_arange in Hb. cbn [fst snd]. lia.
Qed.

Lemma map_fst_slices {A B} (a : list A) (b : list B) (pairs : list (Z * Z)) :
  length a = length b ->
  map (fun l => map fst l)
      (map (fun p => combine (np.slice a (fst p) (snd p)) (np.slice b (fst p) (snd p))) pairs)
  = map (fun p => np.slice a (fst p) (snd p)) pairs
  /\ map (fun l => map snd l)
        (map (fun p => combine (np.slice a (fst p) (snd p)) (np.slice b (fst p) (snd p))) pairs)
     = map (fun p => np.slice b (fst p) (snd p)) pairs.
Proof.
  intros H. rewrite !map_map. split; apply map_ext; intros p;
    apply map_fst_combine_same, slice_same_length, H.
Qed.

(** X16.  [self.cross(other)] for two views of ranges within their
    contents, with the same number of rows and fewer than 2^63 pairs in
    all: row [i] of the result holds every pair of an item of row [i] of
    [self] with an item of row [i] of [other], the item of [self] varying
    slowest. *)
Theorem cross_rows (garbage : nat -> Z) (self other : JaggedArray np.ndarray) :
  well_formed self -> well_formed other -> ranges self -> ranges other ->
  length (_starts self) = length (_starts other) ->
  total (pair_counts self other) < 2 ^ 63 ->
  Forall (fun t => t <= np.len (np.data (_content self))) (_stops self) ->
  Forall (fun t => t <= np.len (np.data (_content other))) (_stops other) ->
  exists out,
    value_of (cross garbage other) self = Ok out
    /\ table_rows out
       = map (fun q => list_prod (fst q) (snd q)) (combine (rows_of self) (rows_of other)).
Proof.
  intros Hwf1 Hwf2 Hr1 Hr2 Hn Htot Hb1 Hb2.
  destruct (argcross_pairs garbage self other Hwf1 Hwf2 Hr1 Hr2 Hn Htot)
    as (out0 & other' & Hrun & Hoff & Hst & Hsp & _ & Hrows).
  apply run_value in Hrun as (self' & Hrun).
  destruct (argcross_columns garbage _ _ _ _ _ Hrun)
    as (HL & HR & (offs & Ho & Hitem) & Ec1 & Ec2).
  rewrite Hoff in Ho. injection Ho as <-.
  set (sizes := pair_counts self other) in *.
  assert (Hpos : Forall (fun z => 0 <= z) sizes).
  { apply pair_counts_bounds; apply spans_bounds; assumption. }
  assert (Hoffs : util.counts2offsets sizes = 0 :: np.accumulate Z.add 0 sizes).
  { unfold util.counts2offsets, np.cumsum. now rewrite accumulate_nowrap by (auto; lia). }
  rewrite Hoffs in *.
  rewrite (item_last _ 0) in Hitem by discriminate.
  rewrite last_accumulate, Z.add_0_l in Hitem. injection Hitem as Hlength.
  rewrite <- Hlength in HL, HR.
  rewrite upto_last_accumulate in Hst. change (np.from1 (0 :: ?l)) with l in Hsp.
  set (L := left_column (_content out0)) in *.
  set (R := right_column (_content out0)) in *.
  set (pairs := combine (starts_from 0 sizes) (np.accumulate Z.add 0 sizes)).
  assert (Hrows0 : map (fun p => combine (np.slice L (fst p) (snd p))
                                         (np.slice R (fst p) (snd p))) pairs
                   = row_pairs self other).
  { rewrite <- Hrows. unfold table_rows. now rewrite Hst, Hsp. }
  pose proof (total_nonneg sizes Hpos) as Htot0.
  destruct (map_fst_slices L R pairs ltac:(lia)) as [HmL HmR].
  rewrite Hrows0 in HmL, HmR.
  destruct (rows_from_counts L sizes 0 Hpos) as [_ HcL]; [lia | unfold np.len; lia |].
  destruct (rows_from_counts R sizes 0 Hpos) as [_ HcR]; [lia | unfold np.len; lia |].
  cbv zeta in HcL, HcR. fold pairs in HcL, HcR.
  rewrite <- HmL in HcL. rewrite <- HmR in HcR.
  rewrite Z.add_0_l in HcL, HcR.
  rewrite slice_bounds in HcL, HcR by (unfold np.len; lia).
  cbn [Z.to_nat skipn] in HcL, HcR. rewrite Z.sub_0_r in HcL, HcR.
  rewrite firstn_all2 in HcL, HcR by lia.
  set (c1 := np.data (_content self)) in *. set (c2 := np.data (_content other)) in *.
  pose proof (row_pairs_entries c1 c2 _ _ _ _ (ranges_pairs c1 _ _ Hr1 Hb1)
                (ranges_pairs c2 _ _ Hr2 Hb2)) as Hent.
  fold (row_pairs self other) in Hent.
  assert (HinL : Forall (fun i => 0 <= (fun x : Z => x) i < np.len c1) L).
  { rewrite <- HcL. apply Forall_concat. apply Forall_map.
    eapply Forall_impl; [|exact Hent]. cbv beta. intros row Hrow.
    apply Forall_map. eapply Forall_impl; [|exact Hrow]. cbv beta. tauto. }
  assert (HinR : Forall (fun i => 0 <= (fun x : Z => x) i < np.len c2) R).
  { rewrite <- HcR. apply Forall_concat. apply Forall_map.
    eapply Forall_impl; [|exact Hent]. cbv beta. intros row Hrow.
    apply Forall_map. eapply Forall_impl; [|exact Hrow]. cbv beta. tauto. }
  pose proof (take_map c1 0 (fun x => x) L HinL) as HtL. rewrite map_id in HtL.
  pose proof (take_map c2 0 (fun x => x) R HinR) as HtR. rewrite map_id in HtR.
  unfold cross. run. rewrite Hrun, Hoff, Ec1, Ec2. fold L R c1 c2.
  rewrite HtL, HtR.
  unfold fromoffsets, __init__.
  assert (Hacc : Forall (fun z => 0 <= z) (np.accumulate Z.add 0 sizes))
    by (apply accumulate_nonnegative; [lia | exact Hpos]).
  rewrite (negative_any_false (0 :: _)) by (constructor; [lia | exact Hacc]).
  rewrite upto_last_accumulate. change (np.from1 (0 :: ?l)) with l.
  rewrite !negative_any_false
    by (first [exact Hacc | apply starts_from_nonnegative; [lia | exact Hpos]]).
  cbn [rbind fst]. eexists. split; [reflexivity|].
  unfold table_rows.
  cbn [_starts _stops _content cache_offsets left_column right_column].
  fold pairs. unfold rows_of. fold c1 c2.
  transitivity (map (map (items_at c1 c2)) (row_pairs self other)).
  2:{ unfold row_pairs. rewrite map_map.
      apply (row_pairs_items c1 c2 _ _ _ _ (ranges_pairs c1 _ _ Hr1 Hb1)
               (ranges_pairs c2 _ _ Hr2 Hb2)). }
  rewrite <- Hrows0. rewrite map_map.
  apply map_ext. intros p. rewrite !slice_map.
  generalize (np.slice L (fst p) (snd p)) as A. generalize (np.slice R (fst p) (snd p)) as B.
  intros B A. revert B. induction A as [|a A IH]; intros [|b B]; cbn; try reflexivity.
  now rewrite IH.
Qed.

Lemma cross_rows_witness :
  exists out,
    value_of (cross (fun _ => 0) (view [0; 1] [1; 3] (int64s [7; 8; 9])))
      (view [0; 2] [2; 3] (int64s [4; 5; 6])) = Ok out
    /\ table_rows out = [[(4, 7); (5, 7)]; [(6, 8); (6, 9)]].
Proof.
  apply (cross_rows (fun _ => 0) (view [0; 2] [2; 3] (int64s [4; 5; 6]))
           (view [0; 1] [1; 3] (int64s [7; 8; 9]))).
  - repeat split; try reflexivity. intros c Hc. discriminate Hc.
  - repeat split; try reflexivity. intros c Hc. discriminate Hc.
  - unfold ranges. cbn. repeat constructor; lia.
  - unfold ranges. cbn. repeat constructor; lia.
  - reflexivity.
  - reflexivity.
  - cbn. repeat constructor; lia.
  - cbn. repeat constructor; lia.
Defined.

(** ** Targets that [_tojagged] refuses, and [_divitemsize] *)

Lemma eqb_list_neq (a b : list Z) : a <> b -> np.eqb_list a b = false.
Proof.
  intros H. destruct (np.eqb_list a b) eqn:E; [|reflexivity].
  apply eqb_list_eq in E. contradiction.
Qed.

(** X17.  [_tojagged(starts, stops)] with both targets given, on a view of
    ranges: when the row lengths [stops - starts] of the target are not the
    row lengths of the view, the call raises IndexError, with or without
    copy. *)
Theorem tojagged_counts_mismatch (oa : list Z -> list Z -> option (list Z))
    (self : JaggedArray np.ndarray) (starts stops d : list Z) (copy_ : bool) :
  well_formed self -> ranges self ->
  np.sub stops starts = Ok d ->
  d <> spans (_starts self) (_stops self) ->
  value_of (_tojagged oa (Some (Other starts)) (Some (Other stops)) copy_) self
  = Raise IndexError.
Proof.
  intros Hwf Hr Hd Hne.
  destruct (counts_ranges self Hwf Hr) as (self' & Hc & _).
  unfold _tojagged. run. cbn [target_value]. rewrite Hd, Hc.
  unfold np.array_equal. now rewrite (eqb_list_neq _ _ Hne).
Qed.

Lemma tojagged_counts_mismatch_witness :
  value_of (_tojagged no_alias (Some (Other [0; 2])) (Some (Other [2; 4])) false)
    (view [0; 2] [2; 5] (int64s [1; 2; 3; 4; 5]))
  = Raise IndexError.
Proof.
  apply (tojagged_counts_mismatch no_alias (view [0; 2] [2; 5] (int64s [1; 2; 3; 4; 5]))
           [0; 2] [2; 4] [2; 2] false).
  - repeat split; try reflexivity. intros c Hc. discriminate Hc.
  - unfold ranges. cbn. repeat constructor; lia.
  - reflexivity.
  - discriminate.
Defined.

Lemma nth_upto_last (l : list Z) (i : nat) :
  (S i < length l)%nat -> nth i (np.upto_last l) 0 = nth i l 0.
Proof.
  unfold np.upto_last. revert i. induction l as [|x l IH]; intros i Hi; cbn in Hi; [lia|].
  destruct l as [|y l]; [cbn in Hi; lia|].
  change (removelast (x :: y :: l)) with (x :: removelast (y :: l)).
  destruct i as [|i]; [reflexivity|]. cbn [nth]. apply IH. cbn [length] in *. lia.
Qed.

Lemma length_upto_last {A} (l : list A) : length (np.upto_last l) = pred (length l).
Proof.
  unfold np.upto_last. induction l as [|x l IH]; [reflexivity|].
  destruct l as [|y l]; [reflexivity|].
  change (removelast (x :: y :: l)) with (x :: removelast (y :: l)).
  cbn [length] in *. now rewrite IH.
Qed.

(** X18.  [_tojagged(starts)] with only the starts given, on a view of
    ranges: when some row, laid at its target start with its present
    length, would reach beyond the target start of the next row, the call
    raises IndexError. *)
Theorem tojagged_starts_overlap (oa : list Z -> list Z -> option (list Z))
    (self : JaggedArray np.ndarray) (starts : list Z) (copy_ : bool) (i : nat) :
  well_formed self -> ranges self ->
  length starts = length (_starts self) ->
  Forall2 (fun s c => 0 <= s /\ s + c < 2 ^ 63) starts (spans (_starts self) (_stops self)) ->
  (S i < length starts)%nat ->
  nth i starts 0 + nth i (spans (_starts self) (_stops self)) 0 > nth (S i) starts 0 ->
  value_of (_tojagged oa (Some (Other starts)) None copy_) self = Raise IndexError.
Proof.
  intros Hwf Hr Hlen Hfit Hi Hover.
  pose proof (Forall2_length Hr) as Hl.
  destruct (counts_ranges (validated self) (validated_well_formed self Hwf))
    as (self' & Hc & _).
  { unfold ranges. destruct (validated_same_layout self) as (<- & <- & _). exact Hr. }
  destruct (validated_same_layout self) as (E1 & E2 & _). rewrite <- E1, <- E2 in Hc.
  set (c := spans (_starts self) (_stops self)) in *.
  unfold _tojagged. run. cbn [target_value]. rewrite (len_validated self Hl).
  unfold np.len. rewrite Hlen, Z.eqb_refl. cbn [negb]. rewrite Hc.
  assert (Hadd : np.add starts c = Ok (map (fun p => fst p + snd p) (combine starts c))).
  { unfold np.add. rewrite broadcast2_same by (eapply Forall2_length; eauto).
    f_equal. pose proof (spans_bounds _ _ Hr) as Hb. fold c in Hb.
    clearbody c. clear - Hfit Hb.
    induction Hfit as [|s x ss cs Hs _ IH]; [reflexivity|].
    apply Forall_cons_iff in Hb as [Hx Hb]. cbv beta in Hx.
    cbn [combine map fst snd]. rewrite (IH Hb). f_equal. apply wrap64_small. lia. }
  rewrite Hadd.
  set (tv := map (fun p => fst p + snd p) (combine starts c)).
  assert (Hltv : length tv = length starts).
  { unfold tv. rewrite length_map, length_combine.
    pose proof (Forall2_length Hfit). lia. }
  unfold np.gt. rewrite broadcast2_same
    by (rewrite length_upto_last, Hltv; unfold np.from1; destruct starts; reflexivity).
  set (crossing := map _ (combine (np.upto_last tv) (np.from1 starts))).
  replace (np.any crossing) with true; [reflexivity|].
  symmetry. destruct (np.any crossing) eqn:E; [reflexivity|]. exfalso.
  unfold np.any in E.
  assert (Hlc : (i < length crossing)%nat).
  { unfold crossing. rewrite length_map, length_combine, length_upto_last, Hltv.
    unfold np.from1. destruct starts; cbn [length tl] in *; lia. }
  pose proof (existsb_nth (fun b => b) crossing false Hlc E) as Hn.
  unfold crossing in Hn.
  rewrite (nth_map_combine _ _ _ i false 0 0) in Hn
    by (rewrite ?length_upto_last, ?Hltv; unfold np.from1;
        destruct starts; cbn [length tl] in *; lia).
  cbn [fst snd] in Hn. rewrite nth_upto_last in Hn by lia.
  unfold np.from1 in Hn. replace (nth i (tl starts) 0) with (nth (S i) starts 0) in Hn
    by (destruct starts; [destruct i|]; reflexivity).
  unfold tv in Hn.
  rewrite (nth_map_combine _ _ _ i 0 0 0) in Hn
    by (pose proof (Forall2_length Hfit); lia).
  cbn [fst snd] in Hn. rewrite Z.gtb_ltb in Hn. apply Z.ltb_ge in Hn. lia.
Qed.

Lemma tojagged_starts_overlap_witness :
  value_of (_tojagged no_alias (Some (Other [0; 1])) None false)
    (view [0; 2] [2; 5] (int64s [1; 2; 3; 4; 5]))
  = Raise IndexError.
Proof.
  apply (tojagged_starts_overlap no_alias (view [0; 2] [2; 5] (int64s [1; 2; 3; 4; 5]))
           [0; 1] false 0%nat).
  - repeat split; try reflexivity. intros c Hc. discriminate Hc.
  - unfold ranges. cbn. repeat constructor; lia.
  - reflexivity.
  - cbn. repeat constructor; lia.
  - cbn. lia.
  - cbn. lia.
Defined.

(** X19.  [_divitemsize(x)] is the floor division of every item by the
    item size, for every positive item size and every int64 item, negative
    ones included: the shifts used for the sizes 2, 4 and 8 agree with the
    division used for the others. *)
Theorem divitemsize_floor (itemsize : Z) (x : list Z) :
  0 < itemsize ->
  Forall (fun v => - 2 ^ 63 <= v < 2 ^ 63) x ->
  _divitemsize itemsize x = map (fun v => v / itemsize) x.
Proof.
  intros Hk Hx. unfold _divitemsize.
  destruct (Z.eqb_spec itemsize 1) as [->|_].
  { rewrite <- (map_id x) at 1. apply map_ext. intros v. now rewrite Z.div_1_r. }
  destruct (Z.eqb_spec itemsize 2) as [->|_].
  { apply map_ext. intros v. now rewrite Z.shiftr_div_pow2. }
  destruct (Z.eqb_spec itemsize 4) as [->|_].
  { apply map_ext. intros v. now rewrite Z.shiftr_div_pow2. }
  destruct (Z.eqb_spec itemsize 8) as [->|_].
  { apply map_ext. intros v. now rewrite Z.shiftr_div_pow2. }
  apply map_ext_in. intros v Hv.
  pose proof (proj1 (Forall_forall _ _) Hx v Hv) as Hb. cbv beta in Hb.
  apply wrap64_small.
  assert (- 2 ^ 63 <= v / itemsize) by (apply Z.div_le_lower_bound; nia).
  assert (v / itemsize < 2 ^ 63) by (apply Z.div_lt_upper_bound; nia).
  lia.
Qed.

Lemma divitemsize_floor_witness :
  _divitemsize 4 [8; 9; -1] = [2; 2; -1] /\ _divitemsize 3 [8; 9; -1] = [2; 3; -1].
Proof.
  split.
  - apply (divitemsize_floor 4 [8; 9; -1]); [lia | repeat constructor; lia].
  - apply (divitemsize_floor 3 [8; 9; -1]); [lia | repeat constructor; lia].
Defined.

(** ** [__array_ufunc__] *)

Lemma tojagged_itself (oa : list Z -> list Z -> option (list Z))
    (self : JaggedArray np.ndarray) :
  length (_starts self) = length (_stops self) ->
  _tojagged oa None None false self = (Ok self, self).
Proof.
  intros H. unfold _tojagged, _validstartsstops. run. cbn [target_value].
  now rewrite H, Nat.ltb_irrefl.
Qed.

Lemma copy_content {C} (self : JaggedArray C) (result : C) :
  negative_any (_starts self) = false -> negative_any (_stops self) = false ->
  copy self (Some (_starts self)) (Some (_stops self)) (Some result)
  = Ok (with_content self result).
Proof.
  intros H1 H2. unfold copy, exec, set_starts, set_stops, set_content, modify.
  rewrite H1. cbn [rbind _stops]. rewrite H2. reflexivity.
Qed.

(** X20.  [__array_ufunc__] on a well-formed view and one Python number,
    given after or before the view: the ufunc is applied once, to the whole
    content of the view (the items outside every row included) and the
    number, in the order of the call; the result is the view with the same
    starts and stops and the ufunc's result as content, and an exception of
    the ufunc is the exception of the call. *)
Theorem ufunc_with_number (oa : list Z -> list Z -> option (list Z)) (garbage : nat -> Z)
    (ufunc : list (np.operand Z) -> result np.ndarray)
    (self : JaggedArray np.ndarray) (x : Z) :
  well_formed self ->
  value_of (__array_ufunc__ oa garbage ufunc [] [Plain (Number x)]) self
  = (let* result := ufunc [np.Values (np.data (_content self)); np.Scalar x] in
     Ok (with_content self result))
  /\ value_of (__array_ufunc__ oa garbage ufunc [Number x] []) self
     = (let* result := ufunc [np.Scalar x; np.Values (np.data (_content self))] in
        Ok (with_content self result)).
Proof.
  intros (Hs & Ht & Hlen & _).
  destruct (validated_same_layout self) as (E1 & E2 & E3).
  assert (Hlen' : length (_starts (validated self)) = length (_stops (validated self)))
    by now rewrite <- E1, <- E2.
  split.
  - unfold __array_ufunc__. run. rewrite (valid_validated self Hlen).
    rewrite (tojagged_itself oa _ Hlen').
    repeat (cbn [for_each relayout existsb is_ndarray is_plain_ndarray orb lift_after
                 lift_plain flat_operand app]; run).
    rewrite <- E3. destruct (ufunc _) as [r|e]; [|reflexivity]. cbn [rbind].
    rewrite copy_content by now rewrite <- ?E1, <- ?E2.
    cbn [fst]. unfold with_content. now rewrite <- E1, <- E2.
  - unfold __array_ufunc__. run. rewrite (valid_validated self Hlen).
    rewrite (tojagged_itself oa _ Hlen').
    repeat (cbn [for_each relayout existsb is_ndarray is_plain_ndarray orb lift_after
                 lift_plain flat_operand app]; run).
    rewrite <- E3. destruct (ufunc _) as [r|e]; [|reflexivity]. cbn [rbind].
    rewrite copy_content by now rewrite <- ?E1, <- ?E2.
    cbn [fst]. unfold with_content. now rewrite <- E1, <- E2.
Qed.

Lemma ufunc_with_number_witness :
  value_of (__array_ufunc__ no_alias (fun _ => 0) numpy_add [] [Plain (Number 10)])
    (view [3; 0] [5; 2] (int64s [1; 2; 3; 4; 5]))
  = Ok (view [3; 0] [5; 2] (int64s [11; 12; 13; 14; 15])).
Proof.
  refine (proj1 (ufunc_with_number no_alias (fun _ => 0) numpy_add
                   (view [3; 0] [5; 2] (int64s [1; 2; 3; 4; 5])) 10 _)).
  repeat split; try reflexivity. intros c Hc. discriminate Hc.
Defined.

(** Relayout without copy to targets that are the arrays of the view, or
    equal to them: the content is kept. *)
Lemma tojagged_same (oa : list Z -> list Z -> option (list Z))
    (j : JaggedArray np.ndarray) (starts stops : target) :
  well_formed j ->
  target_value (_starts j) starts = _starts j ->
  target_value (_stops j) stops = _stops j ->
  exists out j',
    _tojagged oa (Some starts) (Some stops) false j = (Ok out, j')
    /\ _content out = _content j /\ _content j' = _content j
    /\ _starts j' = _starts j /\ _stops j' = _stops j.
Proof.
  intros Hwf Hs Ht.
  destruct (counts_well_formed j Hwf) as (c & j1 & Hc & Hsub & (L1 & L2 & L3) & Hw1).
  destruct Hwf as (N1 & N2 & Hlen & _).
  unfold _tojagged. run. rewrite Hs, Ht, Hsub, Hc.
  unfold np.array_equal at 1. rewrite eqb_list_refl. cbn [negb].
  rewrite <- L1, <- L2.
  replace (target_value (_starts j) starts) with (_starts j)
    by (destruct starts; [reflexivity | now cbn in Hs]).
  replace (target_value (_stops j) stops) with (_stops j)
    by (destruct stops; [reflexivity | now cbn in Ht]).
  unfold _validstartsstops. rewrite Hlen, Nat.ltb_irrefl. cbn [negb andb].
  destruct (is_own starts && is_own stops).
  - exists j1, j1. rewrite <- L1, <- L2, <- L3. repeat split.
  - unfold np.array_equal. rewrite !eqb_list_refl, !orb_true_r. cbn [andb].
    unfold copy, exec, set_starts, set_stops, set_content, modify.
    rewrite N1. cbn [rbind _stops]. rewrite N2. cbn [rbind].
    eexists. exists j1. split; [reflexivity|]. cbn. rewrite <- L1, <- L2, <- L3.
    repeat split.
Qed.

(** X21.  [__array_ufunc__] on a well-formed view and a second well-formed
    view with equal starts and stops, or the view itself twice: the ufunc is
    applied once to the two whole contents, and the result has the starts
    and stops of the view and the ufunc's result as content. *)
Theorem ufunc_same_layout (oa : list Z -> list Z -> option (list Z)) (garbage : nat -> Z)
    (ufunc : list (np.operand Z) -> result np.ndarray)
    (self other : JaggedArray np.ndarray) :
  well_formed self -> well_formed other ->
  _starts other = _starts self -> _stops other = _stops self ->
  value_of (__array_ufunc__ oa garbage ufunc [] [Another other]) self
  = (let* result := ufunc [np.Values (np.data (_content self));
                          np.Values (np.data (_content other))] in
     Ok (with_content self result))
  /\ value_of (__array_ufunc__ oa garbage ufunc [] [Itself]) self
     = (let* result := ufunc [np.Values (np.data (_content self));
                             np.Values (np.data (_content self))] in
        Ok (with_content self result)).
Proof.
  intros Hwf Hwo Hs Ht.
  pose proof Hwf as (N1 & N2 & Hlen & _).
  destruct (validated_same_layout self) as (E1 & E2 & E3).
  assert (Hlen' : length (_starts (validated self)) = length (_stops (validated self)))
    by now rewrite <- E1, <- E2.
  split.
  - destruct (tojagged_same oa other (Other (_starts self)) (Other (_stops self)) Hwo)
      as (out & o' & Hrun & Hc & _); [exact (eq_sym Hs) | exact (eq_sym Ht) |].
    unfold __array_ufunc__. run. rewrite (valid_validated self Hlen).
    rewrite (tojagged_itself oa _ Hlen').
    cbn [for_each relayout]. run. rewrite <- E1, <- E2, Hrun.
    repeat (cbn [for_each relayout existsb is_ndarray is_plain_ndarray orb lift_after
                 lift_plain flat_operand app]; run).
    rewrite <- E3, Hc. destruct (ufunc _) as [r|e]; [|reflexivity]. cbn [rbind].
    rewrite E1, E2, copy_content by now rewrite <- ?E1, <- ?E2.
    cbn [fst]. unfold with_content. now rewrite <- E1, <- E2.
  - destruct (tojagged_same oa (validated self) Own Own (validated_well_formed self Hwf)
                eq_refl eq_refl)
      as (out & s' & Hrun & Hc & Hc' & L1 & L2).
    unfold __array_ufunc__. run. rewrite (valid_validated self Hlen).
    rewrite (tojagged_itself oa _ Hlen').
    cbn [for_each relayout]. run. rewrite Hrun.
    repeat (cbn [for_each relayout existsb is_ndarray is_plain_ndarray orb lift_after
                 lift_plain flat_operand app]; run).
    rewrite Hc, Hc', <- E3. destruct (ufunc _) as [r|e]; [|reflexivity]. cbn [rbind].
    rewrite <- L1, <- L2, copy_content by now rewrite ?L1, ?L2, <- ?E1, <- ?E2.
    cbn [fst]. unfold with_content. now rewrite L1, L2, <- E1, <- E2.
Qed.

Lemma ufunc_same_layout_witness :
  value_of (__array_ufunc__ no_alias (fun _ => 0) numpy_add []
              [Another (view [3; 0] [5; 2] (int64s [10; 20; 30; 40; 50]))])
    (view [3; 0] [5; 2] (int64s [1; 2; 3; 4; 5]))
  = Ok (view [3; 0] [5; 2] (int64s [11; 22; 33; 44; 55])).
Proof.
  refine (proj1 (ufunc_same_layout no_alias (fun _ => 0) numpy_add
                   (view [3; 0] [5; 2] (int64s [1; 2; 3; 4; 5]))
                   (view [3; 0] [5; 2] (int64s [10; 20; 30; 40; 50])) _ _ eq_refl eq_refl)).
  - repeat split; try reflexivity. intros c Hc. discriminate Hc.
  - repeat split; try reflexivity. intros c Hc. discriminate Hc.
Defined.

Lemma validated_parents {C} (self : JaggedArray C) :
  _parents (validated self) = _parents self.
Proof. unfold validated. now destruct (_isvalid self). Qed.

Lemma from1_starts_from (b : Z) (sizes : list Z) :
  np.from1 (starts_from b sizes) = np.upto_last (np.accumulate Z.add b sizes).
Proof.
  revert b. induction sizes as [|z sizes IH]; intros b; [reflexivity|].
  cbn [starts_from np.accumulate np.from1 tl]. cbv zeta.
  specialize (IH (b + z)). unfold np.from1, np.upto_last in *.
  destruct sizes as [|z' sizes]; [reflexivity|].
  cbn [np.accumulate starts_from tl] in *. cbv zeta in *.
  change (removelast (b + z :: ?x :: ?l)) with (b + z :: removelast (x :: l)).
  now rewrite <- IH.
Qed.

Lemma offsets_of_sizes (b : Z) (sizes : list Z) :
  sizes <> [] ->
  starts_from b sizes ++ [last (np.accumulate Z.add b sizes) 0]
  = b :: np.accumulate Z.add b sizes.
Proof.
  intros Hne. rewrite <- upto_last_accumulate. unfold np.upto_last.
  replace (last (np.accumulate Z.add b sizes) 0)
    with (last (b :: np.accumulate Z.add b sizes) 0)
    by (destruct sizes; [congruence | reflexivity]).
  symmetry. apply app_removelast_last. discriminate.
Qed.

Lemma blocks_entries (i : Z) (sizes : list Z) :
  Forall (fun x => i <= x < i + np.len sizes) (blocks i sizes).
Proof.
  revert i. induction sizes as [|z sizes IH]; intros i; [constructor|].
  cbn [blocks]. apply Forall_app. split.
  - apply Forall_forall. intros x Hx. apply repeat_spec in Hx. subst.
    unfold np.len. cbn [length]. lia.
  - eapply Forall_impl; [|apply IH]. cbv beta. intros x Hx.
    unfold np.len in *. cbn [length]. lia.
Qed.

Lemma blocks_length (i : Z) (sizes : list Z) :
  Forall (fun z => 0 <= z) sizes -> length (blocks i sizes) = Z.to_nat (total sizes).
Proof.
  intros H. revert i. induction H as [|z sizes Hz H IH]; intros i; [reflexivity|].
  cbn [blocks]. rewrite length_app, repeat_length, IH, total_cons.
  pose proof (total_nonneg sizes H). lia.
Qed.

Lemma blocks_items (d sizes : list Z) (pre : list Z) :
  length d = length sizes ->
  map (fun x => nth (Z.to_nat x) (pre ++ d) 0) (blocks (np.len pre) sizes)
  = spread_rows d sizes.
Proof.
  revert d pre. induction sizes as [|z sizes IH]; intros [|x d] pre H; cbn in H; try lia;
    [reflexivity|].
  unfold spread_rows. cbn [blocks combine map concat fst snd]. rewrite map_app. f_equal.
  - rewrite map_repeat. f_equal. unfold np.len. rewrite Nat2Z.id. apply nth_middle.
  - replace (pre ++ x :: d) with ((pre ++ [x]) ++ d) by now rewrite <- app_assoc.
    replace (np.len pre + 1) with (np.len (pre ++ [x]))
      by (unfold np.len; rewrite length_app; cbn [length]; lia).
    apply IH. lia.
Qed.

Lemma select_all {A} (p : list Z) (a : list A) :
  Forall (fun x => 0 <= x) p -> length a = length p ->
  np.select (nonnegative p) a = a.
Proof.
  intros H. revert a. induction H as [|x p Hx H IH]; intros [|y a] Hl; cbn in Hl; try lia;
    [reflexivity|].
  cbn [nonnegative map np.select]. fold (nonnegative p).
  replace (0 <=? x) with true by (symmetry; apply Z.leb_le; exact Hx).
  f_equal. apply IH. lia.
Qed.

(** The getter of parents on a view whose rows follow one another from
    position 0, with empty caches of offsets and parents: the row number of
    every position. *)
Lemma parents_compact {C} (oa : list Z -> list Z -> option (list Z))
    (self : JaggedArray C) (sizes : list Z) :
  aliasing oa ->
  _starts self = starts_from 0 sizes ->
  _stops self = np.accumulate Z.add 0 sizes ->
  sizes <> [] -> Forall (fun z => 0 <= z) sizes ->
  _offsets self = None -> _parents self = None ->
  exists self',
    parents_by oa _valid self = (Ok (blocks 0 sizes), self')
    /\ _parents self' = Some (blocks 0 sizes)
    /\ same_layout self self'.
Proof.
  intros Ha Hs Ht Hne Hpos Ho Hp.
  assert (Hlen : length (_starts self) = length (_stops self))
    by now rewrite Hs, Ht, starts_from_length, accumulate_length.
  assert (Hsne : _starts self <> [])
    by (rewrite Hs; destruct sizes; [congruence | discriminate]).
  destruct (validated_same_layout self) as (Ev1 & Ev2 & Ev3).
  assert (Hblocks : util.offsets2parents (_starts self ++ [last (_stops self) 0])
                    = blocks 0 sizes).
  { rewrite Hs, Ht, (offsets_of_sizes 0 sizes Hne). unfold util.offsets2parents.
    rewrite last_accumulate, Z.add_0_l, upto_last_accumulate.
    change (np.from1 (0 :: ?l)) with l. unfold np.full.
    apply (fill_rows_blocks sizes [] 0 0 Hpos). reflexivity. }
  unfold parents_by. run. rewrite Hp, (valid_validated self Hlen).
  unfold offsets_by. run. rewrite validated_offsets, Ho, valid_again.
  rewrite <- Ev1, <- Ev2.
  destruct (oa (_starts self) (_stops self)) as [base|] eqn:Eo.
  - rewrite (aliasing_base oa _ _ _ Ha Eo Hsne), Hblocks.
    eexists. split; [reflexivity|]. split; [reflexivity|]. repeat split; cbn; auto.
  - replace (np.array_equal _ _) with true
      by (symmetry; rewrite Hs, Ht, from1_starts_from; apply eqb_list_refl).
    rewrite (item_last (_stops self) 0)
      by (rewrite Ht; destruct sizes; [congruence | discriminate]).
    rewrite Hblocks.
    eexists. split; [reflexivity|]. split; [reflexivity|]. repeat split; cbn; auto.
Qed.

(** X22.  [__array_ufunc__] on a view and a plain numpy array with one item
    per row, for a view without cached offsets and parents whose rows follow
    one another from position 0 and cover the content: the ufunc receives
    the content and, for the array, item [i] repeated once for every item
    of row [i].  The parents used for this come from
    [awkward.util.offsets2parents], which is modelled from the spec. *)
Theorem ufunc_with_array (oa : list Z -> list Z -> option (list Z)) (garbage : nat -> Z)
    (ufunc : list (np.operand Z) -> result np.ndarray)
    (self : JaggedArray np.ndarray) (sizes : list Z) (d : np.ndarray) :
  aliasing oa ->
  _starts self = starts_from 0 sizes ->
  _stops self = np.accumulate Z.add 0 sizes ->
  sizes <> [] -> Forall (fun z => 0 <= z) sizes -> total sizes < 2 ^ 63 ->
  np.len (np.data (_content self)) = total sizes ->
  _offsets self = None -> _parents self = None ->
  length (np.data d) = length sizes ->
  value_of (__array_ufunc__ oa garbage ufunc [] [Plain (Ndarray d)]) self
  = (let* result := ufunc [np.Values (np.data (_content self));
                          np.Values (spread_rows (np.data d) sizes)] in
     Ok (with_content self result)).
Proof.
  intros Ha Hs Ht Hne Hpos Htot Hfit Ho Hp Hd.
  assert (Hlen : length (_starts self) = length (_stops self))
    by now rewrite Hs, Ht, starts_from_length, accumulate_length.
  destruct (validated_same_layout self) as (E1 & E2 & E3).
  assert (Hlen' : length (_starts (validated self)) = length (_stops (validated self)))
    by now rewrite <- E1, <- E2.
  destruct (parents_compact oa (validated self) sizes Ha)
    as (v1 & Hrun & Hcache & (L1 & L2 & L3)); rewrite <- ?E1, <- ?E2;
    rewrite ?validated_offsets, ?validated_parents; auto.
  pose proof (parents_cached oa v1 _ Hcache) as Hrun'.
  set (P := blocks 0 sizes) in *.
  assert (HP : Forall (fun x => 0 <= x) P).
  { eapply Forall_impl; [|apply (blocks_entries 0 sizes)]. cbv beta. intros x Hx. lia. }
  assert (HlP : length P = Z.to_nat (total sizes)) by now apply blocks_length.
  assert (Hneg1 : negative_any (_starts self) = false).
  { rewrite Hs. apply negative_any_false, starts_from_nonnegative; [lia | exact Hpos]. }
  assert (Hneg2 : negative_any (_stops self) = false).
  { rewrite Ht. apply negative_any_false, accumulate_nonnegative; [lia | exact Hpos]. }
  assert (Htake : np.take (np.data d) P = Ok (spread_rows (np.data d) sizes)).
  { unfold P. rewrite <- (blocks_items (np.data d) sizes [] Hd). cbn [app].
    change (np.len (@nil Z)) with 0.
    pose proof (take_map (np.data d) 0 (fun x => x) (blocks 0 sizes)) as Hk.
    rewrite map_id in Hk. apply Hk.
    eapply Forall_impl; [|apply (blocks_entries 0 sizes)]. cbv beta. intros x Hx.
    unfold np.len in *. rewrite Hd. lia. }
  assert (Hlsp : length (spread_rows (np.data d) sizes) = length P).
  { unfold P. rewrite <- (blocks_items (np.data d) sizes [] Hd). now rewrite length_map. }
  unfold __array_ufunc__. run. rewrite (valid_validated self Hlen).
  rewrite (tojagged_itself oa _ Hlen').
  repeat (cbn [for_each relayout existsb is_ndarray is_plain_ndarray orb]; run).
  rewrite Hrun.
  repeat (cbn [for_each lift_after lift_plain]; run).
  unfold ufunc_operand. run. rewrite Hrun'.
  assert (Hn : negb (np.len (_starts v1) =? np.len (np.data d)) = false).
  { rewrite <- L1, <- E1, Hs. unfold np.len.
    now rewrite starts_from_length, Hd, Z.eqb_refl. }
  assert (Hcomp : forall (a : list Z), length a = length P ->
            np.compress a (nonnegative P) = Ok a).
  { intros a Hl. unfold np.compress, nonnegative at 1.
    rewrite length_map, Hl, Nat.eqb_refl. f_equal. now apply select_all. }
  assert (Hcount : np.count_true (nonnegative P) = length P).
  { clear - HP. unfold np.count_true. induction HP as [|x P Hx HP IH]; [reflexivity|].
    cbn [nonnegative map filter]. fold (nonnegative P).
    replace (0 <=? x) with true by (symmetry; apply Z.leb_le; exact Hx).
    cbn [length]. now rewrite IH. }
  assert (Hplace : forall a vals : list Z, length a = length P -> length vals = length P ->
            np.place (nonnegative P) a vals = vals).
  { clear - HP. induction HP as [|x P Hx HP IH]; intros a vals Hl Hv.
    - destruct vals; [|discriminate]. destruct a; [reflexivity | discriminate].
    - destruct a as [|y a]; [discriminate|]. destruct vals as [|v vals]; [discriminate|].
      cbn [nonnegative map np.place]. fold (nonnegative P).
      replace (0 <=? x) with true by (symmetry; apply Z.leb_le; exact Hx).
      f_equal. apply IH; cbn [length] in *; lia. }
  assert (Hset : np.setitem_mask (empty garbage (np.len P)) (nonnegative P)
                   (np.Values (spread_rows (np.data d) sizes))
                 = Ok (spread_rows (np.data d) sizes)).
  { unfold np.setitem_mask. unfold nonnegative at 1.
    rewrite length_map, empty_length. unfold np.len. rewrite Nat2Z.id, Nat.eqb_refl.
    rewrite spread_values by now rewrite Hcount.
    cbn [rbind]. f_equal. apply Hplace; [|exact Hlsp].
    now rewrite empty_length, Nat2Z.id. }
  assert (Hv1s : negative_any (_starts v1) = false) by now rewrite <- L1, <- E1.
  assert (Hv1t : negative_any (_stops v1) = false) by now rewrite <- L2, <- E2.
  rewrite Hn, (Hcomp P eq_refl), Htake, Hset.
  rewrite (copy_content v1 _ Hv1s Hv1t).
  repeat (cbn [for_each flat_operand app _content np.data with_content]; run).
  rewrite (Hcomp (np.data (_content v1)))
    by (rewrite <- L3, <- E3; unfold np.len in Hfit; lia).
  rewrite (Hcomp _ Hlsp).
  rewrite <- L3, <- E3.
  destruct (ufunc _) as [r|e]; [|reflexivity]. cbn [rbind].
  rewrite L1, L2, (copy_content v1 _ Hv1s Hv1t).
  cbn [fst]. unfold with_content. now rewrite <- L1, <- L2, <- E1, <- E2.
Qed.

Lemma ufunc_with_array_witness :
  value_of (__array_ufunc__ no_alias (fun _ => 0) numpy_add []
              [Plain (Ndarray (int64s [100; 200; 300]))])
    (view [0; 2; 2] [2; 2; 5] (int64s [1; 2; 3; 4; 5]))
  = Ok (view [0; 2; 2] [2; 2; 5] (int64s [101; 102; 303; 304; 305])).
Proof.
  apply (ufunc_with_array no_alias (fun _ => 0) numpy_add
           (view [0; 2; 2] [2; 2; 5] (int64s [1; 2; 3; 4; 5])) [2; 0; 3]
           (int64s [100; 200; 300]) no_alias_aliasing); try reflexivity.
  - discriminate.
  - repeat constructor; lia.
Defined.

(** ** [prod], on both paths *)

Lemma wrap_mul_l (dt : np.dtype) (a b : Z) :
  np.is_integer dt = true -> np.wrap dt (np.wrap dt a * b) = np.wrap dt (a * b).
Proof.
  intros H. destruct (wrap_window dt H) as (o & m & Hm & E). rewrite !E.
  f_equal.
  replace (((a + o) mod m - o) * b + o) with ((a + o) mod m * b + (o - o * b)) by lia.
  replace (a * b + o) with ((a + o) * b + (o - o * b)) by lia.
  rewrite <- Z.add_mod_idemp_l by lia. rewrite Z.mul_mod_idemp_l by lia.
  now rewrite Z.add_mod_idemp_l by lia.
Qed.

Lemma wrap_one (dt : np.dtype) : np.wrap dt 1 = 1.
Proof. destruct dt; reflexivity. Qed.

Lemma fold_product (dt : np.dtype) (rest : list Z) (acc : Z) :
  np.is_integer dt = true ->
  fold_left (fun x y => np.wrap dt (x * y)) rest (np.wrap dt acc)
  = np.wrap dt (acc * product rest).
Proof.
  intros Hdt. revert acc. induction rest as [|y rest IH]; intros acc; cbn [fold_left].
  - unfold product. cbn. now rewrite Z.mul_1_r.
  - rewrite (wrap_mul_l dt acc y Hdt), IH. unfold product. cbn [fold_right].
    f_equal. lia.
Qed.

Lemma wrap_narrow (dt : np.dtype) (z : Z) :
  np.is_integer dt = true -> np.wrap dt (np.wrap (np.reduce_dtype dt) z) = np.wrap dt z.
Proof.
  destruct dt; cbn [np.reduce_dtype np.wrap np.is_integer]; intros H; try discriminate.
  - apply wrap64_small. unfold np.wrap64.
    pose proof (Z.mod_pos_bound (z + 2 ^ 63) (2 ^ 64) ltac:(lia)). lia.
  - apply Z.mod_mod. lia.
  - apply Z.mod_mod_divide. exists (2 ^ 56). reflexivity.
Qed.

(** X23.  [prod] on the general path, for a view of ranges within a
    content of integer dtype whose rows do not follow one another: item [i]
    of the result is the product of the items of row [i], reduced to the
    content's dtype, and 1 for an empty row. *)
Theorem prod_general (oa : list Z -> list Z -> option (list Z))
    (self : JaggedArray np.ndarray) :
  aliasing oa -> ranges self ->
  Forall (fun t => t <= np.len (np.data (_content self))) (_stops self) ->
  np.is_integer (np.dtype_of (_content self)) = true ->
  np.array_equal (np.from1 (_starts self)) (np.upto_last (_stops self)) = false ->
  value_of (prod oa) self
  = Ok (np.array (np.dtype_of (_content self))
          (map (fun row => np.wrap (np.dtype_of (_content self)) (product row))
               (rows_of self))).
Proof.
  intros Ha Hr Hb Hdt He.
  assert (Hlen : length (_starts self) = length (_stops self))
    by (eapply Forall2_length; eauto).
  destruct (validated_same_layout self) as (E1 & E2 & E3).
  pose proof (ranges_pairs _ _ _ Hr Hb) as HQ.
  set (dt := np.dtype_of (_content self)) in *.
  unfold prod, _canuseoffset, shape. run. rewrite (valid_validated self Hlen).
  rewrite <- E1, <- E2. rewrite (not_contiguous oa _ _ Ha He).
  rewrite <- ?E1, <- ?E2, <- ?E3. rewrite valid_again. rewrite <- ?E1, <- ?E2, <- ?E3.
  fold dt. unfold rows_of, np.ones, np.len. rewrite Nat2Z.id.
  destruct (map_fst_combine_same _ _ Hlen) as [Fs Ft].
  revert HQ Fs Ft. generalize (combine (_starts self) (_stops self)). intros pairs HQ Fs Ft.
  rewrite <- Ft. rewrite <- Fs at 1 2. rewrite length_map.
  rewrite (each_row_fill _ _
             (fun p => np.wrap dt (product (np.slice (np.data (_content self)) (fst p) (snd p))))
             1 pairs [] [] eq_refl).
  - cbn [app rbind fst]. rewrite map_map. do 2 f_equal. apply map_ext_in. intros p Hp.
    pose proof (proj1 (Forall_forall _ _) HQ p Hp) as (H1 & H2). cbv beta in H1, H2.
    destruct (fst p =? snd p) eqn:E; [|reflexivity].
    apply Z.eqb_eq in E. rewrite <- E, slice_bounds by lia.
    rewrite Z.sub_diag. cbn [Z.to_nat firstn]. unfold product. cbn. now rewrite wrap_one.
  - apply Forall_forall. intros p _ _. f_equal. rewrite Z.mul_1_l.
    unfold np.prod. rewrite <- (wrap_one (np.reduce_dtype dt)) at 1.
    rewrite fold_product by apply reduce_dtype_integer.
    rewrite Z.mul_1_l. now apply wrap_narrow.
Qed.

Lemma reduce_row_product (dt : np.dtype) (row : list Z) :
  np.is_integer dt = true -> items_of dt row ->
  reduce_row (fun x y => np.wrap dt (x * y)) 1 row = np.wrap dt (product row).
Proof.
  intros Hdt Hrow. destruct row as [|x rest]; cbn [reduce_row].
  - unfold product. cbn. now rewrite wrap_one.
  - apply Forall_cons_iff in Hrow as [Hx _]. cbv beta in Hx.
    rewrite <- Hx at 1. rewrite fold_product by exact Hdt. reflexivity.
Qed.

(** X24.  [prod] on the contiguous path, for rows that are ranges following
    one another from position 0, with a last row that is not empty and ends
    within the content: item [i] of the result is the product of row [i]
    (1 for an empty row) in numpy's reduction dtype, uint8 widened to
    uint64 and bool to int64, where the general path keeps the content's
    dtype. *)
Theorem prod_contiguous (oa : list Z -> list Z -> option (list Z))
    (self : JaggedArray np.ndarray) :
  aliasing oa -> ranges self ->
  np.array_equal (np.from1 (_starts self)) (np.upto_last (_stops self)) = true ->
  (forall o, _offsets self = Some o -> o = _starts self ++ [last (_stops self) 0]) ->
  np.item (_starts self) 0 = Ok 0 ->
  last (_starts self) 0 < last (_stops self) 0 ->
  last (_stops self) 0 <= np.len (np.data (_content self)) ->
  items_of (np.dtype_of (_content self)) (np.data (_content self)) ->
  value_of (prod oa) self
  = Ok (np.array (np.reduce_dtype (np.dtype_of (_content self)))
          (map (fun row => np.wrap (np.reduce_dtype (np.dtype_of (_content self)))
                             (product row))
               (rows_of self))).
Proof.
  intros Ha Hr He Hc Hfirst Hlast Hfit Hitems.
  assert (Hlen : length (_starts self) = length (_stops self))
    by (eapply Forall2_length; eauto).
  pose proof (rows_of_same_layout _ _ (validated_same_layout self)) as Hrows.
  destruct (validated_same_layout self) as (E1 & E2 & E3).
  assert (Hrun : value_of (reduce_offsets oa
                   (fun x y => np.wrap (np.reduce_dtype (np.dtype_of (_content self))) (x * y))
                   (Ok 1)) (validated self)
                 = Ok (map (reduce_row (fun x y => np.wrap (np.reduce_dtype (np.dtype_of (_content self))) (x * y)) 1)
                         (rows_of self))).
  { rewrite Hrows. apply reduce_offsets_rows; unfold ranges;
      rewrite ?validated_offsets, <- ?E1, <- ?E2, <- ?E3; assumption. }
  apply run_value in Hrun as (s' & Hrun).
  unfold prod, _canuseoffset. run. rewrite (valid_validated self Hlen).
  rewrite <- E1, <- E2. unfold contiguous. rewrite He, orb_true_r.
  rewrite <- E3, Hrun. cbn [fst]. do 2 f_equal.
  apply map_ext_in. intros row Hrow. apply reduce_row_product.
  - apply reduce_dtype_integer.
  - apply widen_items. unfold rows_of in Hrow. apply in_map_iff in Hrow as (p & <- & _).
    apply slice_entries. exact Hitems.
Qed.

Lemma prod_general_witness :
  value_of (prod no_alias) (view [2; 0] [4; 2] (int64s [1; 2; 3; 4])) = Ok (int64s [12; 2]).
Proof.
  apply (prod_general no_alias (view [2; 0] [4; 2] (int64s [1; 2; 3; 4])) no_alias_aliasing).
  - unfold ranges. cbn. repeat constructor; lia.
  - cbn. repeat constructor; lia.
  - reflexivity.
  - reflexivity.
Defined.

Lemma prod_contiguous_witness :
  value_of (prod no_alias) (view [0; 2; 2] [2; 2; 3] (int64s [4; 2; 3])) = Ok (int64s [8; 1; 3]).
Proof.
  apply (prod_contiguous no_alias (view [0; 2; 2] [2; 2; 3] (int64s [4; 2; 3]))
           no_alias_aliasing).
  - unfold ranges. cbn. repeat constructor; lia.
  - reflexivity.
  - intros o Ho. discriminate Ho.
  - reflexivity.
  - cbn. lia.
  - cbn. lia.
  - repeat constructor.
Defined.

(** ** [_tojagged] from one run of consecutive rows to another *)

Lemma ranges_of_sizes (b : Z) (sizes : list Z) :
  0 <= b -> Forall (fun z => 0 <= z) sizes -> b + total sizes < 2 ^ 63 ->
  Forall2 (fun s t => 0 <= s <= t /\ t < 2 ^ 63)
    (starts_from b sizes) (np.accumulate Z.add b sizes).
Proof.
  intros Hb H. revert b Hb. induction H as [|z sizes Hz H IH]; intros b Hb Hfit; [constructor|].
  rewrite total_cons in Hfit. pose proof (total_nonneg sizes H).
  cbn [starts_from np.accumulate]. cbv zeta. constructor; [lia|].
  apply IH; lia.
Qed.

Lemma max_accumulate (b : Z) (sizes : list Z) :
  Forall (fun z => 0 <= z) sizes -> sizes <> [] ->
  np.max (np.accumulate Z.add b sizes) = Ok (b + total sizes).
Proof.
  intros H Hne. destruct H as [|z sizes Hz H]; [congruence|]. clear Hne.
  cbn [np.accumulate]. cbv zeta. unfold np.max, np.reduce. f_equal.
  rewrite total_cons, Z.add_assoc. generalize (b + z). clear b z Hz. intros b.
  revert b. induction H as [|z sizes Hz H IH]; intros b; cbn [np.accumulate fold_left].
  - change (total []) with 0. lia.
  - cbv zeta. rewrite total_cons, Z.add_assoc.
    replace (Z.max b (b + z)) with (b + z) by lia. apply IH.
Qed.

Lemma starts_differ (a b : Z) (sizes : list Z) :
  a <> b -> sizes <> [] ->
  np.array_equal (starts_from b sizes) (starts_from a sizes) = false.
Proof.
  intros Hab Hne. destruct sizes as [|z sizes]; [congruence|].
  cbn [starts_from]. unfold np.array_equal. cbn [np.eqb_list].
  replace (b =? a) with false by (symmetry; apply Z.eqb_neq; congruence). reflexivity.
Qed.

Lemma first_of_starts (b : Z) (sizes : list Z) :
  sizes <> [] -> 0 <= b -> np.item (starts_from b sizes) 0 = Ok b.
Proof.
  intros Hne Hb. destruct sizes as [|z sizes]; [congruence|]. reflexivity.
Qed.

Lemma last_of_stops (b : Z) (sizes : list Z) :
  sizes <> [] -> np.item (np.accumulate Z.add b sizes) (-1) = Ok (b + total sizes).
Proof.
  intros Hne. rewrite (item_last _ 0) by (destruct sizes; [congruence | discriminate]).
  f_equal. rewrite <- (last_accumulate b sizes).
  destruct sizes; [congruence | reflexivity].
Qed.

Lemma contiguous_sizes (oa : list Z -> list Z -> option (list Z)) (b : Z) (sizes : list Z) :
  contiguous oa (starts_from b sizes) (np.accumulate Z.add b sizes) = true.
Proof.
  unfold contiguous. rewrite from1_starts_from. unfold np.array_equal.
  now rewrite eqb_list_refl, orb_true_r.
Qed.

Lemma copy_all {C} (self : JaggedArray C) (starts stops : list Z) (content : C) :
  negative_any starts = false -> negative_any stops = false ->
  copy self (Some starts) (Some stops) (Some content)
  = Ok {| _starts := starts; _stops := stops; _content := content;
          _offsets := None; _counts := None; _parents := None; _isvalid := false |}.
Proof.
  intros H1 H2. unfold copy, exec, set_starts, set_stops, set_content, modify.
  rewrite H1. cbn [rbind]. rewrite H2. reflexivity.
Qed.

(** The run of [_tojagged] from rows that follow one another from
    position [a] to rows of the same lengths that follow one another from
    another position [b]: one slice of the content is assigned to one slice
    of the new content. *)
Lemma tojagged_run_run (oa : list Z -> list Z -> option (list Z))
    (self : JaggedArray np.ndarray) (sizes : list Z) (a b : Z) (copy_ : bool) :
  well_formed self ->
  _starts self = starts_from a sizes ->
  _stops self = np.accumulate Z.add a sizes ->
  sizes <> [] -> Forall (fun z => 0 <= z) sizes ->
  0 <= a -> 0 <= b -> a <> b ->
  a + total sizes + 1 < 2 ^ 63 -> b + total sizes + 1 < 2 ^ 63 ->
  value_of (_tojagged oa (Some (Other (starts_from b sizes)))
              (Some (Other (np.accumulate Z.add b sizes))) copy_) self
  = (let* filled :=
       np.setitem_slice (np.zeros (b + total sizes)) b (b + total sizes + 1)
         (np.Values (np.slice (np.data (_content self)) a (a + total sizes + 1))) in
     Ok {| _starts := starts_from b sizes; _stops := np.accumulate Z.add b sizes;
           _content := np.array (np.dtype_of (_content self)) filled;
           _offsets := None; _counts := None; _parents := None; _isvalid := false |}).
Proof.
  intros Hwf Hs Ht Hne Hpos Ha Hb Hab Hfa Hfb.
  pose proof (total_nonneg sizes Hpos) as Htot.
  assert (Hr : ranges self).
  { unfold ranges. rewrite Hs, Ht. apply ranges_of_sizes; auto; lia. }
  destruct (counts_ranges self Hwf Hr) as (s1 & Hc & (L1 & L2 & L3) & _).
  rewrite Hs, Ht, spans_offsets in Hc.
  unfold _tojagged. run. cbn [target_value].
  rewrite (ranges_sub _ _ (ranges_of_sizes b sizes Hb Hpos ltac:(lia))), spans_offsets.
  rewrite Hc. unfold np.array_equal at 1. rewrite eqb_list_refl. cbn [negb].
  cbn [target_value is_own]. unfold _validstartsstops. rewrite starts_from_length, accumulate_length, Nat.ltb_irrefl.
  cbn [is_own andb orb]. rewrite andb_false_r. cbn [andb orb].
  rewrite <- L1, Hs, (starts_differ a b sizes Hab Hne). cbn [andb].
  rewrite (max_accumulate b sizes Hpos Hne).
  rewrite copy_all
    by (apply negative_any_false;
        first [ apply starts_from_nonnegative; [lia | exact Hpos]
              | apply accumulate_nonnegative; [lia | exact Hpos] ]).
  rewrite <- ?L1, <- ?L2, ?Hs, ?Ht, !contiguous_sizes.
  rewrite !first_of_starts, !last_of_stops by assumption.
  rewrite !wrap64_small by lia. rewrite <- L3.
  cbn [_content np.data]. destruct (np.setitem_slice _ _ _ _); reflexivity.
Qed.

Lemma zeros_length (n : Z) : np.len (np.zeros n) = Z.max 0 n.
Proof. unfold np.len, np.zeros. rewrite repeat_length. lia. Qed.

Lemma firstn_repeat_le {A} (x : A) (n m : nat) :
  (n <= m)%nat -> firstn n (repeat x m) = repeat x n.
Proof.
  revert m. induction n as [|n IH]; intros [|m] H; cbn; try reflexivity; try lia.
  f_equal. apply IH. lia.
Qed.

(** X25.  [_tojagged(starts, stops)] from rows that follow one another from
    position [a] to targets that lay rows of the same lengths one after the
    other from another position [b], when the content ends with the last
    row: the call returns an array with the target starts and stops and the
    same rows. *)
Theorem tojagged_run_to_run (oa : list Z -> list Z -> option (list Z))
    (self : JaggedArray np.ndarray) (sizes : list Z) (a b : Z) (copy_ : bool) :
  well_formed self ->
  _starts self = starts_from a sizes ->
  _stops self = np.accumulate Z.add a sizes ->
  sizes <> [] -> Forall (fun z => 0 <= z) sizes ->
  0 <= a -> 0 <= b -> a <> b ->
  a + total sizes + 1 < 2 ^ 63 -> b + total sizes + 1 < 2 ^ 63 ->
  np.len (np.data (_content self)) = a + total sizes ->
  exists out,
    value_of (_tojagged oa (Some (Other (starts_from b sizes)))
                (Some (Other (np.accumulate Z.add b sizes))) copy_) self = Ok out
    /\ _starts out = starts_from b sizes
    /\ _stops out = np.accumulate Z.add b sizes
    /\ rows_of out = rows_of self.
Proof.
  intros Hwf Hs Ht Hne Hpos Ha Hb Hab Hfa Hfb Hfit.
  pose proof (total_nonneg sizes Hpos) as Htot.
  rewrite (tojagged_run_run oa self sizes a b copy_) by assumption.
  set (mine := np.data (_content self)) in *.
  destruct (rows_from_counts mine sizes a Hpos Ha) as [Hl Hcat]; [lia|].
  cbv zeta in Hl, Hcat.
  assert (Hrows : rows_of self
                  = map (fun p => np.slice mine (fst p) (snd p))
                        (combine (starts_from a sizes) (np.accumulate Z.add a sizes)))
    by (unfold rows_of; now rewrite Hs, Ht).
  rewrite <- Hrows in Hl, Hcat.
  assert (Hclip : np.slice mine a (a + total sizes + 1) = np.slice mine a (a + total sizes)).
  { unfold np.slice, np.slice_bound. rewrite Hfit.
    replace (a <? 0) with false by (symmetry; apply Z.ltb_ge; lia).
    replace (a + total sizes + 1 <? 0) with false by (symmetry; apply Z.ltb_ge; lia).
    replace (a + total sizes <? 0) with false by (symmetry; apply Z.ltb_ge; lia).
    do 3 f_equal; lia. }
  rewrite Hclip, <- Hcat.
  assert (Hlc : length (concat (rows_of self)) = Z.to_nat (total sizes)).
  { rewrite Hcat. pose proof (slice_length mine a (a + total sizes) ltac:(lia) ltac:(lia)) as H.
    unfold np.len in H. lia. }
  unfold np.setitem_slice, np.slice_bound. rewrite zeros_length.
  replace (b <? 0) with false by (symmetry; apply Z.ltb_ge; lia).
  replace (b + total sizes + 1 <? 0) with false by (symmetry; apply Z.ltb_ge; lia).
  replace (Z.min (b + total sizes + 1) (Z.max 0 (b + total sizes))) with (b + total sizes) by lia.
  replace (Z.min b (Z.max 0 (b + total sizes))) with b by lia.
  replace (b + total sizes - b) with (total sizes) by lia.
  rewrite spread_values by exact Hlc. cbn [rbind].
  eexists. split; [reflexivity|]. split; [reflexivity|]. split; [reflexivity|].
  unfold rows_of at 1. cbn [_starts _stops _content np.data].
  unfold np.zeros.
  replace (Z.to_nat (b + total sizes)) with (Z.to_nat b + Z.to_nat (total sizes))%nat by lia.
  rewrite firstn_repeat_le by lia. rewrite skipn_all2 by (rewrite repeat_length; lia).
  rewrite app_nil_r, <- Hl.
  apply rows_of_blocks. unfold np.len. rewrite repeat_length. lia.
Qed.

(** X26.  The same call when the content goes on after the last row and the
    rows hold at least one item: ValueError.  The source takes one item
    more than the rows cover ([stops[-1] + 1]), and the target, allocated
    up to its last stop, has no room for it. *)
Theorem tojagged_run_trailing (oa : list Z -> list Z -> option (list Z))
    (self : JaggedArray np.ndarray) (sizes : list Z) (a b : Z) (copy_ : bool) :
  well_formed self ->
  _starts self = starts_from a sizes ->
  _stops self = np.accumulate Z.add a sizes ->
  sizes <> [] -> Forall (fun z => 0 <= z) sizes ->
  0 <= a -> 0 <= b -> a <> b ->
  a + total sizes + 1 < 2 ^ 63 -> b + total sizes + 1 < 2 ^ 63 ->
  0 < total sizes ->
  a + total sizes < np.len (np.data (_content self)) ->
  value_of (_tojagged oa (Some (Other (starts_from b sizes)))
              (Some (Other (np.accumulate Z.add b sizes))) copy_) self
  = Raise ValueError.
Proof.
  intros Hwf Hs Ht Hne Hpos Ha Hb Hab Hfa Hfb Htot Hfit.
  rewrite (tojagged_run_run oa self sizes a b copy_) by assumption.
  set (mine := np.data (_content self)) in *.
  pose proof (slice_length mine a (a + total sizes + 1) ltac:(lia) ltac:(lia)) as Hl.
  unfold np.len in Hl.
  unfold np.setitem_slice, np.slice_bound. rewrite zeros_length.
  replace (b <? 0) with false by (symmetry; apply Z.ltb_ge; lia).
  replace (b + total sizes + 1 <? 0) with false by (symmetry; apply Z.ltb_ge; lia).
  replace (Z.min (b + total sizes + 1) (Z.max 0 (b + total sizes))) with (b + total sizes) by lia.
  replace (Z.min b (Z.max 0 (b + total sizes))) with b by lia.
  replace (b + total sizes - b) with (total sizes) by lia.
  destruct (np.slice mine a (a + total sizes + 1)) as [|x [|y l]] eqn:E;
    cbn [length] in Hl; try lia.
  unfold np.spread.
  replace (length (x :: y :: l) =? Z.to_nat (total sizes))%nat with false
    by (symmetry; apply Nat.eqb_neq; cbn [length]; lia).
  reflexivity.
Qed.

Lemma tojagged_run_to_run_witness :
  exists out,
    value_of (_tojagged no_alias (Some (Other [0; 2])) (Some (Other [2; 3])) true)
      (view [1; 3] [3; 4] (int64s [9; 1; 2; 3])) = Ok out
    /\ _starts out = [0; 2] /\ _stops out = [2; 3]
    /\ rows_of out = [[1; 2]; [3]].
Proof.
  apply (tojagged_run_to_run no_alias (view [1; 3] [3; 4] (int64s [9; 1; 2; 3]))
           [2; 1] 1 0 true); try reflexivity; try lia.
  - repeat split; try reflexivity. intros c Hc. discriminate Hc.
  - discriminate.
  - repeat constructor; lia.
Defined.

Lemma tojagged_run_trailing_witness :
  value_of (_tojagged no_alias (Some (Other [0; 2])) (Some (Other [2; 3])) true)
    (view [1; 3] [3; 4] (int64s [9; 1; 2; 3; 9])) = Raise ValueError.
Proof.
  apply (tojagged_run_trailing no_alias (view [1; 3] [3; 4] (int64s [9; 1; 2; 3; 9]))
           [2; 1] 1 0 true); try reflexivity; try lia.
  - repeat split; try reflexivity. intros c Hc. discriminate Hc.
  - discriminate.
  - repeat constructor; lia.
Defined.

(** ** The type descriptions of [awkward.type] *)

Module awkward_type_facts.
Import String.
Import awkward_type.

(** X27.  [|] is associative on type descriptions: [(a | b) | c] and
    [a | (b | c)] are the same union whenever [b] is a Type, because a
    union among the operands is flattened and any other operand counts as
    one possibility.  With a numpy dtype for [a], both raise TypeError. *)
Theorem union_associative (a b c : Type_) :
  (forall name, b <> Dtype name) ->
  (let* ab := __or__ a b in __or__ ab c)
  = (let* bc := __or__ b c in __or__ a bc).
Proof.
  intros Hb. destruct b as [name| | |]; [now destruct (Hb name)| | |];
    destruct a, c; cbn; rewrite <- ?app_assoc; reflexivity.
Qed.

Lemma union_associative_witness :
  (let* ab := __or__ (ArrayType Inf (Dtype "int64"%string)) (TableType []) in
   __or__ ab (Dtype "bool"%string))
  = Ok (UnionType [ArrayType Inf (Dtype "int64"%string); TableType []; Dtype "bool"%string])
  /\ (let* bc := __or__ (TableType []) (Dtype "bool"%string) in
      __or__ (ArrayType Inf (Dtype "int64"%string)) bc)
     = Ok (UnionType [ArrayType Inf (Dtype "int64"%string); TableType []; Dtype "bool"%string]).
Proof.
  split; [reflexivity|].
  rewrite <- (union_associative (ArrayType Inf (Dtype "int64"%string)) (TableType [])
                (Dtype "bool"%string)); [reflexivity|].
  intros name. discriminate.
Defined.

(** One more argument in front of at least two. *)
Lemma init_longer (dtype_named : string -> option string)
    (first second third : value) (more : list value) :
  __init__ dtype_named (first :: second :: third :: more)
  = match first with
    | VStr name =>
        let* to := __init__ dtype_named (second :: third :: more) in
        Ok (TableType [(name, to)])
    | _ =>
        let* takes := set_takes first in
        let* to := __init__ dtype_named (second :: third :: more) in
        Ok (ArrayType takes to)
    end.
Proof. reflexivity. Qed.

Lemma set_takes_allowed (c : count) :
  count_allowed c -> set_takes (count_value c) = Ok c.
Proof.
  destruct c as [|n]; cbn; [reflexivity|]. intros H.
  now replace (0 <=? n) with true by (symmetry; apply Z.leb_le; exact H).
Qed.

(** X28.  [ArrayType(d1, ..., dn, t)] for one or more counts, each
    [numpy.inf] or a non-negative integer, followed by a Type [t], is the
    nesting [ArrayType(d1, ArrayType(..., ArrayType(dn, t)))]. *)
Theorem arraytype_nesting (dtype_named : string -> option string)
    (dims : list count) (d : count) (t : Type_) :
  Forall count_allowed (d :: dims) ->
  __init__ dtype_named (map count_value (d :: dims) ++ [VType t])
  = Ok (fold_right ArrayType t (d :: dims)).
Proof.
  intros H. revert d H. induction dims as [|d' dims IH]; intros d H;
    apply Forall_cons_iff in H as [Hd H].
  - cbn [map app __init__ fold_right]. rewrite (set_takes_allowed d Hd).
    now destruct d.
  - specialize (IH d' H). cbn [map app fold_right] in *.
    destruct (map count_value dims ++ [VType t]) as [|third more] eqn:E;
      [now destruct dims|].
    rewrite init_longer, IH, (set_takes_allowed d Hd).
    now destruct d.
Qed.

Lemma arraytype_nesting_witness :
  __init__ (fun _ => None) [VInf; VInt 3; VInt 0; VType (Dtype "int64"%string)]
  = Ok (ArrayType Inf (ArrayType (Count 3) (ArrayType (Count 0) (Dtype "int64"%string)))).
Proof.
  apply (arraytype_nesting (fun _ => None) [Count 3; Count 0] Inf
           (Dtype "int64"%string)).
  repeat constructor; cbn; lia.
Defined.

(** X29.  What the constructor of [ArrayType] refuses: a negative integer
    as count raises ValueError whatever follows it (the rest is not looked
    at); a single argument always raises ValueError, because the
    constructor first sets [takes] to None, which the setter rejects; and no
    argument raises ValueError. *)
Theorem arraytype_refused (dtype_named : string -> option string)
    (n : Z) (second : value) (more : list value) :
  n < 0 ->
  __init__ dtype_named (VInt n :: second :: more) = Raise ValueError
  /\ (forall x, __init__ dtype_named [x] = Raise ValueError)
  /\ __init__ dtype_named [] = Raise ValueError.
Proof.
  intros Hn. split; [|split; reflexivity].
  cbn [__init__ set_takes].
  now replace (0 <=? n) with false by (symmetry; apply Z.leb_gt; exact Hn).
Qed.

Lemma arraytype_refused_witness :
  __init__ (fun _ => None) [VInt (-1); VInf; VNone] = Raise ValueError.
Proof.
  refine (proj1 (arraytype_refused (fun _ => None) (-1) VInf [VNone] _)). lia.
Defined.

Lemma getitem_setitem (d : list (string * Type_)) (k key : string) (v : Type_) :
  getitem (setitem d k v) key = if String.eqb key k then Some v else getitem d key.
Proof.
  induction d as [|[k0 x] d IH]; cbn [setitem getitem]; [reflexivity|].
  destruct (String.eqb_spec k k0) as [->|Hk]; cbn [getitem].
  - now destruct (String.eqb key k0).
  - rewrite IH. destruct (String.eqb_spec key k0) as [->|Hkey]; [|reflexivity].
    destruct (String.eqb_spec k0 k) as [E|_]; [now destruct Hk|reflexivity].
Qed.

Lemma getitem_app (a b : list (string * Type_)) (key : string) :
  getitem (a ++ b) key
  = match getitem a key with Some v => Some v | None => getitem b key end.
Proof.
  induction a as [|[k x] a IH]; cbn [app getitem]; [reflexivity|].
  now destruct (String.eqb key k).
Qed.

Lemma getitem_missing (d : list (string * Type_)) (key : string) :
  ~ In key (map fst d) -> getitem d key = None.
Proof.
  induction d as [|[k x] d IH]; cbn [map fst In getitem]; [reflexivity|].
  intros H. destruct (String.eqb_spec key k) as [->|_]; [tauto|]. apply IH. tauto.
Qed.

Lemma getitem_rev (d : list (string * Type_)) (key : string) :
  NoDup (map fst d) -> getitem (rev d) key = getitem d key.
Proof.
  induction d as [|[k x] d IH]; cbn [map fst rev]; [reflexivity|].
  intros H. apply NoDup_cons_iff in H as [Hk H].
  rewrite getitem_app, (IH H). cbn [getitem].
  destruct (String.eqb_spec key k) as [->|_].
  - now rewrite (getitem_missing d k Hk).
  - now destruct (getitem d key).
Qed.

Lemma getitem_fold (items d : list (string * Type_)) (key : string) :
  getitem (fold_left (fun d kv => setitem d (fst kv) (snd kv)) items d) key
  = match getitem (rev items) key with Some v => Some v | None => getitem d key end.
Proof.
  revert d. induction items as [|[k x] items IH]; intros d; cbn [fold_left rev fst snd];
    [reflexivity|].
  rewrite IH, getitem_app, getitem_setitem. cbn [getitem].
  destruct (getitem (rev items) key); [reflexivity|].
  now destruct (String.eqb key k).
Qed.

Lemma keys_setitem (d : list (string * Type_)) (k : string) (v : Type_) :
  map fst (setitem d k v)
  = if has_key (map fst d) k then map fst d else map fst d ++ [k].
Proof.
  unfold has_key.
  induction d as [|[k0 x] d IH]; cbn [setitem map fst existsb app]; [reflexivity|].
  destruct (String.eqb k k0); cbn [orb map fst]; [reflexivity|].
  rewrite IH. now destruct (existsb (String.eqb k) (map fst d)).
Qed.

Lemma keys_fold (items d : list (string * Type_)) :
  map fst (fold_left (fun d kv => setitem d (fst kv) (snd kv)) items d)
  = fold_left (fun ks k => if has_key ks k then ks else ks ++ [k])
      (map fst items) (map fst d).
Proof.
  revert d. induction items as [|[k x] items IH]; intros d; cbn [fold_left map fst snd];
    [reflexivity|].
  now rewrite IH, keys_setitem.
Qed.

Lemma has_key_in (keys : list string) (key : string) :
  has_key keys key = true <-> In key keys.
Proof.
  unfold has_key. rewrite existsb_exists. split.
  - intros (k & Hin & E). apply String.eqb_eq in E. now subst.
  - intros H. exists key. split; [exact H|apply String.eqb_refl].
Qed.

Lemma new_keys (items keys : list string) :
  NoDup items ->
  fold_left (fun ks k => if has_key ks k then ks else ks ++ [k]) items keys
  = keys ++ filter (fun k => negb (has_key keys k)) items.
Proof.
  intros H. revert keys. induction H as [|k items Hk H IH]; intros keys;
    cbn [fold_left filter]; [now rewrite app_nil_r|].
  rewrite IH. destruct (has_key keys k) eqn:E; cbn [negb]; [reflexivity|].
  rewrite <- app_assoc. cbn [app]. do 2 f_equal.
  apply filter_ext_in. intros k' Hin. f_equal.
  unfold has_key. rewrite existsb_app. cbn [existsb].
  destruct (String.eqb_spec k' k) as [->|_]; [now destruct Hk|].
  now rewrite !orb_false_r.
Qed.

(** X30.  [self & other] on the fields of two TableTypes (each an
    OrderedDict, so without repeated keys): a key of [other] has the type
    it has in [other], any other key the type it has in [self]; the keys of
    [self] come first, in their order, then the keys of [other] that [self]
    does not have, in their order. *)
Theorem and_fields (self other : list (string * Type_)) :
  NoDup (map fst self) -> NoDup (map fst other) ->
  (forall key,
     getitem (__and__ self other) key
     = match getitem other key with Some v => Some v | None => getitem self key end)
  /\ map fst (__and__ self other)
     = map fst self ++ filter (fun k => negb (has_key (map fst self) k)) (map fst other).
Proof.
  intros Hs Ho. unfold __and__, OrderedDict. split.
  - intros key. rewrite getitem_fold, rev_app_distr, getitem_app.
    rewrite (getitem_rev other key Ho), (getitem_rev self key Hs). cbn [getitem].
    destruct (getitem other key); [reflexivity|]. now destruct (getitem self key).
  - rewrite keys_fold, map_app, fold_left_app. cbn [map].
    rewrite (new_keys (map fst self) [] Hs). cbn [app].
    rewrite (new_keys (map fst other)) by exact Ho. f_equal.
    + rewrite <- (filter_ext_in (fun _ => true)) by reflexivity.
      clear. induction (map fst self) as [|k l IH]; cbn; [reflexivity|]. now rewrite IH.
    + apply filter_ext_in. intros k _. f_equal.
      rewrite <- (filter_ext_in (fun _ => true)) by reflexivity.
      f_equal. clear. induction (map fst self) as [|k' l IH]; cbn; [reflexivity|].
      now rewrite IH.
Qed.

Lemma and_fields_witness :
  map fst (__and__ [("x", Dtype "int64"); ("y", Dtype "bool")]
                   [("z", Dtype "bool"); ("x", Dtype "float64")])%string
  = ["x"; "y"; "z"]%string
  /\ getitem (__and__ [("x", Dtype "int64"); ("y", Dtype "bool")]
                      [("z", Dtype "bool"); ("x", Dtype "float64")])%string "x"%string
     = Some (Dtype "float64"%string).
Proof.
  assert (Hs : NoDup (map fst [("x", Dtype "int64"); ("y", Dtype "bool")]%string)).
  { repeat constructor; cbn; intuition discriminate. }
  assert (Ho : NoDup (map fst [("z", Dtype "bool"); ("x", Dtype "float64")]%string)).
  { repeat constructor; cbn; intuition discriminate. }
  destruct (and_fields _ _ Hs Ho) as [Hget Hkeys]. split.
  - rewrite Hkeys. reflexivity.
  - rewrite Hget. reflexivity.
Defined.

End awkward_type_facts.
